(** * copy: a structural value-conversion engine (Go, package [copy])

    A shallow embedding of [copy.go]: the unit conversion
    [DefaultService.CopyValue], the structural driver [Copy] and the helpers
    [getTimeZone], [indirectValue] and [indirectType], over a model of the
    part of Go's [reflect] package they use.

    Modelling choices.
    - A Go value is a tree: a pointer owns its pointee (no sharing, no
      cycles), so a write through a handle is returned as the new content of
      that handle.  A slice is the list of its elements (a nil slice and an
      empty one are not told apart); a map is an association list in
      iteration order, or nil.
    - Types cover bool, the five signed and five unsigned integer types,
      float32/float64, string, the empty interface, pointers, slices, maps,
      structs without embedded fields or tags, and defined (named) types.
      Field names are ASCII.
    - The two arguments of [Copy] share no memory.  The one loop that
      behaves differently on a shared variable, the slice loop, is modelled
      apart ([shared_slice_loop]).
    - A panic is an explicit outcome.
    - [strconv]'s integer and boolean routines are written out.  The float
      routines, the [time] package and user [String] methods are fields of a
      [runtime] record the conversion is parameterised by.
    - The platform is a 64-bit one: [strconv.IntSize = 64]. *)

From Stdlib Require Import ZArith List String Ascii Bool Lia.
From Stdlib Require Import Floats.SpecFloat.
Import ListNotations.
Set Warnings "-register-all".
Open Scope string_scope.
Open Scope Z_scope.

(** ** Types and kinds *)

(** The width of an integer type: [W0] is [int]/[uint]. *)
Inductive width := W0 | W8 | W16 | W32 | W64.

(** [reflect.Kind], restricted to the kinds of the modelled types; the
    constructors are used qualified ([Kind.String]). *)
Module Kind.
Inductive kind :=
| Invalid | Bool
| Int | Int8 | Int16 | Int32 | Int64
| Uint | Uint8 | Uint16 | Uint32 | Uint64
| Float32 | Float64
| Interface | Map | Pointer | Slice | String | Struct.
End Kind.
Definition kind : Set := Kind.kind.

(** A runtime type.  [TNamed name stringer u] is a defined type [name] with
    underlying type [u]; [stringer] says that its value method set has
    [String() string].  The predeclared types are named too. *)
Inductive type :=
| TBool | TInt (w : width) | TUint (w : width)
| TFloat32 | TFloat64 | TString
| TInterface
| TPtr (elem : type)
| TSlice (elem : type)
| TMap (key elem : type)
| TStruct (fields : list (string * type))
| TNamed (name : string) (stringer : bool) (u : type).

Definition width_eqb (a b : width) : bool :=
  match a, b with
  | W0, W0 | W8, W8 | W16, W16 | W32, W32 | W64, W64 => true
  | _, _ => false
  end.

Definition kind_eqb (a b : kind) : bool :=
  match a, b with
  | Kind.Invalid, Kind.Invalid | Kind.Bool, Kind.Bool
  | Kind.Int, Kind.Int | Kind.Int8, Kind.Int8 | Kind.Int16, Kind.Int16
  | Kind.Int32, Kind.Int32 | Kind.Int64, Kind.Int64
  | Kind.Uint, Kind.Uint | Kind.Uint8, Kind.Uint8 | Kind.Uint16, Kind.Uint16
  | Kind.Uint32, Kind.Uint32 | Kind.Uint64, Kind.Uint64
  | Kind.Float32, Kind.Float32 | Kind.Float64, Kind.Float64
  | Kind.Interface, Kind.Interface | Kind.Map, Kind.Map
  | Kind.Pointer, Kind.Pointer | Kind.Slice, Kind.Slice
  | Kind.String, Kind.String | Kind.Struct, Kind.Struct => true
  | _, _ => false
  end.

(** Identity of types ([T == V] on [*rtype]). *)
Fixpoint type_eqb (a b : type) {struct a} : bool :=
  match a, b with
  | TBool, TBool | TFloat32, TFloat32 | TFloat64, TFloat64
  | TString, TString | TInterface, TInterface => true
  | TInt w, TInt w' | TUint w, TUint w' => width_eqb w w'
  | TPtr e, TPtr e' | TSlice e, TSlice e' => type_eqb e e'
  | TMap k e, TMap k' e' => type_eqb k k' && type_eqb e e'
  | TStruct fs, TStruct fs' =>
      (fix fields_eqb (l l' : list (string * type)) : bool :=
         match l, l' with
         | [], [] => true
         | (n, t) :: r, (n', t') :: r' =>
             String.eqb n n' && type_eqb t t' && fields_eqb r r'
         | _, _ => false
         end) fs fs'
  | TNamed n s u, TNamed n' s' u' =>
      String.eqb n n' && Bool.eqb s s' && type_eqb u u'
  | _, _ => false
  end.

(** [Type.Kind]. *)
Fixpoint Kind_of (t : type) : kind :=
  match t with
  | TBool => Kind.Bool
  | TInt W0 => Kind.Int | TInt W8 => Kind.Int8 | TInt W16 => Kind.Int16
  | TInt W32 => Kind.Int32 | TInt W64 => Kind.Int64
  | TUint W0 => Kind.Uint | TUint W8 => Kind.Uint8 | TUint W16 => Kind.Uint16
  | TUint W32 => Kind.Uint32 | TUint W64 => Kind.Uint64
  | TFloat32 => Kind.Float32 | TFloat64 => Kind.Float64
  | TString => Kind.String
  | TInterface => Kind.Interface
  | TPtr _ => Kind.Pointer
  | TSlice _ => Kind.Slice
  | TMap _ _ => Kind.Map
  | TStruct _ => Kind.Struct
  | TNamed _ _ u => Kind_of u
  end.

(** The underlying type: defined types are looked through. *)
Fixpoint underlying (t : type) : type :=
  match t with
  | TNamed _ _ u => underlying u
  | _ => t
  end.

(** [Type.Elem], [Type.Key] (on the kinds that have them). *)
Definition Elem_of (t : type) : type :=
  match underlying t with
  | TPtr e | TSlice e | TMap _ e => e
  | u => u
  end.

Definition Key_of (t : type) : type :=
  match underlying t with
  | TMap k _ => k
  | u => u
  end.

(** The fields of a struct type, in declaration order. *)
Definition fields_of (t : type) : list (string * type) :=
  match underlying t with
  | TStruct fs => fs
  | _ => []
  end.

(** [rtype.HasName]: defined and predeclared types. *)
Definition HasName (t : type) : bool :=
  match t with
  | TBool | TInt _ | TUint _ | TFloat32 | TFloat64 | TString
  | TNamed _ _ _ => true
  | _ => false
  end.

(** ** Values *)

(** The content of a value.  Integers are kept in the range of their type,
    a float32 as the float64 it widens to. *)
Inductive data :=
| DBool (b : bool)
| DInt (z : Z)
| DUint (z : Z)
| DFloat (f : spec_float)
| DString (s : string)
| DIface (v : option (type * data))
| DPtr (p : option data)
| DSlice (l : list data)
| DMap (m : option (list (data * data)))
| DStruct (fs : list data).

(** The zero value of a type ([reflect.Zero], the content of [reflect.New]). *)
Fixpoint zero (t : type) : data :=
  match t with
  | TBool => DBool false
  | TInt _ => DInt 0
  | TUint _ => DUint 0
  | TFloat32 | TFloat64 => DFloat (S754_zero false)
  | TString => DString ""
  | TInterface => DIface None
  | TPtr _ => DPtr None
  | TSlice _ => DSlice []
  | TMap _ _ => DMap None
  | TStruct fs =>
      DStruct ((fix zeros (l : list (string * type)) : list data :=
                  match l with
                  | [] => []
                  | (_, ft) :: r => zero ft :: zeros r
                  end) fs)
  | TNamed _ _ u => zero u
  end.

(** ** [strconv]: the integer and boolean routines *)

Module strconv.

(** [strconv.IntSize] on a 64-bit platform. *)
Definition IntSize : Z := 64.

Definition maxUint64 : Z := 2 ^ 64 - 1.

Definition code (c : ascii) : Z := Z.of_N (N_of_ascii c).

(** [lower(c) = c | ('x' - 'X')]. *)
Definition lower (c : ascii) : Z := Z.lor (code c) 32.

Definition FormatBool (b : bool) : string :=
  if b then "true" else "false".

Definition ParseBool (str : string) : option bool :=
  if existsb (String.eqb str) ["1"; "t"; "T"; "TRUE"; "true"; "True"]
  then Some true
  else if existsb (String.eqb str) ["0"; "f"; "F"; "FALSE"; "false"; "False"]
  then Some false
  else None.

(** The digit loop of [ParseUint] in base 10 (the only base [copy.go]
    passes); [n] is a uint64, so [n * 10] and [n + d] wrap around.  [None]
    is a non-nil error (syntax or range). *)
Fixpoint parseUint_loop (maxVal n : Z) (s : string) : option Z :=
  match s with
  | EmptyString => Some n
  | String c r =>
      let d :=
        if (code "0" <=? code c) && (code c <=? code "9")
        then Some (code c - code "0")
        else if (code "a" <=? lower c) && (lower c <=? code "z")
        then Some (lower c - code "a" + 10)
        else None in
      match d with
      | None => None
      | Some d =>
          if 10 <=? d then None
          else if maxUint64 / 10 + 1 <=? n then None
          else
            let n := (n * 10) mod 2 ^ 64 in
            let n1 := (n + d) mod 2 ^ 64 in
            if (n1 <? n) || (maxVal <? n1) then None
            else parseUint_loop maxVal n1 r
      end
  end.

(** [ParseUint(s, 10, bitSize)]. *)
Definition ParseUint (s : string) (bitSize : Z) : option Z :=
  if String.eqb s "" then None
  else
    let bitSize := if bitSize =? 0 then IntSize else bitSize in
    if (bitSize <? 0) || (64 <? bitSize) then None
    else parseUint_loop (2 ^ bitSize - 1) 0 s.

(** [ParseInt(s, 10, bitSize)]: a leading sign, then [ParseUint] and the
    range check. *)
Definition ParseInt (s : string) (bitSize : Z) : option Z :=
  match s with
  | EmptyString => None
  | String c r =>
      let neg := Ascii.eqb c "-" in
      let s' := if Ascii.eqb c "+" || neg then r else s in
      match ParseUint s' bitSize with
      | None => None
      | Some un =>
          let bitSize := if bitSize =? 0 then IntSize else bitSize in
          let cutoff := 2 ^ (bitSize - 1) in
          if negb neg && (cutoff <=? un) then None
          else if neg && (cutoff <? un) then None
          else Some (if neg then - un else un)
      end
  end.

(** The decimal digits of [u], most significant first, in front of [acc]. *)
Fixpoint formatBits (fuel : nat) (u : Z) (acc : string) : string :=
  match fuel with
  | O => acc
  | S fuel' =>
      let acc' := String (ascii_of_N (Z.to_N (code "0" + u mod 10))) acc in
      if u <? 10 then acc' else formatBits fuel' (u / 10) acc'
  end.

(** [FormatUint(u, 10)]: a uint64 has at most 20 digits. *)
Definition FormatUint (u : Z) : string := formatBits 20 u "".

(** [FormatInt(i, 10)]. *)
Definition FormatInt (i : Z) : string :=
  if i <? 0 then String "-" (formatBits 20 (- i) "") else formatBits 20 i "".

End strconv.

(** ** The rest of the runtime

    What [copy.go] calls and this development does not write out: the float
    routines of [strconv] and of the language, the [time] package (a
    [time.Time] and a [*time.Location] are passed as their [data]), and the
    [String] methods of the program's own types. *)
Record runtime := {
  FormatFloat : spec_float -> ascii -> Z -> Z -> string;
  ParseFloat : string -> Z -> option spec_float;
  float32_of : spec_float -> spec_float;
  float_of_int : Z -> spec_float;
  int_of_float : spec_float -> Z;
  uint_of_float : spec_float -> Z;
  string_of_rune : Z -> string;
  runes_of_string : string -> list Z;
  string_of_runes : list Z -> string;
  LoadLocation : string -> option data;
  UTC : data;
  ParseInLocation : string -> string -> data -> option data;
  Time_In : data -> data -> data;
  Time_Format : data -> string -> string;
  Stringer_String : type -> data -> string
}.

(** [time.DateTime]. *)
Definition time_DateTime : string := "2006-01-02 15:04:05".

(** [time.Location] and [time.Time]: structs of unexported fields. *)
Definition time_zone : type :=
  TNamed "time.zone" false
    (TStruct [("name", TString); ("offset", TInt W0); ("isDST", TBool)]).

Definition time_zoneTrans : type :=
  TNamed "time.zoneTrans" false
    (TStruct [("when", TInt W64); ("index", TUint W8);
              ("isstd", TBool); ("isutc", TBool)]).

Definition time_Location : type :=
  TNamed "time.Location" false
    (TStruct [("name", TString); ("zone", TSlice time_zone);
              ("tx", TSlice time_zoneTrans); ("extend", TString);
              ("cacheStart", TInt W64); ("cacheEnd", TInt W64);
              ("cacheZone", TPtr time_zone)]).

Definition time_Time : type :=
  TNamed "time.Time" true
    (TStruct [("wall", TUint W64); ("ext", TInt W64);
              ("loc", TPtr time_Location)]).

(** ** Outcomes *)

(** A call returns or panics. *)
Inductive result (A : Type) :=
| Ok (a : A)
| Panic (msg : string).
Arguments Ok {A} a.
Arguments Panic {A} msg.

Definition bind {A B} (r : result A) (k : A -> result B) : result B :=
  match r with
  | Ok a => k a
  | Panic m => Panic m
  end.

Notation "x <- c ;; k" := (bind c (fun x => k))
  (at level 61, c at next level, right associativity).

(** ** [reflect]: types *)

(** [haveIdenticalUnderlyingType]: without struct tags, identity of the
    underlying types. *)
Definition haveIdenticalUnderlyingType (T V : type) : bool :=
  type_eqb (underlying T) (underlying V).

(** [directlyAssignable(T, V)]: a value of type [V] can be stored in a [T]
    as it is. *)
Definition directlyAssignable (T V : type) : bool :=
  if type_eqb T V then true
  else if (HasName T && HasName V) || negb (kind_eqb (Kind_of T) (Kind_of V))
  then false
  else haveIdenticalUnderlyingType T V.

(** [implements(T, V)]: the only interface types are the empty ones. *)
Definition implements (T V : type) : bool :=
  kind_eqb (Kind_of T) Kind.Interface.

(** [V.AssignableTo(T)]. *)
Definition AssignableTo (V T : type) : bool :=
  directlyAssignable T V || implements T V.

Definition is_int_kind (k : kind) : bool :=
  match k with
  | Kind.Int | Kind.Int8 | Kind.Int16 | Kind.Int32 | Kind.Int64 => true
  | _ => false
  end.

Definition is_uint_kind (k : kind) : bool :=
  match k with
  | Kind.Uint | Kind.Uint8 | Kind.Uint16 | Kind.Uint32 | Kind.Uint64 => true
  | _ => false
  end.

Definition is_float_kind (k : kind) : bool :=
  match k with
  | Kind.Float32 | Kind.Float64 => true
  | _ => false
  end.

(** The conversions of [convertOp(dst, src)]. *)
Inductive conversion :=
| cvtInt | cvtIntFloat | cvtIntString
| cvtUint | cvtUintFloat | cvtUintString
| cvtFloatInt | cvtFloatUint | cvtFloat
| cvtStringBytes | cvtStringRunes | cvtBytesString | cvtRunesString
| cvtDirect | cvtT2I | cvtI2I.

Definition convertOp_tail (dst src : type) : option conversion :=
  if haveIdenticalUnderlyingType dst src then Some cvtDirect
  else if kind_eqb (Kind_of dst) Kind.Pointer && negb (HasName dst)
          && kind_eqb (Kind_of src) Kind.Pointer && negb (HasName src)
          && haveIdenticalUnderlyingType (Elem_of dst) (Elem_of src)
  then Some cvtDirect
  else if implements dst src
  then Some (if kind_eqb (Kind_of src) Kind.Interface then cvtI2I else cvtT2I)
  else None.

Definition convertOp (dst src : type) : option conversion :=
  let kd := Kind_of dst in
  let ks := Kind_of src in
  if is_int_kind ks then
    if is_int_kind kd || is_uint_kind kd then Some cvtInt
    else if is_float_kind kd then Some cvtIntFloat
    else if kind_eqb kd Kind.String then Some cvtIntString
    else convertOp_tail dst src
  else if is_uint_kind ks then
    if is_int_kind kd || is_uint_kind kd then Some cvtUint
    else if is_float_kind kd then Some cvtUintFloat
    else if kind_eqb kd Kind.String then Some cvtUintString
    else convertOp_tail dst src
  else if is_float_kind ks then
    if is_int_kind kd then Some cvtFloatInt
    else if is_uint_kind kd then Some cvtFloatUint
    else if is_float_kind kd then Some cvtFloat
    else convertOp_tail dst src
  else if kind_eqb ks Kind.String then
    if kind_eqb kd Kind.Slice && type_eqb (Elem_of dst) (TUint W8)
    then Some cvtStringBytes
    else if kind_eqb kd Kind.Slice && type_eqb (Elem_of dst) (TInt W32)
    then Some cvtStringRunes
    else convertOp_tail dst src
  else if kind_eqb ks Kind.Slice then
    if kind_eqb kd Kind.String && type_eqb (Elem_of src) (TUint W8)
    then Some cvtBytesString
    else if kind_eqb kd Kind.String && type_eqb (Elem_of src) (TInt W32)
    then Some cvtRunesString
    else convertOp_tail dst src
  else convertOp_tail dst src.

(** [V.ConvertibleTo(T)]. *)
Definition ConvertibleTo (V T : type) : bool :=
  match convertOp T V with
  | Some _ => true
  | None => false
  end.

(** [indirectType]: [for reflectType.Kind() == reflect.Pointer
    { reflectType = reflectType.Elem() }]. *)
Fixpoint indirectType (reflectType : type) : type :=
  match reflectType with
  | TPtr e => indirectType e
  | TNamed _ _ u =>
      match Kind_of u with
      | Kind.Pointer => indirectType u
      | _ => reflectType
      end
  | _ => reflectType
  end.

(** The size in bits of an integer kind. *)
Definition bits_of (k : kind) : Z :=
  match k with
  | Kind.Int8 | Kind.Uint8 => 8
  | Kind.Int16 | Kind.Uint16 => 16
  | Kind.Int32 | Kind.Uint32 => 32
  | Kind.Int64 | Kind.Uint64 => 64
  | _ => strconv.IntSize
  end.

(** A 64-bit pattern stored in [w] bits and read back as a signed, or as an
    unsigned, integer. *)
Definition wrap_signed (w z : Z) : Z :=
  (z + 2 ^ (w - 1)) mod 2 ^ w - 2 ^ (w - 1).

Definition wrap_unsigned (w z : Z) : Z := z mod 2 ^ w.

(** [makeInt]: the content of an integer of type [t] holding [z]. *)
Definition makeInt (z : Z) (t : type) : data :=
  if is_int_kind (Kind_of t) then DInt (wrap_signed (bits_of (Kind_of t)) z)
  else DUint (wrap_unsigned (bits_of (Kind_of t)) z).

(** [token.IsExported] on ASCII names. *)
Definition IsExported (name : string) : bool :=
  match name with
  | String c _ => (strconv.code "A" <=? strconv.code c)
                  && (strconv.code c <=? strconv.code "Z")
  | EmptyString => false
  end.

(** [Type.FieldByName]: the first field of that name and its index. *)
Fixpoint lookup_field (name : string) (fs : list (string * type)) (i : nat)
  : option (nat * type) :=
  match fs with
  | [] => None
  | (n, t) :: r =>
      if String.eqb n name then Some (i, t) else lookup_field name r (S i)
  end.

Definition Type_FieldByName (t : type) (name : string) : option (nat * type) :=
  if String.eqb name "" then None else lookup_field name (fields_of t) 0.

(** [Type.String], for [Value.String] on a value that is not a string. *)
Fixpoint Type_String (t : type) : string :=
  match t with
  | TBool => "bool"
  | TInt W0 => "int" | TInt W8 => "int8" | TInt W16 => "int16"
  | TInt W32 => "int32" | TInt W64 => "int64"
  | TUint W0 => "uint" | TUint W8 => "uint8" | TUint W16 => "uint16"
  | TUint W32 => "uint32" | TUint W64 => "uint64"
  | TFloat32 => "float32" | TFloat64 => "float64"
  | TString => "string"
  | TInterface => "interface {}"
  | TPtr e => "*" ++ Type_String e
  | TSlice e => "[]" ++ Type_String e
  | TMap k e => "map[" ++ Type_String k ++ "]" ++ Type_String e
  | TStruct [] => "struct {}"
  | TStruct fs =>
      "struct {"
      ++ (fix go (l : list (string * type)) : string :=
            match l with
            | [] => " }"
            | [(n, ft)] => " " ++ n ++ " " ++ Type_String ft ++ " }"
            | (n, ft) :: r => " " ++ n ++ " " ++ Type_String ft ++ ";" ++ go r
            end) fs
  | TNamed n _ _ => n
  end.

(** ** [reflect]: values *)

(** A valid [reflect.Value]: a type, a content and the two flag bits that
    decide what may be done with it. *)
Record rvalue := mkValue {
  typ : type;
  dat : data;
  flagAddr : bool;
  flagRO : bool
}.

(** A [reflect.Value]; [None] is the zero Value. *)
Definition Value : Type := option rvalue.

(** An [any]: nil, or a dynamic type and its value. *)
Definition any : Type := option (type * data).

Definition ValueOf (i : any) : Value :=
  match i with
  | None => None
  | Some (t, d) => Some (mkValue t d false false)
  end.

Definition IsValid (v : Value) : bool :=
  match v with
  | Some _ => true
  | None => false
  end.

(** [Value.Kind]: [Invalid] on the zero Value. *)
Definition Kind (v : Value) : kind :=
  match v with
  | Some r => Kind_of (typ r)
  | None => Kind.Invalid
  end.

(** [Value.Type] panics on the zero Value. *)
Definition Type_ (v : Value) : result type :=
  match v with
  | Some r => Ok (typ r)
  | None => Panic "reflect: call of reflect.Value.Type on zero Value"
  end.

Definition CanSet (r : rvalue) : bool := flagAddr r && negb (flagRO r).

Definition CanInterface (r : rvalue) : bool := negb (flagRO r).

Definition IsNil (r : rvalue) : bool :=
  match dat r with
  | DPtr None | DMap None | DIface None => true
  | _ => false
  end.

Definition Bool_ (r : rvalue) : bool :=
  match dat r with DBool b => b | _ => false end.

Definition Int_ (r : rvalue) : Z :=
  match dat r with DInt z => z | _ => 0 end.

Definition Uint_ (r : rvalue) : Z :=
  match dat r with DUint z => z | _ => 0 end.

Definition Float_ (r : rvalue) : spec_float :=
  match dat r with DFloat f => f | _ => S754_zero false end.

(** [Value.String]: the string itself, or ["<T Value>"]. *)
Definition String_ (r : rvalue) : string :=
  match Kind_of (typ r), dat r with
  | Kind.String, DString s => s
  | _, _ => "<" ++ Type_String (typ r) ++ " Value>"
  end.

(** [Value.Len] and [Value.Index] of a slice. *)
Definition elements (r : rvalue) : list data :=
  match dat r with DSlice l => l | _ => [] end.

Definition Index (r : rvalue) (d : data) : rvalue :=
  mkValue (Elem_of (typ r)) d true (flagRO r).

(** The entries [Value.MapRange] goes through. *)
Definition entries (r : rvalue) : list (data * data) :=
  match dat r with DMap (Some m) => m | _ => [] end.

Definition MapKey (r : rvalue) (k : data) : rvalue :=
  mkValue (Key_of (typ r)) k false (flagRO r).

Definition MapValue (r : rvalue) (v : data) : rvalue :=
  mkValue (Elem_of (typ r)) v false (flagRO r).

(** [Value.FieldByName]: the field keeps the struct's flags and is
    read-only when its name is not exported; the zero Value when there is
    no such field. *)
Definition FieldByName (r : rvalue) (name : string) : Value :=
  match Type_FieldByName (typ r) name, dat r with
  | Some (i, ft), DStruct fs =>
      Some (mkValue ft (nth i fs (zero ft)) (flagAddr r)
                    (flagRO r || negb (IsExported name)))
  | _, _ => None
  end.

(** The struct with its field [i] replaced. *)
Fixpoint replace_nth (i : nat) (d : data) (l : list data) : list data :=
  match l, i with
  | [], _ => []
  | _ :: r, O => d :: r
  | x :: r, S i' => x :: replace_nth i' d r
  end.

Definition set_field (r : rvalue) (i : nat) (d : data) : rvalue :=
  match dat r with
  | DStruct fs => mkValue (typ r) (DStruct (replace_nth i d fs))
                          (flagAddr r) (flagRO r)
  | _ => r
  end.

(** [reflect.New(t).Elem()]: a fresh settable slot holding the zero value;
    [reflect.New(t)]: the pointer to it. *)
Definition New_Elem (t : type) : rvalue := mkValue t (zero t) true false.

Definition New (t : type) : rvalue :=
  mkValue (TPtr t) (DPtr (Some (zero t))) false false.

Definition MakeMap (t : type) : rvalue :=
  mkValue t (DMap (Some [])) false false.

(** [indirectValue]: [for reflectValue.Kind() == reflect.Pointer
    { reflectValue = reflectValue.Elem() }].  [Elem] of a nil pointer is the
    zero Value, of another pointer an addressable value that keeps the
    read-only bit. *)
Fixpoint indirect (t : type) (d : data) (addr ro : bool) {struct d} : Value :=
  match Kind_of t with
  | Kind.Pointer =>
      match d with
      | DPtr (Some d') => indirect (Elem_of t) d' true ro
      | _ => None
      end
  | _ => Some (mkValue t d addr ro)
  end.

Definition indirectValue (reflectValue : Value) : Value :=
  match reflectValue with
  | Some r => indirect (typ r) (dat r) (flagAddr r) (flagRO r)
  | None => None
  end.

(** The content of a handle after [new] was stored in what
    [indirectValue] reaches from it. *)
Fixpoint store (t : type) (d : data) (new : data) {struct d} : data :=
  match Kind_of t with
  | Kind.Pointer =>
      match d with
      | DPtr (Some d') => DPtr (Some (store (Elem_of t) d' new))
      | _ => d
      end
  | _ => new
  end.

Definition stored (r : rvalue) (new : data) : rvalue :=
  mkValue (typ r) (store (typ r) (dat r) new) (flagAddr r) (flagRO r).

(** [Value.assignTo]: the content an [x] has once stored in a [dst]. *)
Definition assignTo (context : string) (x : rvalue) (dst : type) : result data :=
  if directlyAssignable dst (typ x) then Ok (dat x)
  else if implements dst (typ x) then
    if kind_eqb (Kind_of (typ x)) Kind.Interface then Ok (dat x)
    else Ok (DIface (Some (typ x, dat x)))
  else Panic (context ++ ": value of type " ++ Type_String (typ x)
              ++ " is not assignable to type " ++ Type_String dst).

(** [v.Set(x)]: [v] after the assignment.  [v] must be settable and [x]
    must not come from an unexported field. *)
Definition Set_ (v x : rvalue) : result rvalue :=
  if flagRO v
  then Panic "reflect: reflect.Value.Set using value obtained using unexported field"
  else if negb (flagAddr v)
  then Panic "reflect: reflect.Value.Set using unaddressable value"
  else if flagRO x
  then Panic "reflect: reflect.Value.Set using value obtained using unexported field"
  else d <- assignTo "reflect.Set" x (typ v) ;;
       Ok (mkValue (typ v) d (flagAddr v) (flagRO v)).

(** [reflect.Append(s, x)]: a slice Value that is neither addressable nor
    read-only. *)
Definition Append (s x : rvalue) : result rvalue :=
  if flagRO s
  then Panic "reflect: unknown method using value obtained using unexported field"
  else if flagRO x
  then Panic "reflect: reflect.Value.Set using value obtained using unexported field"
  else d <- assignTo "reflect.Set" x (Elem_of (typ s)) ;;
       Ok (mkValue (typ s) (DSlice (elements s ++ [d])) false false).

(** [==] on map keys.  A NaN differs from itself and the two zeros are
    equal; pointers, which the tree model gives no address, are compared by
    what they point to; slices and maps are not comparable. *)
Fixpoint key_eqb (a b : data) {struct a} : bool :=
  match a, b with
  | DBool x, DBool y => Bool.eqb x y
  | DInt x, DInt y | DUint x, DUint y => x =? y
  | DFloat x, DFloat y => SFeqb x y
  | DString x, DString y => String.eqb x y
  | DIface None, DIface None => true
  | DIface (Some (t, x)), DIface (Some (t', y)) => type_eqb t t' && key_eqb x y
  | DPtr None, DPtr None => true
  | DPtr (Some x), DPtr (Some y) => key_eqb x y
  | DStruct xs, DStruct ys =>
      (fix all_eqb (l l' : list data) : bool :=
         match l, l' with
         | [], [] => true
         | x :: r, y :: r' => key_eqb x y && all_eqb r r'
         | _, _ => false
         end) xs ys
  | _, _ => false
  end.

(** [m[k] = v]: the entry of an equal key is replaced, key included. *)
Fixpoint map_insert (k v : data) (m : list (data * data)) : list (data * data) :=
  match m with
  | [] => [(k, v)]
  | (k', v') :: r =>
      if key_eqb k' k then (k, v) :: r else (k', v') :: map_insert k v r
  end.

(** Whether [==] is defined on the values of a type ([rtype.Equal] is not
    nil): not on slices, on maps, and on the structs that hold one. *)
Fixpoint comparable (t : type) : bool :=
  match t with
  | TSlice _ | TMap _ _ => false
  | TStruct fs => forallb (fun f : string * type => comparable (snd f)) fs
  | TNamed _ _ u => comparable u
  | _ => true
  end.

(** The hashing of a map key of type [t] (the runtime's [typehash]): the
    type it refuses, if any.  An interface is hashed through its dynamic
    type, which must have [==]; a struct field by field, blank fields
    left out; a pointer as an address. *)
Fixpoint unhashable (t : type) (d : data) {struct d} : option type :=
  match Kind_of t with
  | Kind.Interface =>
      match d with
      | DIface (Some (t', d')) =>
          if comparable t' then unhashable t' d' else Some t'
      | _ => None
      end
  | Kind.Struct =>
      match d with
      | DStruct ds =>
          (fix fields (fs : list (string * type)) (l : list data)
             {struct l} : option type :=
             match fs, l with
             | (n, ft) :: fs', x :: l' =>
                 if String.eqb n "_" then fields fs' l'
                 else match unhashable ft x with
                      | Some u => Some u
                      | None => fields fs' l'
                      end
             | _, _ => None
             end) (fields_of t) ds
      | _ => None
      end
  | Kind.Slice | Kind.Map => Some t
  | _ => None
  end.

Arguments unhashable : simpl never.

(** [v.SetMapIndex(key, elem)]: [v] after the assignment.  The runtime's
    [mapassign] refuses a nil map, then hashes the key. *)
Definition SetMapIndex (v key elem : rvalue) : result rvalue :=
  if flagRO v || flagRO key
  then Panic "reflect: reflect.Value.SetMapIndex using value obtained using unexported field"
  else k <- assignTo "reflect.Value.SetMapIndex" key (Key_of (typ v)) ;;
       if flagRO elem
       then Panic "reflect: reflect.Value.SetMapIndex using value obtained using unexported field"
       else e <- assignTo "reflect.Value.SetMapIndex" elem (Elem_of (typ v)) ;;
            match dat v with
            | DMap (Some m) =>
                match unhashable (Key_of (typ v)) k with
                | Some u =>
                    Panic ("runtime error: hash of unhashable type "
                           ++ Type_String u)
                | None =>
                    Ok (mkValue (typ v) (DMap (Some (map_insert k e m)))
                                (flagAddr v) (flagRO v))
                end
            | _ => Panic "assignment to entry in nil map"
            end.

Definition byte_data (c : ascii) : data := DUint (strconv.code c).

Definition data_byte (d : data) : ascii :=
  match d with
  | DUint z => ascii_of_N (Z.to_N z)
  | _ => Ascii.zero
  end.

Definition data_rune (d : data) : Z :=
  match d with DInt z => z | _ => 0 end.

Section Runtime.

Variable rt : runtime.

(** [makeFloat]: a float32 holds the rounded value. *)
Definition makeFloat (f : spec_float) (t : type) : data :=
  match Kind_of t with
  | Kind.Float32 => DFloat (float32_of rt f)
  | _ => DFloat f
  end.

(** [v.Convert(t)]: panics when there is no conversion; the result is not
    addressable and keeps the read-only bit. *)
Definition Convert (v : rvalue) (t : type) : result rvalue :=
  match convertOp t (typ v) with
  | None =>
      Panic ("reflect.Value.Convert: value of type " ++ Type_String (typ v)
             ++ " cannot be converted to type " ++ Type_String t)
  | Some op =>
      let d :=
        match op with
        | cvtInt => makeInt (Int_ v) t
        | cvtUint => makeInt (Uint_ v) t
        | cvtIntFloat => makeFloat (float_of_int rt (Int_ v)) t
        | cvtUintFloat => makeFloat (float_of_int rt (Uint_ v)) t
        | cvtFloatInt => makeInt (int_of_float rt (Float_ v)) t
        | cvtFloatUint => makeInt (uint_of_float rt (Float_ v)) t
        | cvtFloat =>
            match Kind_of (typ v), Kind_of t with
            | Kind.Float32, Kind.Float32 => DFloat (Float_ v)
            | _, _ => makeFloat (Float_ v) t
            end
        | cvtIntString => DString (string_of_rune rt (Int_ v))
        | cvtUintString => DString (string_of_rune rt (Uint_ v))
        | cvtStringBytes =>
            DSlice (map byte_data (list_ascii_of_string (String_ v)))
        | cvtStringRunes =>
            DSlice (map DInt (runes_of_string rt (String_ v)))
        | cvtBytesString =>
            DString (string_of_list_ascii (map data_byte (elements v)))
        | cvtRunesString =>
            DString (string_of_runes rt (map data_rune (elements v)))
        | cvtDirect | cvtI2I => dat v
        | cvtT2I => DIface (Some (typ v, dat v))
        end in
      Ok (mkValue t d false (flagRO v))
  end.

(** [v.CanConvert(t)]: there are no array types, so it is
    [v.Type().ConvertibleTo(t)]. *)
Definition CanConvert (v : rvalue) (t : type) : bool :=
  ConvertibleTo (typ v) t.

End Runtime.

(** ** The package [copy] *)

(** The package variables [DateTimeLayout] and [TimeZone]: read at every
    temporal conversion, so the conversion takes their current values. *)
Record globals := {
  DateTimeLayout : string;
  TimeZone : string
}.

(** Their initial values. *)
Definition initial_globals : globals :=
  {| DateTimeLayout := time_DateTime; TimeZone := "Asia/Shanghai" |}.

(** [type Service interface { CopyValue(reflect.Value, reflect.Value) bool }].
    The call returns the reported boolean together with the destination
    handle as the caller sees it afterwards, or panics (before any write). *)
Class Service := {
  CopyValue : Value -> Value -> result (bool * Value)
}.

(** Whether the value method set of a type has [String() string]. *)
Definition is_Stringer (t : type) : bool :=
  match t with
  | TNamed _ s _ => s
  | _ => false
  end.

Section Package.

Variable rt : runtime.
Variable g : globals.

(** [getTimeZone]. *)
Definition getTimeZone : data :=
  match LoadLocation rt (TimeZone g) with
  | Some v => v
  | None => UTC rt
  end.

(** [reflect.ValueOf(x)] of a Go value of static type [t]. *)
Definition value_of (t : type) (d : data) : rvalue := mkValue t d false false.

(** [toValue.Set(x); return true], for an [x] that may itself have
    panicked: the handle the caller passed is returned with what [toValue]
    now holds. *)
Definition set_and_report (handle toValue : rvalue) (x : result rvalue)
  : result (bool * Value) :=
  x <- x ;;
  v <- Set_ toValue x ;;
  Ok (true, Some (stored handle (dat v))).

(** [DefaultService.CopyValue]: the boolean it returns and the handle
    [toValue0] as the caller sees it afterwards, or a panic.  Each path
    writes at most once, last, so a panic leaves the destination as it
    was.  The accessors ([Bool_], [Int_], ...) are called on the kind they
    need: after [indirectValue] the type of a value is not a pointer and
    [indirectType] gives it back. *)
Definition DefaultService_CopyValue (fromValue0 toValue0 : Value)
  : result (bool * Value) :=
  match indirectValue fromValue0 with
  | None => Ok (false, toValue0)
  | Some fromValue =>
  match indirectValue toValue0, toValue0 with
  | None, _ | _, None => Ok (false, toValue0)
  | Some toValue, Some handle =>
      let fromType := indirectType (typ fromValue) in
      let toType := indirectType (typ toValue) in
      let set_and_report := set_and_report handle toValue in
      let to_string (s : string) : result (bool * Value) :=
        set_and_report (Convert rt (value_of TString (DString s)) toType) in
      if AssignableTo fromType toType then set_and_report (Ok fromValue)
      else if kind_eqb (Kind_of toType) Kind.String then
        match Kind_of fromType with
        | Kind.Bool => to_string (strconv.FormatBool (Bool_ fromValue))
        | Kind.Int | Kind.Int8 | Kind.Int16 | Kind.Int32 | Kind.Int64 =>
            to_string (strconv.FormatInt (Int_ fromValue))
        | Kind.Uint | Kind.Uint8 | Kind.Uint16 | Kind.Uint32 | Kind.Uint64 =>
            to_string (strconv.FormatUint (Uint_ fromValue))
        | Kind.Float32 =>
            to_string (FormatFloat rt (Float_ fromValue) "f" (-1) 32)
        | Kind.Float64 =>
            to_string (FormatFloat rt (Float_ fromValue) "f" (-1) 64)
        | Kind.Struct =>
            if CanInterface fromValue then
              if type_eqb (typ fromValue) time_Time then
                to_string (Time_Format rt
                             (Time_In rt (dat fromValue) getTimeZone)
                             (DateTimeLayout g))
              else if is_Stringer (typ fromValue) then
                to_string (Stringer_String rt (typ fromValue) (dat fromValue))
              else Ok (false, toValue0)
            else Ok (false, toValue0)
        | _ => Ok (false, toValue0)
        end
      else if kind_eqb (Kind_of fromType) Kind.String then
        match Kind_of toType with
        | Kind.Bool =>
            match strconv.ParseBool (String_ fromValue) with
            | Some v => set_and_report (Convert rt (value_of TBool (DBool v)) toType)
            | None => Ok (false, toValue0)
            end
        | Kind.Int | Kind.Int8 | Kind.Int16 | Kind.Int32 | Kind.Int64 =>
            match strconv.ParseInt (String_ fromValue) 0 with
            | Some v =>
                set_and_report (Convert rt (value_of (TInt W64) (DInt v)) toType)
            | None => Ok (false, toValue0)
            end
        | Kind.Uint | Kind.Uint8 | Kind.Uint16 | Kind.Uint32 | Kind.Uint64 =>
            match strconv.ParseUint (String_ fromValue) 0 with
            | Some v =>
                set_and_report (Convert rt (value_of (TUint W64) (DUint v)) toType)
            | None => Ok (false, toValue0)
            end
        | Kind.Float32 | Kind.Float64 =>
            match ParseFloat rt (String_ fromValue) 64 with
            | Some v =>
                set_and_report (Convert rt (value_of TFloat64 (DFloat v)) toType)
            | None => Ok (false, toValue0)
            end
        | Kind.Struct =>
            let v := New_Elem toType in
            if CanInterface v then
              if type_eqb (typ v) time_Time then
                match ParseInLocation rt (DateTimeLayout g)
                        (String_ fromValue) getTimeZone with
                | Some t =>
                    set_and_report (Convert rt (value_of time_Time t) toType)
                | None => Ok (true, toValue0)
                end
              else Ok (false, toValue0)
            else Ok (false, toValue0)
        | _ => Ok (false, toValue0)
        end
      else if CanConvert fromValue toType
      then set_and_report (Convert rt fromValue toType)
      else Ok (false, toValue0)
  end
  end.

(** [type DefaultService struct{}] and [var CopyService Service =
    DefaultService{}]. *)
#[export] Instance DefaultService : Service :=
  {| CopyValue := DefaultService_CopyValue |}.

Definition CopyService : Service := DefaultService.

End Package.

(** ** The structural driver *)

(** How a call ends. *)
Inductive outcome :=
| Returned
| Panicked (msg : string).

(** A [for] loop over [l] whose body updates the destination and may panic:
    the destination as it is when the loop ends, and how it ended. *)
Fixpoint for_each {A : Type} (body : A -> rvalue -> rvalue * outcome)
  (l : list A) (toValue : rvalue) : rvalue * outcome :=
  match l with
  | [] => (toValue, Returned)
  | x :: r =>
      match body x toValue with
      | (toValue', Returned) => for_each body r toValue'
      | (toValue', Panicked m) => (toValue', Panicked m)
      end
  end.

(** The destination after a step that returns it or panics. *)
Definition step (toValue : rvalue) (r : result rvalue) : rvalue * outcome :=
  match r with
  | Ok toValue' => (toValue', Returned)
  | Panic m => (toValue, Panicked m)
  end.

(** The slot [v] after a call of [CopyValue] on it. *)
Definition after (v : rvalue) (v' : Value) : rvalue :=
  match v' with
  | Some r => r
  | None => v
  end.

Section Driver.

Context {CopyService : Service}.

(** The body of the slice-to-slice loop. *)
Definition copy_element (fromValue : rvalue) (toType : type) (x : data)
  (toValue : rvalue) : rvalue * outcome :=
  let v := New_Elem (Elem_of toType) in
  match CopyValue (Some (Index fromValue x)) (Some v) with
  | Panic m => (toValue, Panicked m)
  | Ok (true, v') =>
      step toValue (s <- Append toValue (after v v') ;; Set_ toValue s)
  | Ok (false, _) => (toValue, Returned)
  end.

(** The part the struct-to-struct and map-to-struct loops share: the
    destination field [name], when it exists and can be set, is allocated if
    it is a nil pointer and then converted into. *)
Definition copy_into_field (name : string) (fromFieldValue : Value)
  (toType : type) (toValue : rvalue) : rvalue * outcome :=
  match Type_FieldByName toType name with
  | None => (toValue, Returned)
  | Some (i, toFieldType) =>
      match FieldByName toValue name with
      | None => (toValue, Returned)
      | Some toFieldValue =>
          if negb (CanSet toFieldValue) then (toValue, Returned)
          else
            let allocated :=
              if kind_eqb (Kind_of toFieldType) Kind.Pointer
                 && IsNil toFieldValue
              then Set_ toFieldValue (New (indirectType toFieldType))
              else Ok toFieldValue in
            match allocated with
            | Panic m => (toValue, Panicked m)
            | Ok toFieldValue =>
                let toValue := set_field toValue i (dat toFieldValue) in
                match CopyValue fromFieldValue (Some toFieldValue) with
                | Panic m => (toValue, Panicked m)
                | Ok (_, v') =>
                    (set_field toValue i (dat (after toFieldValue v')),
                     Returned)
                end
            end
      end
  end.

(** The part the map-to-map and struct-to-map loops share: key and value are
    converted into fresh slots and the pair is stored when both calls
    report true. *)
Definition copy_entry (fromKey fromElem : Value) (toType : type)
  (toValue : rvalue) : rvalue * outcome :=
  let k := New_Elem (Key_of toType) in
  match CopyValue fromKey (Some k) with
  | Panic m => (toValue, Panicked m)
  | Ok (false, _) => (toValue, Returned)
  | Ok (true, k') =>
      let v := New_Elem (Elem_of toType) in
      match CopyValue fromElem (Some v) with
      | Panic m => (toValue, Panicked m)
      | Ok (false, _) => (toValue, Returned)
      | Ok (true, v') =>
          step toValue (SetMapIndex toValue (after k k') (after v v'))
      end
  end.

(** [if toValue.IsNil() { toValue.Set(reflect.MakeMap(toType)) }]. *)
Definition make_if_nil (toType : type) (toValue : rvalue) : rvalue * outcome :=
  if IsNil toValue then step toValue (Set_ toValue (MakeMap toType))
  else (toValue, Returned).

(** The dispatch of [Copy] on the two unwrapped values.  The source is
    another value than the destination, so the writes to the destination
    leave it as it is: the length the slice loop reads each round is the
    one it read first, and the loops go through the source as it was. *)
Definition copy_shapes (fromValue toValue : rvalue) : rvalue * outcome :=
  let fromType := indirectType (typ fromValue) in
  let toType := indirectType (typ toValue) in
  let fk := Kind_of fromType in
  let tk := Kind_of toType in
  if kind_eqb fk Kind.Slice && kind_eqb tk Kind.Slice then
    (* slice to slice *)
    for_each (copy_element fromValue toType) (elements fromValue) toValue
  else if kind_eqb fk Kind.Struct && kind_eqb tk Kind.Struct then
    (* struct to struct *)
    for_each
      (fun fromField : string * type =>
         copy_into_field (fst fromField)
           (FieldByName fromValue (fst fromField)) toType)
      (fields_of fromType) toValue
  else if kind_eqb fk Kind.Map && kind_eqb tk Kind.Map then
    (* map to map *)
    match make_if_nil toType toValue with
    | (toValue, Panicked m) => (toValue, Panicked m)
    | (toValue, Returned) =>
        for_each
          (fun kv : data * data =>
             copy_entry (Some (MapKey fromValue (fst kv)))
                        (Some (MapValue fromValue (snd kv))) toType)
          (entries fromValue) toValue
    end
  else if kind_eqb fk Kind.Map && kind_eqb tk Kind.Struct then
    (* map to struct *)
    for_each
      (fun kv : data * data =>
         copy_into_field (String_ (MapKey fromValue (fst kv)))
           (Some (MapValue fromValue (snd kv))) toType)
      (entries fromValue) toValue
  else if kind_eqb fk Kind.Struct && kind_eqb tk Kind.Map then
    (* struct to map *)
    match make_if_nil toType toValue with
    | (toValue, Panicked m) => (toValue, Panicked m)
    | (toValue, Returned) =>
        for_each
          (fun fromField : string * type =>
             copy_entry (Some (value_of TString (DString (fst fromField))))
                        (FieldByName fromValue (fst fromField)) toType)
          (fields_of fromType) toValue
    end
  else
    (* value to value *)
    match CopyValue (Some fromValue) (Some toValue) with
    | Panic m => (toValue, Panicked m)
    | Ok (_, v') => (after toValue v', Returned)
    end.

(** The argument [to] once [d] was written where it points. *)
Definition written_back (to : any) (d : data) : any :=
  match to with
  | Some (t, d0) => Some (t, store t d0 d)
  | None => None
  end.

(** [Copy(from, to)]: the argument [to] as it is after the call (the
    pointer with what it points to) and how the call ended.  [Type_]
    returns exactly on a valid Value, so the last case of the inner match
    does not occur. *)
Definition Copy (from to : any) : any * outcome :=
  let fromValue := ValueOf from in
  let toValue := ValueOf to in
  if negb (IsValid fromValue) then (to, Returned)
  else
    match Type_ toValue with
    | Panic m => (to, Panicked m)
    | Ok toT =>
        if negb (kind_eqb (Kind_of toT) Kind.Pointer) then (to, Returned)
        else
          let fromValue := indirectValue fromValue in
          let toValue := indirectValue toValue in
          match Type_ fromValue, Type_ toValue, fromValue, toValue with
          | Ok _, Ok _, Some fromValue, Some toValue =>
              let (toValue', o) := copy_shapes fromValue toValue in
              (written_back to (dat toValue'), o)
          | Panic m, _, _, _ | _, Panic m, _, _ => (to, Panicked m)
          | _, _, _, _ => (to, Returned)
          end
    end.

End Driver.

(** ** Running the model *)

(** A runtime whose float, rune, time and [String] routines are trivial: it
    serves to run the conversion on inputs that reach none of them. *)
Definition bare_runtime : runtime :=
  {| FormatFloat := fun _ _ _ _ => "";
     ParseFloat := fun _ _ => None;
     float32_of := fun f => f;
     float_of_int := fun _ => S754_zero false;
     int_of_float := fun _ => 0;
     uint_of_float := fun _ => 0;
     string_of_rune := fun _ => "";
     runes_of_string := fun _ => [];
     string_of_runes := fun _ => "";
     LoadLocation := fun _ => None;
     UTC := DPtr None;
     ParseInLocation := fun _ _ _ => None;
     Time_In := fun t _ => t;
     Time_Format := fun _ _ => "";
     Stringer_String := fun _ _ => "" |}.

(** [Copy] with the default service and the initial package variables. *)
Definition Copy0 (from to : any) : any * outcome :=
  @Copy (CopyService bare_runtime initial_globals) from to.

(** [&x] for an [x] of type [t]. *)
Definition pointer_to (t : type) (x : data) : any :=
  Some (TPtr t, DPtr (Some x)).

(** ** The slice loop on a shared variable *)

(** The slice-to-slice loop when source and destination are one variable
    (the same pointer passed as [from] and as [to]): the state is that one
    slice, and each round reads its length and its element [i] anew.
    [None]: the loop is still going when the fuel runs out. *)
Fixpoint shared_slice_loop (svc : Service) (fuel : nat) (toType : type)
  (i : nat) (s : rvalue) : option (rvalue * outcome) :=
  match fuel with
  | O => None
  | S fuel' =>
      match nth_error (elements s) i with
      | None => Some (s, Returned)
      | Some x =>
          match @copy_element svc s toType x s with
          | (s', Returned) => shared_slice_loop svc fuel' toType (S i) s'
          | (s', Panicked m) => Some (s', Panicked m)
          end
      end
  end.

(** ** A runtime with IEEE 754 float routines *)

Module IEEE.

(** The float of precision [prec] nearest to [n / 10^k], ties to even. *)
Definition of_decimal (prec emax : Z) (n : positive) (k : nat) : spec_float :=
  SFdiv prec emax (S754_finite false n 0)
    (S754_finite false (Z.to_pos (10 ^ Z.of_nat k)) 0).

(** The digits of a plain decimal text (digits with at most one point, as
    format ['f'] writes them): the number without its point, and how many
    digits follow the point. *)
Fixpoint digits (s : string) (n : Z) (k : nat) (point : bool)
  : option (Z * nat) :=
  match s with
  | EmptyString => Some (n, k)
  | String c r =>
      if Ascii.eqb c "."
      then if point then None else digits r n k true
      else if (strconv.code "0" <=? strconv.code c)
              && (strconv.code c <=? strconv.code "9")
      then digits r (10 * n + (strconv.code c - strconv.code "0"))
                  (if point then S k else k) point
      else None
  end.

(** [strconv.ParseFloat(s, 64)] on plain decimal texts: the nearest
    float64.  (Signs, exponents and the special values are left out: format
    ['f'] of a positive float writes none.) *)
Definition parse (s : string) (bitSize : Z) : option spec_float :=
  match s with
  | EmptyString => None
  | _ =>
      match digits s 0 0 false with
      | Some (Z.pos n, k) => Some (of_decimal 53 1024 n k)
      | Some (Z0, _) => Some (S754_zero false)
      | _ => None
      end
  end.

(** The conversion [float32(f)] of a float64: rounding to 24 bits. *)
Definition narrow (f : spec_float) : spec_float :=
  match f with
  | S754_finite s m e => binary_normalize 24 128 (Z.pos m) e s
  | _ => f
  end.

(** The float32 of bit pattern [0x15ae43fd], [11420669 * 2^-107], and the
    text [strconv.FormatFloat] writes for it in format ['f'] with precision
    -1 and bit size 32: [7038531e-32], the shortest decimal that reads back
    as this float32. *)
Definition x : spec_float := S754_finite false 11420669 (-107).

Definition text : string := "0.00000000000000000000000007038531".

(** [strconv.FormatFloat], on [x] only: nothing else is formatted here. *)
Definition format (f : spec_float) (fmt : ascii) (prec bitSize : Z)
  : string :=
  match f with
  | S754_finite false 11420669 (-107) =>
      if Ascii.eqb fmt "f" && (prec =? -1) && (bitSize =? 32) then text
      else ""
  | _ => ""
  end.

(** The float routines above; the rest as in [bare_runtime]. *)
Definition runtime : runtime :=
  {| FormatFloat := format;
     ParseFloat := parse;
     float32_of := narrow;
     float_of_int := fun z => binary_normalize 53 1024 z 0 false;
     int_of_float := fun _ => 0;
     uint_of_float := fun _ => 0;
     string_of_rune := fun _ => "";
     runes_of_string := fun _ => [];
     string_of_runes := fun _ => "";
     LoadLocation := fun _ => None;
     UTC := DPtr None;
     ParseInLocation := fun _ _ _ => None;
     Time_In := fun t _ => t;
     Time_Format := fun _ _ => "";
     Stringer_String := fun _ _ => "" |}.

End IEEE.

(** ** The vocabulary of the statements *)

(** The kinds [CopyValue] has a formatting rule for. *)
Definition is_scalar_kind (k : kind) : bool :=
  kind_eqb k Kind.Bool || is_int_kind k || is_uint_kind k || is_float_kind k.

(** What a scalar is formatted as. *)
Definition format_scalar (rt : runtime) (v : rvalue) : string :=
  let k := Kind_of (typ v) in
  if kind_eqb k Kind.Bool then strconv.FormatBool (Bool_ v)
  else if is_int_kind k then strconv.FormatInt (Int_ v)
  else if is_uint_kind k then strconv.FormatUint (Uint_ v)
  else if kind_eqb k Kind.Float32 then FormatFloat rt (Float_ v) "f" (-1) 32
  else FormatFloat rt (Float_ v) "f" (-1) 64.

(** A content a scalar type can hold: integers lie in the range of the
    type. *)
Definition scalar_value (t : type) (d : data) : Prop :=
  let k := Kind_of t in
  match d with
  | DBool _ => k = Kind.Bool
  | DInt z =>
      is_int_kind k = true
      /\ - 2 ^ (bits_of k - 1) <= z < 2 ^ (bits_of k - 1)
  | DUint z => is_uint_kind k = true /\ 0 <= z < 2 ^ bits_of k
  | DFloat _ => is_float_kind k = true
  | _ => False
  end.

(** The elements a slice-to-slice copy appends: of each source element in
    turn, what [CopyValue] left in a fresh slot of the destination's element
    type, when it reported true. *)
Fixpoint converted (svc : Service) (fromValue : rvalue) (toType : type)
  (l : list data) : list data :=
  match l with
  | [] => []
  | x :: r =>
      match @CopyValue svc (Some (Index fromValue x))
              (Some (New_Elem (Elem_of toType))) with
      | Ok (true, Some v') => dat v' :: converted svc fromValue toType r
      | _ => converted svc fromValue toType r
      end
  end.

(** The key/value pairs a copy into a map offers to [CopyValue]: the
    entries of a source map, or of a source struct each field's name and
    value. *)
Definition source_pairs (fromValue : rvalue) : list (Value * Value) :=
  match Kind_of (typ fromValue) with
  | Kind.Map =>
      map (fun kv : data * data =>
             (Some (MapKey fromValue (fst kv)),
              Some (MapValue fromValue (snd kv))))
          (entries fromValue)
  | Kind.Struct =>
      map (fun fromField : string * type =>
             (Some (value_of TString (DString (fst fromField))),
              FieldByName fromValue (fst fromField)))
          (fields_of (typ fromValue))
  | _ => []
  end.

(** [(k, v)] is what [CopyValue] made of the pair: both calls, on fresh
    slots of the destination's key and element types, reported true and
    left [k] and [v] in the slots. *)
Definition both_converted (svc : Service) (toType : type)
  (pair : Value * Value) (k v : data) : Prop :=
  @CopyValue svc (fst pair) (Some (New_Elem (Key_of toType)))
  = Ok (true, Some (mkValue (Key_of toType) k true false))
  /\ @CopyValue svc (snd pair) (Some (New_Elem (Elem_of toType)))
     = Ok (true, Some (mkValue (Elem_of toType) v true false)).

(** The map a call of [Copy] leaves behind: what the destination argument
    unwraps to afterwards. *)
Definition destination_after (r : any * outcome) : Value :=
  indirectValue (ValueOf (fst r)).

(** The kinds of the numbers: integers of either sign and floats. *)
Definition is_number_kind (k : kind) : bool :=
  is_int_kind k || is_uint_kind k || is_float_kind k.

(** The struct field a key of the source map designates: the key itself
    when it is a string. *)
Definition key_names (fromValue : rvalue) : list string :=
  map (fun kv : data * data => String_ (MapKey fromValue (fst kv)))
      (entries fromValue).

(** The pairs of shapes [Copy] has a loop for. *)
Definition structural_pair (fk tk : kind) : bool :=
  kind_eqb fk Kind.Slice && kind_eqb tk Kind.Slice
  || kind_eqb fk Kind.Struct && kind_eqb tk Kind.Struct
  || kind_eqb fk Kind.Map && kind_eqb tk Kind.Map
  || kind_eqb fk Kind.Map && kind_eqb tk Kind.Struct
  || kind_eqb fk Kind.Struct && kind_eqb tk Kind.Map.

(** The entries of [src] stored one after the other into [m]. *)
Definition merged (src m : list (data * data)) : list (data * data) :=
  fold_left (fun acc kv => map_insert (fst kv) (snd kv) acc) src m.

(** A type whose values all hash: no interface, slice or map, also inside
    the fields of a struct. *)
Fixpoint always_hashable (t : type) : bool :=
  match t with
  | TInterface | TSlice _ | TMap _ _ => false
  | TStruct fs => forallb (fun f : string * type => always_hashable (snd f)) fs
  | TNamed _ _ u => always_hashable u
  | _ => true
  end.

(** A key type on which [==] looks at the whole content and at nothing
    else: no pointer either, which [==] compares by address, and no blank
    field, which [==] leaves out. *)
Fixpoint plain_key (t : type) : bool :=
  match t with
  | TInterface | TSlice _ | TMap _ _ | TPtr _ => false
  | TStruct fs =>
      forallb (fun f : string * type =>
                 negb (String.eqb (fst f) "_") && plain_key (snd f)) fs
  | TNamed _ _ u => plain_key u
  | _ => true
  end.

(** The message of the runtime on a key that does not hash. *)
Definition unhashable_message (u : type) : string :=
  "runtime error: hash of unhashable type " ++ Type_String u.

(** What [CopyValue] has for a pair, the unwrapped source and the type of
    the unwrapped destination: no rule; a rule that writes; or the one rule
    that reports true without a write, a string that does not parse as a
    [time.Time]. *)
Inductive rule := no_rule | writes | unparsed_time.

Definition is_some {A : Type} (o : option A) : bool :=
  match o with Some _ => true | None => false end.

Definition rule_for (rt : runtime) (g : globals) (fromValue : rvalue)
  (toType : type) : rule :=
  let fromType := typ fromValue in
  let s := String_ fromValue in
  let when (b : bool) := if b then writes else no_rule in
  if AssignableTo fromType toType then writes
  else if kind_eqb (Kind_of toType) Kind.String then
    when (is_scalar_kind (Kind_of fromType)
          || kind_eqb (Kind_of fromType) Kind.Struct
             && CanInterface fromValue
             && (type_eqb fromType time_Time || is_Stringer fromType))
  else if kind_eqb (Kind_of fromType) Kind.String then
    if kind_eqb (Kind_of toType) Kind.Bool
    then when (is_some (strconv.ParseBool s))
    else if is_int_kind (Kind_of toType)
    then when (is_some (strconv.ParseInt s 0))
    else if is_uint_kind (Kind_of toType)
    then when (is_some (strconv.ParseUint s 0))
    else if is_float_kind (Kind_of toType)
    then when (is_some (ParseFloat rt s 64))
    else if type_eqb toType time_Time
    then if is_some (ParseInLocation rt (DateTimeLayout g) s
                       (getTimeZone rt g))
         then writes else unparsed_time
    else no_rule
  else when (ConvertibleTo fromType toType).

(** The message of [Set] on a value read through an unexported field. *)
Definition unexported_field_message : string :=
  "reflect: reflect.Value.Set using value obtained using unexported field".

(** The message of the refused allocation of a pointer field. *)
Definition allocation_message (ft : type) : string :=
  "reflect.Set: value of type " ++ Type_String (TPtr (indirectType ft))
  ++ " is not assignable to type " ++ Type_String ft.

(** A pointer field that points to a pointer. *)
Definition pointer_to_pointer_field (t : type) (ft : type) : Prop :=
  exists name i,
    Type_FieldByName t name = Some (i, ft)
    /\ Kind_of ft = Kind.Pointer /\ Kind_of (Elem_of ft) = Kind.Pointer.

(** The message of [Type] on the zero Value. *)
Definition zero_Value_message : string :=
  "reflect: call of reflect.Value.Type on zero Value".

(** The content of a slice, map or struct value has the shape of its
    type. *)
Definition shaped (v : rvalue) : bool :=
  match Kind_of (typ v) with
  | Kind.Slice => match dat v with DSlice _ => true | _ => false end
  | Kind.Map => match dat v with DMap _ => true | _ => false end
  | Kind.Struct => match dat v with DStruct _ => true | _ => false end
  | _ => true
  end.

(** * Properties *)

(** ** Types *)

(** Induction on types that reaches the fields of a struct. *)
Section TypeInduction.

Variable P : type -> Prop.
Hypothesis HBool : P TBool.
Hypothesis HInt : forall w, P (TInt w).
Hypothesis HUint : forall w, P (TUint w).
Hypothesis HFloat32 : P TFloat32.
Hypothesis HFloat64 : P TFloat64.
Hypothesis HString : P TString.
Hypothesis HInterface : P TInterface.
Hypothesis HPtr : forall e, P e -> P (TPtr e).
Hypothesis HSlice : forall e, P e -> P (TSlice e).
Hypothesis HMap : forall k e, P k -> P e -> P (TMap k e).
Hypothesis HStruct : forall fs, Forall (fun f => P (snd f)) fs -> P (TStruct fs).
Hypothesis HNamed : forall n s u, P u -> P (TNamed n s u).

Fixpoint type_induction (t : type) : P t :=
  match t with
  | TBool => HBool
  | TInt w => HInt w
  | TUint w => HUint w
  | TFloat32 => HFloat32
  | TFloat64 => HFloat64
  | TString => HString
  | TInterface => HInterface
  | TPtr e => HPtr e (type_induction e)
  | TSlice e => HSlice e (type_induction e)
  | TMap k e => HMap k e (type_induction k) (type_induction e)
  | TStruct fs =>
      HStruct fs
        ((fix all (l : list (string * type)) : Forall (fun f => P (snd f)) l :=
            match l with
            | [] => Forall_nil _
            | f :: r => Forall_cons f (type_induction (snd f)) (all r)
            end) fs)
  | TNamed n s u => HNamed n s u (type_induction u)
  end.

End TypeInduction.

Lemma width_eqb_eq (a b : width) : width_eqb a b = true <-> a = b.
Proof. destruct a, b; simpl; split; congruence. Qed.

Lemma kind_eqb_eq (a b : kind) : kind_eqb a b = true <-> a = b.
Proof. destruct a, b; simpl; split; congruence. Qed.

Lemma kind_eqb_refl (a : kind) : kind_eqb a a = true.
Proof. now apply kind_eqb_eq. Qed.

Lemma kind_eqb_neq (a b : kind) : a <> b -> kind_eqb a b = false.
Proof.
  intros H. destruct (kind_eqb a b) eqn:E; [|reflexivity].
  apply kind_eqb_eq in E. contradiction.
Qed.

Lemma type_eqb_eq (a b : type) : type_eqb a b = true -> a = b.
Proof.
  revert b. induction a using type_induction; intros b E;
    destruct b; simpl in E; try discriminate; try reflexivity.
  - apply width_eqb_eq in E. now subst.
  - apply width_eqb_eq in E. now subst.
  - f_equal. now apply IHa.
  - f_equal. now apply IHa.
  - apply andb_prop in E as [E1 E2]. f_equal; auto.
  - f_equal. revert fields E.
    induction H as [|[n t] r Ht Hr IH]; intros [|[n' t'] r'] E;
      try discriminate; [reflexivity|].
    apply andb_prop in E as [E E3]. apply andb_prop in E as [E1 E2].
    apply String.eqb_eq in E1. simpl in Ht. apply Ht in E2.
    apply IH in E3. now subst.
  - apply andb_prop in E as [E E3]. apply andb_prop in E as [E1 E2].
    apply String.eqb_eq in E1. apply Bool.eqb_prop in E2.
    apply IHa in E3. now subst.
Qed.

Lemma type_eqb_refl (a : type) : type_eqb a a = true.
Proof.
  induction a using type_induction; simpl; auto.
  - now apply width_eqb_eq.
  - now apply width_eqb_eq.
  - now rewrite IHa1, IHa2.
  - induction H as [|[n t] r Ht Hr IH]; [reflexivity|].
    simpl in Ht. now rewrite String.eqb_refl, Ht, IH.
  - now rewrite String.eqb_refl, Bool.eqb_reflx, IHa.
Qed.

(** A value is storable as it is only in a type of its own kind. *)
Lemma directlyAssignable_kind (T V : type) :
  directlyAssignable T V = true -> Kind_of T = Kind_of V.
Proof.
  unfold directlyAssignable. destruct (type_eqb T V) eqn:E.
  - intros _. apply type_eqb_eq in E. now subst.
  - destruct (HasName T && HasName V); simpl; [discriminate|].
    destruct (kind_eqb (Kind_of T) (Kind_of V)) eqn:K; simpl; [|discriminate].
    intros _. now apply kind_eqb_eq.
Qed.

Lemma directlyAssignable_refl (T : type) : directlyAssignable T T = true.
Proof. unfold directlyAssignable. now rewrite type_eqb_refl. Qed.

Lemma AssignableTo_kind_neq (V T : type) :
  Kind_of V <> Kind_of T -> Kind_of T <> Kind.Interface ->
  AssignableTo V T = false.
Proof.
  intros HK HI. unfold AssignableTo, implements.
  rewrite (kind_eqb_neq _ _ HI), orb_false_r.
  destruct (directlyAssignable T V) eqn:E; [|reflexivity].
  apply directlyAssignable_kind in E. congruence.
Qed.

Lemma Kind_of_underlying (t : type) : Kind_of (underlying t) = Kind_of t.
Proof. induction t; simpl; auto. Qed.

Lemma underlying_not_named (t : type) n s u : underlying t <> TNamed n s u.
Proof. induction t; simpl; auto; discriminate. Qed.

(** [indirectType] changes nothing on a type that is not a pointer. *)
Lemma indirectType_not_pointer (t : type) :
  Kind_of t <> Kind.Pointer -> indirectType t = t.
Proof.
  destruct t; simpl; intros H; try reflexivity.
  - congruence.
  - destruct (Kind_of t); congruence.
Qed.

Lemma indirectType_kind (t : type) : Kind_of (indirectType t) <> Kind.Pointer.
Proof.
  induction t; simpl; try discriminate; auto.
  - destruct w; discriminate.
  - destruct w; discriminate.
  - destruct (Kind_of t) eqn:E; simpl; auto; rewrite E; discriminate.
Qed.

(** ** Handles *)

(** What [indirectValue] reaches is not a pointer, keeps the read-only bit,
    and is addressable as soon as one pointer was followed. *)
Lemma indirect_spec : forall (d : data) t addr ro r,
  indirect t d addr ro = Some r ->
  Kind_of (typ r) <> Kind.Pointer /\ flagRO r = ro
  /\ (Kind_of t = Kind.Pointer \/ addr = true -> flagAddr r = true).
Proof.
  fix IH 1. intros d t addr ro r H.
  assert (leaf : Kind_of t <> Kind.Pointer ->
                 Some (mkValue t d addr ro) = Some r ->
                 Kind_of (typ r) <> Kind.Pointer /\ flagRO r = ro
                 /\ (Kind_of t = Kind.Pointer \/ addr = true -> flagAddr r = true)).
  { intros K E. inversion E; subst; simpl. repeat split; auto.
    intros [?|?]; congruence. }
  destruct d; simpl in H;
    try (destruct (Kind_of t) eqn:K; try discriminate;
         (apply leaf; [congruence | exact H])).
  destruct (Kind_of t) eqn:K; try (apply leaf; [congruence | exact H]).
  destruct p as [d'|]; [|discriminate].
  apply IH in H. destruct H as (H1 & H2 & H3). repeat split; auto.
Qed.

(** After [indirectValue] the two readings of the type agree. *)
Lemma indirect_type (d : data) t addr ro r :
  indirect t d addr ro = Some r -> indirectType (typ r) = typ r.
Proof.
  intros H. apply indirect_spec in H. now apply indirectType_not_pointer.
Qed.

Lemma indirect_not_pointer (d : data) t addr ro :
  Kind_of t <> Kind.Pointer ->
  indirect t d addr ro = Some (mkValue t d addr ro).
Proof.
  intros K. destruct d; simpl; destruct (Kind_of t); congruence.
Qed.

(** Storing through a handle and unwrapping it again gives what was
    stored. *)
Lemma indirect_store : forall (d : data) t addr ro r new,
  indirect t d addr ro = Some r ->
  indirect t (store t d new) addr ro
  = Some (mkValue (typ r) new (flagAddr r) (flagRO r)).
Proof.
  fix IH 1. intros d t addr ro r new H.
  assert (leaf : Kind_of t <> Kind.Pointer ->
                 Some (mkValue t d addr ro) = Some r ->
                 indirect t new addr ro
                 = Some (mkValue (typ r) new (flagAddr r) (flagRO r))).
  { intros K E. inversion E; subst; simpl. now apply indirect_not_pointer. }
  destruct d; simpl in H |- *;
    try (destruct (Kind_of t) eqn:K; try discriminate;
         (apply leaf; [congruence | exact H])).
  destruct (Kind_of t) eqn:K; try (apply leaf; [congruence | exact H]).
  destruct p as [d'|]; [|discriminate].
  simpl. rewrite K. now apply IH.
Qed.

(** A handle that unwraps to nothing is left as it is by a store. *)
Lemma store_invalid : forall (d : data) t addr ro new,
  indirect t d addr ro = None -> store t d new = d.
Proof.
  fix IH 1. intros d t addr ro new H.
  destruct d; simpl in H |- *;
    try (destruct (Kind_of t) eqn:K; try discriminate; reflexivity).
  destruct (Kind_of t) eqn:K; try discriminate.
  destruct p as [d'|]; [|reflexivity].
  f_equal. f_equal. now apply IH with (addr := true) (ro := ro).
Qed.

(** Storing what is already there changes nothing. *)
Lemma store_same : forall (d : data) t addr ro r,
  indirect t d addr ro = Some r -> store t d (dat r) = d.
Proof.
  fix IH 1. intros d t addr ro r H.
  destruct d; simpl in H |- *;
    try (destruct (Kind_of t) eqn:K; try discriminate;
         inversion H; subst; reflexivity).
  destruct (Kind_of t) eqn:K; try (inversion H; subst; reflexivity).
  destruct p as [d'|]; [|discriminate].
  f_equal. f_equal. now apply IH with (addr := true) (ro := ro).
Qed.

(** ** Writes *)

(** A settable slot takes a value of its own type that was not read through
    an unexported field. *)
Lemma Set_same_type (v x : rvalue) :
  CanSet v = true -> flagRO x = false -> typ x = typ v ->
  Set_ v x = Ok (mkValue (typ v) (dat x) (flagAddr v) (flagRO v)).
Proof.
  unfold CanSet, Set_, assignTo. intros HS HX HT.
  apply andb_prop in HS as [HA HR]. apply negb_true_iff in HR.
  rewrite HR, HA, HX, HT, directlyAssignable_refl. reflexivity.
Qed.

Lemma Set_assignable (v x : rvalue) :
  CanSet v = true -> flagRO x = false -> AssignableTo (typ x) (typ v) = true ->
  exists d, Set_ v x = Ok (mkValue (typ v) d (flagAddr v) (flagRO v)).
Proof.
  unfold CanSet, Set_, assignTo, AssignableTo. intros HS HX HT.
  apply andb_prop in HS as [HA HR]. apply negb_true_iff in HR.
  rewrite HR, HA, HX. simpl.
  destruct (directlyAssignable (typ v) (typ x)); simpl in *; eauto.
  rewrite HT. destruct (kind_eqb (Kind_of (typ x)) Kind.Interface); simpl; eauto.
Qed.

Lemma Kind_time_Time : Kind_of time_Time = Kind.Struct.
Proof. reflexivity. Qed.

Lemma convert_time (rt : runtime) (t : data) :
  Convert rt (value_of time_Time t) time_Time
  = Ok (mkValue time_Time t false false).
Proof. reflexivity. Qed.

Section Temporal.

Variable rt : runtime.
Variable g : globals.

(** The string-to-[time.Time] branch: the outcome is decided by
    [time.ParseInLocation] on the current layout and zone; a failure
    reports true all the same. *)
Lemma string_to_time (fromValue0 : Value) (handle fromValue toValue : rvalue) :
  indirectValue fromValue0 = Some fromValue ->
  Kind_of (typ fromValue) = Kind.String ->
  indirectValue (Some handle) = Some toValue ->
  typ toValue = time_Time ->
  DefaultService_CopyValue rt g fromValue0 (Some handle)
  = match ParseInLocation rt (DateTimeLayout g) (String_ fromValue)
            (getTimeZone rt g) with
    | Some t =>
        v <- Set_ toValue (value_of time_Time t) ;;
        Ok (true, Some (stored handle (dat v)))
    | None => Ok (true, Some handle)
    end.
Proof.
  intros HF HK HT HTy. unfold DefaultService_CopyValue.
  rewrite HF, HT.
  destruct fromValue0 as [f0|]; [|discriminate]. simpl in HF, HT.
  rewrite (indirect_type _ _ _ _ _ HF), (indirect_type _ _ _ _ _ HT).
  rewrite HTy, AssignableTo_kind_neq
    by (rewrite ?HK, ?Kind_time_Time; discriminate).
  rewrite Kind_time_Time, HK. simpl kind_eqb. cbv iota.
  unfold CanInterface, New_Elem. simpl flagRO. simpl negb. cbv iota.
  simpl typ. rewrite type_eqb_refl.
  destruct (ParseInLocation rt _ _ _); [|reflexivity].
  rewrite convert_time. reflexivity.
Qed.

End Temporal.

Lemma underlying_String (t : type) :
  Kind_of t = Kind.String -> underlying t = TString.
Proof.
  induction t; simpl; intros H; try discriminate; auto;
    destruct w; discriminate.
Qed.

Lemma underlying_Bool (t : type) :
  Kind_of t = Kind.Bool -> underlying t = TBool.
Proof.
  induction t; simpl; intros H; try discriminate; auto;
    destruct w; discriminate.
Qed.

(** A Go string converts to every type whose kind is [String]. *)
Lemma convert_to_string (rt : runtime) (s : string) (t : type) :
  Kind_of t = Kind.String ->
  Convert rt (value_of TString (DString s)) t
  = Ok (mkValue t (DString s) false false).
Proof.
  intros K. unfold Convert, convertOp, convertOp_tail. simpl typ.
  simpl Kind_of. rewrite K. simpl.
  unfold haveIdenticalUnderlyingType. rewrite (underlying_String _ K).
  reflexivity.
Qed.

Lemma convert_to_bool (rt : runtime) (b : bool) (t : type) :
  Kind_of t = Kind.Bool ->
  Convert rt (value_of TBool (DBool b)) t
  = Ok (mkValue t (DBool b) false false).
Proof.
  intros K. unfold Convert, convertOp, convertOp_tail. simpl typ.
  simpl Kind_of. rewrite K. simpl.
  unfold haveIdenticalUnderlyingType. rewrite (underlying_Bool _ K).
  reflexivity.
Qed.

Section TemporalFormat.

Variable rt : runtime.
Variable g : globals.

(** The [time.Time]-to-string branch. *)
Lemma time_to_string (fromValue0 : Value) (handle fromValue toValue : rvalue) :
  indirectValue fromValue0 = Some fromValue ->
  typ fromValue = time_Time ->
  flagRO fromValue = false ->
  indirectValue (Some handle) = Some toValue ->
  Kind_of (typ toValue) = Kind.String ->
  DefaultService_CopyValue rt g fromValue0 (Some handle)
  = (v <- Set_ toValue
            (mkValue (typ toValue)
               (DString (Time_Format rt
                           (Time_In rt (dat fromValue) (getTimeZone rt g))
                           (DateTimeLayout g))) false false) ;;
     Ok (true, Some (stored handle (dat v)))).
Proof.
  intros HF HTy HR HT HK. unfold DefaultService_CopyValue.
  rewrite HF, HT.
  destruct fromValue0 as [f0|]; [|discriminate]. simpl in HF, HT.
  rewrite (indirect_type _ _ _ _ _ HF), (indirect_type _ _ _ _ _ HT).
  rewrite HTy, AssignableTo_kind_neq
    by (rewrite ?HK, ?Kind_time_Time; discriminate).
  rewrite Kind_time_Time, HK. simpl kind_eqb. cbv iota.
  unfold CanInterface. rewrite HR. simpl negb. cbv iota.
  rewrite type_eqb_refl. rewrite (convert_to_string _ _ _ HK). reflexivity.
Qed.

End TemporalFormat.

(** ** Temporal conversions *)



(** C8. The package variables start as the layout
    ["2006-01-02 15:04:05"] and the zone name ["Asia/Shanghai"]; the zone a
    conversion uses is what [time.LoadLocation] gives for the current name,
    and [time.UTC] when it gives none; both temporal conversions go through
    the current layout and that zone. *)
Theorem temporal_configuration (rt : runtime) :
  DateTimeLayout initial_globals = "2006-01-02 15:04:05"
  /\ TimeZone initial_globals = "Asia/Shanghai"
  /\ forall g : globals,
      let zone := match LoadLocation rt (TimeZone g) with
                  | Some loc => loc
                  | None => UTC rt
                  end in
      (forall loc, LoadLocation rt (TimeZone g) = Some loc ->
                   getTimeZone rt g = loc)
      /\ (LoadLocation rt (TimeZone g) = None -> getTimeZone rt g = UTC rt)
      /\ (forall fromValue0 handle fromValue toValue,
             indirectValue fromValue0 = Some fromValue ->
             Kind_of (typ fromValue) = Kind.String ->
             indirectValue (Some handle) = Some toValue ->
             typ toValue = time_Time ->
             CanSet toValue = true ->
             DefaultService_CopyValue rt g fromValue0 (Some handle)
             = match ParseInLocation rt (DateTimeLayout g)
                       (String_ fromValue) zone with
               | Some t => Ok (true, Some (stored handle t))
               | None => Ok (true, Some handle)
               end)
      /\ (forall fromValue0 handle fromValue toValue,
             indirectValue fromValue0 = Some fromValue ->
             typ fromValue = time_Time ->
             flagRO fromValue = false ->
             indirectValue (Some handle) = Some toValue ->
             Kind_of (typ toValue) = Kind.String ->
             CanSet toValue = true ->
             DefaultService_CopyValue rt g fromValue0 (Some handle)
             = Ok (true,
                   Some (stored handle
                           (DString (Time_Format rt
                                       (Time_In rt (dat fromValue) zone)
                                       (DateTimeLayout g)))))).
Proof.
  split; [reflexivity|]. split; [reflexivity|].
  intros g zone. unfold getTimeZone.
  split; [intros loc H; now rewrite H|].
  split; [intros H; now rewrite H|].
  split.
  - intros f0 h fv tv HF HK HT HTy HS.
    rewrite (string_to_time rt g _ _ _ _ HF HK HT HTy).
    unfold getTimeZone. fold zone.
    destruct (ParseInLocation rt _ _ zone); [|reflexivity].
    rewrite Set_same_type; auto.
  - intros f0 h fv tv HF HTy HR HT HK HS.
    rewrite (time_to_string rt g _ _ _ _ HF HTy HR HT HK).
    unfold getTimeZone. fold zone.
    rewrite Set_same_type; auto.
Qed.

(** ** Strings into integers *)

Lemma bits_of_cases (k : kind) :
  bits_of k = 8 \/ bits_of k = 16 \/ bits_of k = 32 \/ bits_of k = 64.
Proof. destruct k; simpl; unfold strconv.IntSize; auto. Qed.

(** [wrap_signed w] picks the representative of [z] modulo [2^w] in the
    signed range. *)
Lemma wrap_signed_spec (k : kind) (z : Z) :
  let w := bits_of k in
  wrap_signed w z mod 2 ^ w = z mod 2 ^ w
  /\ - 2 ^ (w - 1) <= wrap_signed w z < 2 ^ (w - 1).
Proof.
  intros w. unfold wrap_signed.
  assert (H : 2 ^ w = 2 * 2 ^ (w - 1) /\ 0 < 2 ^ (w - 1)).
  { unfold w. destruct (bits_of_cases k) as [E|[E|[E|E]]]; rewrite E;
      split; reflexivity. }
  destruct H as [H2 Hpos]. split.
  - rewrite Zminus_mod_idemp_l. f_equal. lia.
  - pose proof (Z.mod_pos_bound (z + 2 ^ (w - 1)) (2 ^ w)). lia.
Qed.

Lemma wrap_signed_in_range (w z : Z) :
  0 < w -> - 2 ^ (w - 1) <= z < 2 ^ (w - 1) -> wrap_signed w z = z.
Proof.
  intros Hw Hz. unfold wrap_signed.
  assert (H2 : 2 ^ w = 2 * 2 ^ (w - 1)).
  { replace w with (Z.succ (w - 1)) at 1 by lia. rewrite Z.pow_succ_r; lia. }
  rewrite Z.mod_small; lia.
Qed.

Lemma convert_int64 (rt : runtime) (v : Z) (t : type) :
  is_int_kind (Kind_of t) || is_uint_kind (Kind_of t) = true ->
  Convert rt (value_of (TInt W64) (DInt v)) t
  = Ok (mkValue t (makeInt v t) false false).
Proof.
  intros K. unfold Convert, convertOp. simpl typ. simpl Kind_of.
  simpl is_int_kind at 1. cbv iota. rewrite K. reflexivity.
Qed.

Lemma convert_uint64 (rt : runtime) (v : Z) (t : type) :
  is_int_kind (Kind_of t) || is_uint_kind (Kind_of t) = true ->
  Convert rt (value_of (TUint W64) (DUint v)) t
  = Ok (mkValue t (makeInt v t) false false).
Proof.
  intros K. unfold Convert, convertOp. simpl typ. simpl Kind_of.
  simpl is_int_kind at 1. simpl is_uint_kind at 1. cbv iota.
  rewrite K. reflexivity.
Qed.

Section StringsIntoNumbers.

Variable rt : runtime.
Variable g : globals.

(** The string-to-signed-integer branch. *)
Lemma string_to_int (fromValue0 : Value) (handle fromValue toValue : rvalue) :
  indirectValue fromValue0 = Some fromValue ->
  Kind_of (typ fromValue) = Kind.String ->
  indirectValue (Some handle) = Some toValue ->
  is_int_kind (Kind_of (typ toValue)) = true ->
  DefaultService_CopyValue rt g fromValue0 (Some handle)
  = match strconv.ParseInt (String_ fromValue) 0 with
    | Some v =>
        x <- Set_ toValue
               (mkValue (typ toValue) (makeInt v (typ toValue)) false false) ;;
        Ok (true, Some (stored handle (dat x)))
    | None => Ok (false, Some handle)
    end.
Proof.
  intros HF HK HT HI. unfold DefaultService_CopyValue.
  rewrite HF, HT.
  destruct fromValue0 as [f0|]; [|discriminate]. simpl in HF, HT.
  rewrite (indirect_type _ _ _ _ _ HF), (indirect_type _ _ _ _ _ HT).
  rewrite AssignableTo_kind_neq
    by (rewrite ?HK; destruct (Kind_of (typ toValue)); discriminate).
  rewrite HK.
  destruct (Kind_of (typ toValue)) eqn:K; try discriminate; simpl;
    (destruct (strconv.ParseInt _ 0); [|reflexivity]);
    rewrite convert_int64 by (rewrite K; reflexivity); reflexivity.
Qed.

(** The string-to-unsigned-integer branch. *)
Lemma string_to_uint (fromValue0 : Value) (handle fromValue toValue : rvalue) :
  indirectValue fromValue0 = Some fromValue ->
  Kind_of (typ fromValue) = Kind.String ->
  indirectValue (Some handle) = Some toValue ->
  is_uint_kind (Kind_of (typ toValue)) = true ->
  DefaultService_CopyValue rt g fromValue0 (Some handle)
  = match strconv.ParseUint (String_ fromValue) 0 with
    | Some v =>
        x <- Set_ toValue
               (mkValue (typ toValue) (makeInt v (typ toValue)) false false) ;;
        Ok (true, Some (stored handle (dat x)))
    | None => Ok (false, Some handle)
    end.
Proof.
  intros HF HK HT HI. unfold DefaultService_CopyValue.
  rewrite HF, HT.
  destruct fromValue0 as [f0|]; [|discriminate]. simpl in HF, HT.
  rewrite (indirect_type _ _ _ _ _ HF), (indirect_type _ _ _ _ _ HT).
  rewrite AssignableTo_kind_neq
    by (rewrite ?HK; destruct (Kind_of (typ toValue)); discriminate).
  rewrite HK.
  destruct (Kind_of (typ toValue)) eqn:K; try discriminate; simpl;
    (destruct (strconv.ParseUint _ 0); [|reflexivity]);
    rewrite convert_uint64 by (rewrite K; reflexivity); reflexivity.
Qed.

End StringsIntoNumbers.

(** C9. A string copied into a settable integer: it is parsed with bit size
    0, which is 64 bits, and the parsed number is converted to the
    destination type, so the call reports true and writes the number reduced
    modulo [2^w] into the range of the [w]-bit destination, whatever its
    size. *)
Theorem string_to_narrow_integer (rt : runtime) (g : globals)
  (fromValue0 : Value) (handle fromValue toValue : rvalue) :
  indirectValue fromValue0 = Some fromValue ->
  Kind_of (typ fromValue) = Kind.String ->
  indirectValue (Some handle) = Some toValue ->
  CanSet toValue = true ->
  let s := String_ fromValue in
  let w := bits_of (Kind_of (typ toValue)) in
  strconv.ParseInt s 0 = strconv.ParseInt s 64
  /\ strconv.ParseUint s 0 = strconv.ParseUint s 64
  /\ (is_int_kind (Kind_of (typ toValue)) = true ->
      forall v, strconv.ParseInt s 0 = Some v ->
        DefaultService_CopyValue rt g fromValue0 (Some handle)
        = Ok (true, Some (stored handle (DInt (wrap_signed w v))))
        /\ wrap_signed w v mod 2 ^ w = v mod 2 ^ w
        /\ - 2 ^ (w - 1) <= wrap_signed w v < 2 ^ (w - 1))
  /\ (is_uint_kind (Kind_of (typ toValue)) = true ->
      forall v, strconv.ParseUint s 0 = Some v ->
        DefaultService_CopyValue rt g fromValue0 (Some handle)
        = Ok (true, Some (stored handle (DUint (v mod 2 ^ w))))
        /\ 0 <= v mod 2 ^ w < 2 ^ w).
Proof.
  intros HF HK HT HS s w.
  split; [reflexivity|]. split; [reflexivity|]. split.
  - intros HI v Hv. split; [|apply wrap_signed_spec].
    rewrite (string_to_int rt g _ _ _ _ HF HK HT HI). fold s. rewrite Hv.
    rewrite Set_same_type; auto. simpl. unfold makeInt. now rewrite HI.
  - intros HU v Hv. split.
    + rewrite (string_to_uint rt g _ _ _ _ HF HK HT HU). fold s. rewrite Hv.
      rewrite Set_same_type; auto. simpl. unfold makeInt.
      destruct (Kind_of (typ toValue)); try discriminate; reflexivity.
    + apply Z.mod_pos_bound. unfold w.
      destruct (bits_of_cases (Kind_of (typ toValue))) as [E|[E|[E|E]]];
        rewrite E; reflexivity.
Qed.

(** ["300"] into an [int8]: the call reports true and the slot holds 44. *)
Lemma string_to_narrow_integer_witness :
  DefaultService_CopyValue bare_runtime initial_globals
    (Some (value_of TString (DString "300"))) (Some (New_Elem (TInt W8)))
  = Ok (true, Some (mkValue (TInt W8) (DInt 44) true false)).
Proof.
  apply (proj1 (proj1 (proj2 (proj2
           (string_to_narrow_integer bare_runtime initial_globals
              (Some (value_of TString (DString "300")))
              (New_Elem (TInt W8))
              (value_of TString (DString "300"))
              (New_Elem (TInt W8))
              eq_refl eq_refl eq_refl eq_refl))) eq_refl 300 eq_refl)).
Defined.

(** ** [strconv]: formatting and parsing back *)

Lemma code_digit (d : Z) :
  0 <= d <= 9 ->
  strconv.code (ascii_of_N (Z.to_N (strconv.code "0" + d))) = 48 + d.
Proof.
  intros H. unfold strconv.code at 1.
  change (strconv.code "0") with 48.
  rewrite N_ascii_embedding by lia. lia.
Qed.

(** One more digit in front of [acc] is one more round of the loop. *)
Lemma parseUint_loop_digit (maxVal u : Z) (acc : string) :
  0 <= u <= maxVal -> maxVal <= strconv.maxUint64 ->
  strconv.parseUint_loop maxVal (u / 10)
    (String (ascii_of_N (Z.to_N (strconv.code "0" + u mod 10))) acc)
  = strconv.parseUint_loop maxVal u acc.
Proof.
  intros Hu Hm. unfold strconv.maxUint64 in *.
  pose proof (Z.mod_pos_bound u 10 eq_refl) as Hd.
  pose proof (Z.div_mod u 10) as Hdm.
  cbn [strconv.parseUint_loop].
  rewrite code_digit by lia. change (strconv.code "0") with 48.
  change (strconv.code "9") with 57.
  replace ((48 <=? 48 + u mod 10) && (48 + u mod 10 <=? 57)) with true
    by (symmetry; apply andb_true_intro; split; apply Z.leb_le; lia).
  replace (48 + u mod 10 - 48) with (u mod 10) by lia.
  replace (10 <=? u mod 10) with false by (symmetry; apply Z.leb_gt; lia).
  unfold strconv.maxUint64.
  replace ((2 ^ 64 - 1) / 10 + 1 <=? u / 10) with false
    by (symmetry; apply Z.leb_gt;
        change ((2 ^ 64 - 1) / 10 + 1) with 1844674407370955162; lia).
  cbv zeta.
  assert (E1 : (u / 10 * 10) mod 2 ^ 64 = u / 10 * 10)
    by (apply Z.mod_small; lia).
  rewrite E1.
  assert (E2 : (u / 10 * 10 + u mod 10) mod 2 ^ 64 = u)
    by (rewrite Z.mod_small; lia).
  rewrite E2.
  replace (u <? u / 10 * 10) with false by (symmetry; apply Z.ltb_ge; lia).
  replace (maxVal <? u) with false by (symmetry; apply Z.ltb_ge; lia).
  reflexivity.
Qed.

Lemma parseUint_loop_formatBits (maxVal : Z) (fuel : nat) :
  forall u acc,
    0 <= u <= maxVal -> maxVal <= strconv.maxUint64 ->
    u < 10 ^ Z.of_nat fuel ->
    strconv.parseUint_loop maxVal 0 (strconv.formatBits fuel u acc)
    = strconv.parseUint_loop maxVal u acc.
Proof.
  induction fuel as [|fuel IH]; intros u acc Hu Hm Hf.
  - simpl in Hf. replace u with 0 by lia. reflexivity.
  - cbn [strconv.formatBits]. destruct (u <? 10) eqn:E.
    + apply Z.ltb_lt in E.
      rewrite <- (parseUint_loop_digit maxVal u acc Hu Hm).
      now rewrite Z.div_small by lia.
    + apply Z.ltb_ge in E.
      rewrite IH.
      * now apply parseUint_loop_digit.
      * split; [apply Z.div_pos; lia|].
        pose proof (Z.div_mod u 10). pose proof (Z.mod_pos_bound u 10). lia.
      * exact Hm.
      * rewrite Nat2Z.inj_succ, Z.pow_succ_r in Hf by lia.
        apply Z.div_lt_upper_bound; lia.
Qed.

(** The formatted number starts with a digit. *)
Lemma formatBits_head (fuel : nat) : forall u acc,
  0 <= u ->
  exists d r, 0 <= d <= 9
    /\ strconv.formatBits (S fuel) u acc
       = String (ascii_of_N (Z.to_N (strconv.code "0" + d))) r.
Proof.
  induction fuel as [|fuel IH]; intros u acc Hu;
    pose proof (Z.mod_pos_bound u 10 eq_refl) as Hd.
  - exists (u mod 10), acc. split; [lia|].
    simpl. now destruct (u <? 10).
  - cbn [strconv.formatBits]. destruct (u <? 10) eqn:E.
    + exists (u mod 10), acc. split; [lia|reflexivity].
    + apply IH. apply Z.div_pos; lia.
Qed.

Lemma ParseUint_FormatUint (u : Z) :
  0 <= u < 2 ^ 64 ->
  strconv.ParseUint (strconv.FormatUint u) 0 = Some u.
Proof.
  intros Hu. unfold strconv.ParseUint, strconv.FormatUint.
  destruct (formatBits_head 19 u "" (proj1 Hu)) as (d & r & Hd & E).
  rewrite E. cbn [String.eqb]. rewrite <- E. clear E.
  change (0 =? 0) with true. cbv iota. unfold strconv.IntSize.
  change ((64 <? 0) || (64 <? 64)) with false. cbv iota.
  rewrite parseUint_loop_formatBits.
  - reflexivity.
  - lia.
  - unfold strconv.maxUint64. lia.
  - change (10 ^ Z.of_nat 20) with 100000000000000000000. lia.
Qed.

Lemma ParseInt_FormatInt (i : Z) :
  - 2 ^ 63 <= i < 2 ^ 63 ->
  strconv.ParseInt (strconv.FormatInt i) 0 = Some i.
Proof.
  intros Hi. unfold strconv.FormatInt. destruct (i <? 0) eqn:E.
  - apply Z.ltb_lt in E. unfold strconv.ParseInt.
    change (Ascii.eqb "-" "-") with true. change (Ascii.eqb "-" "+") with false.
    cbv zeta. cbn [orb]. cbv iota.
    change (strconv.formatBits 20 (- i) "") with (strconv.FormatUint (- i)).
    rewrite ParseUint_FormatUint by lia.
    change (0 =? 0) with true. cbv iota. unfold strconv.IntSize.
    change (2 ^ (64 - 1)) with 9223372036854775808 in *.
    cbn [negb andb].
    replace (9223372036854775808 <? - i) with false
      by (symmetry; apply Z.ltb_ge; lia).
    f_equal. lia.
  - apply Z.ltb_ge in E.
    destruct (formatBits_head 19 i "" E) as (d & r & Hd & Ef).
    pose proof (ParseUint_FormatUint i ltac:(lia)) as HP.
    unfold strconv.FormatUint in HP.
    unfold strconv.ParseInt. rewrite Ef in *.
    assert (Hm : Ascii.eqb (ascii_of_N (Z.to_N (strconv.code "0" + d))) "-"
                 = false).
    { apply Ascii.eqb_neq. intros C.
      apply (f_equal strconv.code) in C. rewrite code_digit in C by lia.
      change (strconv.code "-") with 45 in C. lia. }
    assert (Hp : Ascii.eqb (ascii_of_N (Z.to_N (strconv.code "0" + d))) "+"
                 = false).
    { apply Ascii.eqb_neq. intros C.
      apply (f_equal strconv.code) in C. rewrite code_digit in C by lia.
      change (strconv.code "+") with 43 in C. lia. }
    rewrite Hm, Hp. cbv zeta. cbn [orb]. cbv iota. rewrite HP.
    change (0 =? 0) with true. cbv iota. unfold strconv.IntSize.
    change (2 ^ (64 - 1)) with 9223372036854775808 in *.
    cbn [negb andb].
    replace (9223372036854775808 <=? i) with false
      by (symmetry; apply Z.leb_gt; lia).
    reflexivity.
Qed.

Lemma ParseBool_FormatBool (b : bool) :
  strconv.ParseBool (strconv.FormatBool b) = Some b.
Proof. now destruct b. Qed.

(** ** Scalars and strings *)

Lemma store_not_pointer (t : type) (d new : data) :
  Kind_of t <> Kind.Pointer -> store t d new = new.
Proof.
  intros K. destruct d; simpl; destruct (Kind_of t); congruence.
Qed.

Lemma indirectValue_not_pointer (r : rvalue) :
  Kind_of (typ r) <> Kind.Pointer -> indirectValue (Some r) = Some r.
Proof.
  intros K. simpl. rewrite indirect_not_pointer by exact K. now destruct r.
Qed.

Lemma stored_not_pointer (r : rvalue) (new : data) :
  Kind_of (typ r) <> Kind.Pointer ->
  stored r new = mkValue (typ r) new (flagAddr r) (flagRO r).
Proof.
  intros K. unfold stored. now rewrite store_not_pointer.
Qed.

Lemma convert_float64 (rt : runtime) (f : spec_float) (t : type) :
  is_float_kind (Kind_of t) = true ->
  Convert rt (value_of TFloat64 (DFloat f)) t
  = Ok (mkValue t (makeFloat rt f t) false false).
Proof.
  intros K. unfold Convert, convertOp. simpl typ. simpl Kind_of.
  simpl is_int_kind at 1. simpl is_uint_kind at 1. simpl is_float_kind at 1.
  cbv iota.
  destruct (Kind_of t) eqn:E; try discriminate; reflexivity.
Qed.

Section ScalarsAndStrings.

Variable rt : runtime.
Variable g : globals.

(** The scalar-to-string branches. *)
Lemma scalar_to_string (fromValue0 : Value) (handle fromValue toValue : rvalue) :
  indirectValue fromValue0 = Some fromValue ->
  is_scalar_kind (Kind_of (typ fromValue)) = true ->
  indirectValue (Some handle) = Some toValue ->
  Kind_of (typ toValue) = Kind.String ->
  DefaultService_CopyValue rt g fromValue0 (Some handle)
  = (x <- Set_ toValue
            (mkValue (typ toValue) (DString (format_scalar rt fromValue))
                     false false) ;;
     Ok (true, Some (stored handle (dat x)))).
Proof.
  intros HF HS HT HK. unfold DefaultService_CopyValue.
  rewrite HF, HT.
  destruct fromValue0 as [f0|]; [|discriminate]. simpl in HF, HT.
  rewrite (indirect_type _ _ _ _ _ HF), (indirect_type _ _ _ _ _ HT).
  rewrite AssignableTo_kind_neq
    by (rewrite ?HK; destruct (Kind_of (typ fromValue)); discriminate).
  rewrite HK. simpl kind_eqb. cbv iota. unfold format_scalar.
  destruct (Kind_of (typ fromValue)) eqn:K; try discriminate; simpl;
    rewrite (convert_to_string _ _ _ HK); reflexivity.
Qed.

(** The string-to-boolean branch. *)
Lemma string_to_bool (fromValue0 : Value) (handle fromValue toValue : rvalue) :
  indirectValue fromValue0 = Some fromValue ->
  Kind_of (typ fromValue) = Kind.String ->
  indirectValue (Some handle) = Some toValue ->
  Kind_of (typ toValue) = Kind.Bool ->
  DefaultService_CopyValue rt g fromValue0 (Some handle)
  = match strconv.ParseBool (String_ fromValue) with
    | Some v =>
        x <- Set_ toValue (mkValue (typ toValue) (DBool v) false false) ;;
        Ok (true, Some (stored handle (dat x)))
    | None => Ok (false, Some handle)
    end.
Proof.
  intros HF HK HT HB. unfold DefaultService_CopyValue.
  rewrite HF, HT.
  destruct fromValue0 as [f0|]; [|discriminate]. simpl in HF, HT.
  rewrite (indirect_type _ _ _ _ _ HF), (indirect_type _ _ _ _ _ HT).
  rewrite AssignableTo_kind_neq by (rewrite ?HK, ?HB; discriminate).
  rewrite HK, HB. simpl kind_eqb. cbv iota.
  destruct (strconv.ParseBool _); [|reflexivity].
  rewrite (convert_to_bool _ _ _ HB). reflexivity.
Qed.

(** The string-to-float branch: the text is parsed as a float64 and
    converted to the destination type. *)
Lemma string_to_float (fromValue0 : Value) (handle fromValue toValue : rvalue) :
  indirectValue fromValue0 = Some fromValue ->
  Kind_of (typ fromValue) = Kind.String ->
  indirectValue (Some handle) = Some toValue ->
  is_float_kind (Kind_of (typ toValue)) = true ->
  DefaultService_CopyValue rt g fromValue0 (Some handle)
  = match ParseFloat rt (String_ fromValue) 64 with
    | Some v =>
        x <- Set_ toValue
               (mkValue (typ toValue) (makeFloat rt v (typ toValue))
                        false false) ;;
        Ok (true, Some (stored handle (dat x)))
    | None => Ok (false, Some handle)
    end.
Proof.
  intros HF HK HT HI. unfold DefaultService_CopyValue.
  rewrite HF, HT.
  destruct fromValue0 as [f0|]; [|discriminate]. simpl in HF, HT.
  rewrite (indirect_type _ _ _ _ _ HF), (indirect_type _ _ _ _ _ HT).
  rewrite AssignableTo_kind_neq
    by (rewrite ?HK; destruct (Kind_of (typ toValue)); discriminate).
  rewrite HK.
  destruct (Kind_of (typ toValue)) eqn:K; try discriminate; simpl;
    (destruct (ParseFloat rt _ 64); [|reflexivity]);
    rewrite convert_float64 by (rewrite K; reflexivity); reflexivity.
Qed.

End ScalarsAndStrings.

Lemma scalar_value_kind (t : type) (d : data) :
  scalar_value t d -> is_scalar_kind (Kind_of t) = true.
Proof.
  unfold scalar_value, is_scalar_kind.
  destruct d; try contradiction.
  - intros ->. reflexivity.
  - intros [H _]. rewrite H. now rewrite orb_true_r.
  - intros [H _]. rewrite H. now rewrite !orb_true_r.
  - intros H. rewrite H. now rewrite !orb_true_r.
Qed.

Lemma scalar_kind_not_pointer (k : kind) :
  is_scalar_kind k = true -> k <> Kind.Pointer.
Proof. destruct k; cbv; congruence. Qed.

Lemma String_of_string (ts : type) (s : string) :
  Kind_of ts = Kind.String -> String_ (value_of ts (DString s)) = s.
Proof. intros K. unfold String_. simpl. now rewrite K. Qed.

Lemma pow2_bits_le (k : kind) :
  2 ^ (bits_of k - 1) <= 2 ^ 63 /\ 2 ^ bits_of k <= 2 ^ 64 /\ 0 < bits_of k.
Proof.
  destruct (bits_of_cases k) as [E|[E|[E|E]]]; rewrite E;
    repeat split; try reflexivity; apply Z.leb_le; reflexivity.
Qed.

(** C5, as the code has it. A boolean or an integer copied into a string
    slot, and that string copied back into a slot of the original type,
    gives the original value.  A float is formatted at its own width, 32 or
    64 bits, but read back at 64 bits and then converted to its type: what
    comes back is that conversion of the float64 read, which is the original
    float64 whenever [ParseFloat] inverts [FormatFloat] (what [strconv]
    promises at 64 bits), and which for a float32 may be the neighbour of
    the original. *)
Theorem scalar_string_round_trip (rt : runtime) (g : globals)
  (t ts : type) (d : data) :
  scalar_value t d ->
  Kind_of ts = Kind.String ->
  let s := format_scalar rt (value_of t d) in
  let back :=
    DefaultService_CopyValue rt g
      (Some (value_of ts (DString s))) (Some (New_Elem t)) in
  DefaultService_CopyValue rt g (Some (value_of t d)) (Some (New_Elem ts))
  = Ok (true, Some (mkValue ts (DString s) true false))
  /\ (is_float_kind (Kind_of t) = false ->
      back = Ok (true, Some (mkValue t d true false)))
  /\ (is_float_kind (Kind_of t) = true ->
      back = match ParseFloat rt s 64 with
             | Some y => Ok (true, Some (mkValue t (makeFloat rt y t) true false))
             | None => Ok (false, Some (New_Elem t))
             end)
  /\ (Kind_of t = Kind.Float64 ->
      forall f, d = DFloat f ->
        ParseFloat rt (FormatFloat rt f "f" (-1) 64) 64 = Some f ->
        back = Ok (true, Some (mkValue t d true false))).
Proof.
  intros HV HKs s back.
  pose proof (scalar_value_kind t d HV) as HS.
  pose proof (scalar_kind_not_pointer _ HS) as HP.
  assert (HPs : Kind_of ts <> Kind.Pointer) by (rewrite HKs; discriminate).
  assert (HF : indirectValue (Some (value_of ts (DString s)))
               = Some (value_of ts (DString s)))
    by now apply indirectValue_not_pointer.
  assert (HT : indirectValue (Some (New_Elem t)) = Some (New_Elem t))
    by now apply indirectValue_not_pointer.
  assert (HFloat : is_float_kind (Kind_of t) = true ->
    back = match ParseFloat rt s 64 with
           | Some y => Ok (true, Some (mkValue t (makeFloat rt y t) true false))
           | None => Ok (false, Some (New_Elem t))
           end).
  { intros HK. unfold back.
    rewrite (string_to_float rt g _ _ _ _ HF HKs HT HK).
    rewrite String_of_string by exact HKs.
    destruct (ParseFloat rt s 64); [|reflexivity].
    rewrite Set_same_type by reflexivity. simpl.
    now rewrite stored_not_pointer. }
  split; [|split; [|split; [exact HFloat|]]].
  - rewrite (scalar_to_string rt g _ (New_Elem ts) (value_of t d) (New_Elem ts));
      auto using indirectValue_not_pointer.
    rewrite Set_same_type by reflexivity.
    simpl. now rewrite stored_not_pointer.
  - intros HNF. unfold back. unfold scalar_value in HV.
    destruct d; try contradiction.
    + (* bool *)
      rewrite (string_to_bool rt g _ _ _ _ HF HKs HT HV).
      rewrite String_of_string by exact HKs.
      unfold s, format_scalar. simpl typ. rewrite HV. simpl kind_eqb.
      cbv iota. unfold Bool_. simpl dat. rewrite ParseBool_FormatBool.
      rewrite Set_same_type by reflexivity. simpl.
      now rewrite stored_not_pointer.
    + (* signed *)
      destruct HV as [HI Hz].
      destruct (pow2_bits_le (Kind_of t)) as (B1 & B2 & B3).
      rewrite (string_to_int rt g _ _ _ _ HF HKs HT HI).
      rewrite String_of_string by exact HKs.
      unfold s, format_scalar. simpl typ. rewrite HI.
      replace (kind_eqb (Kind_of t) Kind.Bool) with false
        by (destruct (Kind_of t); try discriminate; reflexivity).
      unfold Int_. simpl dat. rewrite ParseInt_FormatInt by lia.
      rewrite Set_same_type by reflexivity. simpl.
      rewrite stored_not_pointer by exact HP. simpl.
      unfold makeInt. rewrite HI. now rewrite wrap_signed_in_range.
    + (* unsigned *)
      destruct HV as [HU Hz].
      destruct (pow2_bits_le (Kind_of t)) as (B1 & B2 & B3).
      rewrite (string_to_uint rt g _ _ _ _ HF HKs HT HU).
      rewrite String_of_string by exact HKs.
      unfold s, format_scalar. simpl typ. rewrite HU.
      replace (kind_eqb (Kind_of t) Kind.Bool) with false
        by (destruct (Kind_of t); try discriminate; reflexivity).
      replace (is_int_kind (Kind_of t)) with false
        by (destruct (Kind_of t); try discriminate; reflexivity).
      unfold Uint_. simpl dat. rewrite ParseUint_FormatUint by lia.
      rewrite Set_same_type by reflexivity. simpl.
      rewrite stored_not_pointer by exact HP. simpl.
      unfold makeInt.
      replace (is_int_kind (Kind_of t)) with false
        by (destruct (Kind_of t); try discriminate; reflexivity).
      unfold wrap_unsigned. now rewrite Z.mod_small.
    + congruence.
  - intros HK f -> HPF.
    rewrite HFloat by (rewrite HK; reflexivity).
    unfold s, format_scalar. simpl typ. rewrite HK. simpl.
    unfold Float_. simpl dat. cbv iota. rewrite HPF.
    unfold makeFloat. now rewrite HK.
Qed.

(** The integer 42 becomes the text ["42"], which parses back to 42. *)
Lemma scalar_string_round_trip_witness :
  DefaultService_CopyValue bare_runtime initial_globals
    (Some (value_of (TInt W0) (DInt 42))) (Some (New_Elem TString))
  = Ok (true, Some (mkValue TString (DString "42") true false))
  /\ DefaultService_CopyValue bare_runtime initial_globals
       (Some (value_of TString (DString "42"))) (Some (New_Elem (TInt W0)))
     = Ok (true, Some (mkValue (TInt W0) (DInt 42) true false)).
Proof.
  destruct (scalar_string_round_trip bare_runtime initial_globals
              (TInt W0) TString (DInt 42)) as (H1 & H2 & _).
  - split; [reflexivity|]. split; [apply Z.leb_le|apply Z.ltb_lt]; reflexivity.
  - reflexivity.
  - split; [exact H1|exact (H2 eq_refl)].
Defined.

(** *** The float32 that does not come back *)

(** The text is the decimal [7038531 / 10^32]; read at 32 bits it is [x]
    again, and no decimal with fewer digits is: a multiple of [10^-31] is
    further than half a unit in the last place from [x]. *)
Lemma IEEE_text_reads_back :
  IEEE.digits IEEE.text 0 0 false = Some (7038531, 32%nat)
  /\ IEEE.of_decimal 24 128 7038531 32 = IEEE.x.
Proof. split; vm_compute; reflexivity. Qed.

Lemma IEEE_text_is_shortest (a : Z) :
  10 ^ 31 < 2 * Z.abs (a * 2 ^ 107 - 11420669 * 10 ^ 31).
Proof.
  change (2 ^ 107) with 162259276829213363391578010288128.
  change (10 ^ 31) with 10000000000000000000000000000000.
  lia.
Qed.

(** Read at 64 bits the text is the float64 [22841339 * 2^-108], within
    half a unit in the last place of the decimal: exactly the midpoint of
    [x] and the next float32, [2 * 11420669 + 1] over [2^108]. *)
Lemma IEEE_text_at_64_bits :
  IEEE.parse IEEE.text 64
  = Some (S754_finite false (22841339 * 2 ^ 28) (-136))
  /\ 2 * Z.abs (7038531 * 2 ^ 136 - 22841339 * 2 ^ 28 * 10 ^ 32) <= 10 ^ 32
  /\ 22841339 = 2 * 11420669 + 1.
Proof.
  split; [vm_compute; reflexivity|].
  split; [|reflexivity].
  apply Z.leb_le. vm_compute. reflexivity.
Qed.

(** C5 as stated fails for float32: the text of [x], parsed at 64 bits and
    rounded to a float32, is the next float32, [0x15ae43fe]. *)
Lemma float32_round_trip_differs :
  DefaultService_CopyValue IEEE.runtime initial_globals
    (Some (value_of TFloat32 (DFloat IEEE.x))) (Some (New_Elem TString))
  = Ok (true, Some (mkValue TString (DString IEEE.text) true false))
  /\ DefaultService_CopyValue IEEE.runtime initial_globals
       (Some (value_of TString (DString IEEE.text)))
       (Some (New_Elem TFloat32))
     = Ok (true, Some (mkValue TFloat32
                         (DFloat (S754_finite false 11420670 (-107)))
                         true false))
  /\ S754_finite false 11420670 (-107) <> IEEE.x.
Proof.
  split; [vm_compute; reflexivity|].
  split; [vm_compute; reflexivity|discriminate].
Qed.

(** The examples of the round trip: 42 and true. *)
Example round_trip_42 :
  DefaultService_CopyValue bare_runtime initial_globals
    (Some (value_of (TInt W0) (DInt 42))) (Some (New_Elem TString))
  = Ok (true, Some (mkValue TString (DString "42") true false))
  /\ DefaultService_CopyValue bare_runtime initial_globals
       (Some (value_of TString (DString "42"))) (Some (New_Elem (TInt W0)))
     = Ok (true, Some (mkValue (TInt W0) (DInt 42) true false)).
Proof. split; reflexivity. Qed.

Example round_trip_true :
  DefaultService_CopyValue bare_runtime initial_globals
    (Some (value_of TBool (DBool true))) (Some (New_Elem TString))
  = Ok (true, Some (mkValue TString (DString "true") true false))
  /\ DefaultService_CopyValue bare_runtime initial_globals
       (Some (value_of TString (DString "true"))) (Some (New_Elem TBool))
     = Ok (true, Some (mkValue TBool (DBool true) true false)).
Proof. split; reflexivity. Qed.

(** ** [CopyValue] and panics *)

Lemma set_and_report_true (handle toValue : rvalue) (x : result rvalue) b v' :
  set_and_report handle toValue x = Ok (b, v') -> b = true.
Proof.
  unfold set_and_report. destruct x as [xv|]; simpl; [|discriminate].
  destruct (Set_ toValue xv); simpl; [|discriminate]. congruence.
Qed.

Lemma set_and_report_ok (handle toValue xv : rvalue) :
  CanSet toValue = true -> flagRO xv = false ->
  AssignableTo (typ xv) (typ toValue) = true ->
  exists d, set_and_report handle toValue (Ok xv)
            = Ok (true, Some (stored handle d)).
Proof.
  intros HS HR HA. destruct (Set_assignable _ _ HS HR HA) as [d E].
  exists d. unfold set_and_report. simpl. now rewrite E.
Qed.

Lemma AssignableTo_refl (t : type) : AssignableTo t t = true.
Proof. unfold AssignableTo. now rewrite directlyAssignable_refl. Qed.

Lemma Convert_ok (rt : runtime) (v : rvalue) (t : type) :
  ConvertibleTo (typ v) t = true ->
  exists d, Convert rt v t = Ok (mkValue t d false (flagRO v)).
Proof.
  unfold ConvertibleTo, Convert. destruct (convertOp t (typ v)); [|discriminate].
  intros _. eauto.
Qed.

(** A converted value goes into a settable slot of the type it was
    converted to. *)
Lemma set_and_report_converted (rt : runtime) (handle toValue v : rvalue) :
  CanSet toValue = true -> flagRO v = false ->
  ConvertibleTo (typ v) (typ toValue) = true ->
  exists d, set_and_report handle toValue (Convert rt v (typ toValue))
            = Ok (true, Some (stored handle d)).
Proof.
  intros HS HR HC. destruct (Convert_ok rt v _ HC) as [d E]. rewrite E.
  apply set_and_report_ok; auto. apply AssignableTo_refl.
Qed.

Lemma ConvertibleTo_string (t : type) :
  Kind_of t = Kind.String -> ConvertibleTo TString t = true.
Proof.
  intros K. unfold ConvertibleTo, convertOp, convertOp_tail. simpl Kind_of.
  rewrite K. simpl. unfold haveIdenticalUnderlyingType.
  now rewrite (underlying_String _ K).
Qed.

Lemma ConvertibleTo_bool (t : type) :
  Kind_of t = Kind.Bool -> ConvertibleTo TBool t = true.
Proof.
  intros K. unfold ConvertibleTo, convertOp, convertOp_tail. simpl Kind_of.
  rewrite K. simpl. unfold haveIdenticalUnderlyingType.
  now rewrite (underlying_Bool _ K).
Qed.

Ltac no_write :=
  eexists _, _; split; [reflexivity | intros _; reflexivity].

Ltac written rt HS :=
  match goal with
  | |- exists b v', set_and_report ?h ?tv (Convert _ ?v _) = Ok (b, v') /\ _ =>
      let d := fresh "d" in
      let E := fresh "E" in
      destruct (set_and_report_converted rt h tv v HS eq_refl) as [d E];
      [ | rewrite E; eexists _, _; split;
          [reflexivity | intros; discriminate] ]
  end.

(** [CopyValue] returns when its destination, unwrapped, can be set and its
    source, unwrapped, was not read through an unexported field. *)
Lemma CopyValue_returns (rt : runtime) (g : globals) (fromValue0 toValue0 : Value) :
  (forall fromValue, indirectValue fromValue0 = Some fromValue ->
                     flagRO fromValue = false) ->
  (forall toValue, indirectValue toValue0 = Some toValue ->
                   CanSet toValue = true) ->
  exists b v',
    DefaultService_CopyValue rt g fromValue0 toValue0 = Ok (b, v')
    /\ (b = false -> v' = toValue0).
Proof.
  intros HRO HSET. unfold DefaultService_CopyValue.
  destruct (indirectValue fromValue0) as [fv|] eqn:HF; [|no_write].
  destruct toValue0 as [h|];
    [|destruct (indirectValue None); no_write].
  destruct (indirectValue (Some h)) as [tv|] eqn:HT; [|no_write].
  specialize (HRO fv eq_refl). specialize (HSET tv eq_refl).
  destruct fromValue0 as [f0|]; [|discriminate]. simpl in HF, HT.
  rewrite (indirect_type _ _ _ _ _ HF), (indirect_type _ _ _ _ _ HT).
  cbv zeta.
  destruct (AssignableTo (typ fv) (typ tv)) eqn:HA.
  { destruct (set_and_report_ok h tv fv HSET HRO HA) as [d E].
    rewrite E. eexists _, _. split; [reflexivity|intros; discriminate]. }
  destruct (kind_eqb (Kind_of (typ tv)) Kind.String) eqn:KS.
  { apply kind_eqb_eq in KS.
    pose proof (ConvertibleTo_string _ KS) as HC.
    destruct (Kind_of (typ fv)); try no_write; try (written rt HSET; exact HC).
    destruct (CanInterface fv); [|no_write].
    destruct (type_eqb (typ fv) time_Time); [written rt HSET; exact HC|].
    destruct (is_Stringer (typ fv)); [written rt HSET; exact HC|no_write]. }
  destruct (kind_eqb (Kind_of (typ fv)) Kind.String) eqn:KF.
  { destruct (Kind_of (typ tv)) eqn:K; try no_write.
    - destruct (strconv.ParseBool _); [|no_write].
      written rt HSET. now apply ConvertibleTo_bool.
    - destruct (strconv.ParseInt _ _); [|no_write].
      written rt HSET. unfold ConvertibleTo, convertOp. simpl. now rewrite K.
    - destruct (strconv.ParseInt _ _); [|no_write].
      written rt HSET. unfold ConvertibleTo, convertOp. simpl. now rewrite K.
    - destruct (strconv.ParseInt _ _); [|no_write].
      written rt HSET. unfold ConvertibleTo, convertOp. simpl. now rewrite K.
    - destruct (strconv.ParseInt _ _); [|no_write].
      written rt HSET. unfold ConvertibleTo, convertOp. simpl. now rewrite K.
    - destruct (strconv.ParseInt _ _); [|no_write].
      written rt HSET. unfold ConvertibleTo, convertOp. simpl. now rewrite K.
    - destruct (strconv.ParseUint _ _); [|no_write].
      written rt HSET. unfold ConvertibleTo, convertOp. simpl. now rewrite K.
    - destruct (strconv.ParseUint _ _); [|no_write].
      written rt HSET. unfold ConvertibleTo, convertOp. simpl. now rewrite K.
    - destruct (strconv.ParseUint _ _); [|no_write].
      written rt HSET. unfold ConvertibleTo, convertOp. simpl. now rewrite K.
    - destruct (strconv.ParseUint _ _); [|no_write].
      written rt HSET. unfold ConvertibleTo, convertOp. simpl. now rewrite K.
    - destruct (strconv.ParseUint _ _); [|no_write].
      written rt HSET. unfold ConvertibleTo, convertOp. simpl. now rewrite K.
    - destruct (ParseFloat rt _ _); [|no_write].
      written rt HSET. unfold ConvertibleTo, convertOp. simpl. now rewrite K.
    - destruct (ParseFloat rt _ _); [|no_write].
      written rt HSET. unfold ConvertibleTo, convertOp. simpl. now rewrite K.
    - destruct (CanInterface (New_Elem (typ tv))); [|no_write].
      destruct (type_eqb (typ (New_Elem (typ tv))) time_Time) eqn:ET;
        [|no_write].
      destruct (ParseInLocation rt _ _ _);
        [|eexists _, _; split; [reflexivity|intros; discriminate]].
      apply type_eqb_eq in ET. simpl in ET.
      written rt HSET. rewrite ET. reflexivity. }
  destruct (CanConvert fv (typ tv)) eqn:HC; [|no_write].
  destruct (set_and_report_converted rt h tv fv HSET HRO HC) as [d E].
  rewrite E. eexists _, _. split; [reflexivity|intros; discriminate].
Qed.

Lemma set_and_report_handle (handle toValue : rvalue) (x : result rvalue) b v' :
  set_and_report handle toValue x = Ok (b, v') ->
  b = true /\ exists d, v' = Some (stored handle d).
Proof.
  unfold set_and_report. destruct x as [xv|]; simpl; [|discriminate].
  destruct (Set_ toValue xv); simpl; [|discriminate].
  intros H. inversion H; subst. eauto.
Qed.

(** Every way [CopyValue] returns: false with the destination handle as it
    was passed, or true with the handle holding new content (or, on the
    failed parse of a time, true with the handle as it was). *)
Lemma CopyValue_result (rt : runtime) (g : globals)
  (fromValue0 toValue0 : Value) b v' :
  DefaultService_CopyValue rt g fromValue0 toValue0 = Ok (b, v') ->
  v' = toValue0
  \/ (b = true /\ exists handle d, toValue0 = Some handle
                                   /\ v' = Some (stored handle d)).
Proof.
  unfold DefaultService_CopyValue. intros H.
  destruct (indirectValue fromValue0) as [fv|];
    [|inversion H; now left].
  destruct toValue0 as [h|];
    [|destruct (indirectValue None); inversion H; now left].
  destruct (indirectValue (Some h)) as [tv|]; [|inversion H; now left].
  cbv zeta in H.
  repeat match type of H with
         | context [if ?c then _ else _] => destruct c
         | context [match ?x with _ => _ end] => destruct x
         end;
    try (inversion H; now left);
    apply set_and_report_handle in H; destruct H as (-> & ? & ->);
    right; eauto.
Qed.

(** A call that reports false has written nothing. *)
Lemma CopyValue_false (rt : runtime) (g : globals)
  (fromValue0 toValue0 : Value) v' :
  DefaultService_CopyValue rt g fromValue0 toValue0 = Ok (false, v') ->
  v' = toValue0.
Proof.
  intros H. apply CopyValue_result in H as [H|[H _]]; congruence.
Qed.

(** The handle [CopyValue] returns is the one it was given, with new
    content at most. *)
Lemma CopyValue_handle (rt : runtime) (g : globals)
  (fromValue0 : Value) (handle : rvalue) b v' :
  DefaultService_CopyValue rt g fromValue0 (Some handle) = Ok (b, v') ->
  exists d, v' = Some (mkValue (typ handle) d (flagAddr handle) (flagRO handle)).
Proof.
  intros H. apply CopyValue_result in H as [H|(_ & h & d & E1 & E2)].
  - subst. exists (dat handle). now destruct handle.
  - inversion E1; subst. eexists. reflexivity.
Qed.

Lemma type_eqb_kind (a b : type) :
  type_eqb a b = true -> Kind_of a = Kind_of b.
Proof. intros H. apply type_eqb_eq in H. now subst. Qed.

Lemma CopyValue_on_nothing (rt : runtime) (g : globals) (fromValue toValue : Value) :
  indirectValue fromValue = None \/ indirectValue toValue = None ->
  DefaultService_CopyValue rt g fromValue toValue = Ok (false, toValue).
Proof.
  intros H. unfold DefaultService_CopyValue.
  destruct (indirectValue fromValue); [|reflexivity].
  destruct H as [H|H]; [discriminate|]. rewrite H.
  now destruct toValue.
Qed.


Lemma set_and_report_unsettable (handle toValue : rvalue)
  (x : result rvalue) :
  CanSet toValue = false -> exists m, set_and_report handle toValue x = Panic m.
Proof.
  intros HS. unfold set_and_report. destruct x as [xv|m]; simpl; [|eauto].
  unfold Set_. unfold CanSet in HS.
  destruct (flagRO toValue) eqn:ER; [eexists; reflexivity|].
  destruct (flagAddr toValue) eqn:EA; [discriminate HS|].
  eexists; reflexivity.
Qed.

Lemma set_and_report_settable (rt : runtime) (handle toValue v : rvalue) :
  CanSet toValue = true -> flagRO v = false ->
  ConvertibleTo (typ v) (typ toValue) = true ->
  exists v', set_and_report handle toValue (Convert rt v (typ toValue))
             = Ok (true, v').
Proof.
  intros HS HR HC.
  destruct (set_and_report_converted rt handle toValue v HS HR HC) as [d E].
  rewrite E. eauto.
Qed.

Ltac rule_writes rt HC :=
  split;
  [ intros HS HRO;
    match goal with
    | |- exists v', set_and_report ?h ?tv (Convert _ ?v _) = _ =>
        apply (set_and_report_settable rt h tv v HS eq_refl HC)
    end
  | intros HS; now apply set_and_report_unsettable ].

(** C7, as the code has it. [CopyValue] never looks at whether its
    destination can be set, and it raises in one situation only: it has a
    rule for the pair that writes, and the write is refused.  A source or
    destination that unwraps to nothing, and a pair it has no rule for, make
    it return false without raising, whether or not the destination can be
    set; a string that does not parse as a [time.Time] makes it return true
    without a write; where a rule writes, it returns true when the
    destination can be set and the source was not read through an unexported
    field, and it raises when the destination cannot be set. *)
Theorem CopyValue_when_it_raises (rt : runtime) (g : globals)
  (fromValue0 toValue0 : Value) :
  (indirectValue fromValue0 = None \/ indirectValue toValue0 = None ->
   DefaultService_CopyValue rt g fromValue0 toValue0 = Ok (false, toValue0))
  /\ forall fromValue toValue,
       indirectValue fromValue0 = Some fromValue ->
       indirectValue toValue0 = Some toValue ->
       match rule_for rt g fromValue (typ toValue) with
       | no_rule =>
           DefaultService_CopyValue rt g fromValue0 toValue0
           = Ok (false, toValue0)
       | unparsed_time =>
           DefaultService_CopyValue rt g fromValue0 toValue0
           = Ok (true, toValue0)
       | writes =>
           (CanSet toValue = true -> flagRO fromValue = false ->
            exists v',
              DefaultService_CopyValue rt g fromValue0 toValue0
              = Ok (true, v'))
           /\ (CanSet toValue = false ->
               exists m,
                 DefaultService_CopyValue rt g fromValue0 toValue0 = Panic m)
       end.
Proof.
  split; [apply CopyValue_on_nothing|].
  intros fv tv HF HT.
  destruct toValue0 as [h|]; [|discriminate].
  unfold DefaultService_CopyValue. rewrite HF, HT.
  destruct fromValue0 as [f0|]; [|discriminate]. simpl in HF, HT.
  rewrite (indirect_type _ _ _ _ _ HF), (indirect_type _ _ _ _ _ HT).
  unfold rule_for. cbv zeta.
  destruct (AssignableTo (typ fv) (typ tv)) eqn:HA.
  { split.
    - intros HS HRO. destruct (set_and_report_ok h tv fv HS HRO HA) as [d E].
      rewrite E. eauto.
    - intros HS. now apply set_and_report_unsettable. }
  destruct (kind_eqb (Kind_of (typ tv)) Kind.String) eqn:KS.
  { apply kind_eqb_eq in KS.
    pose proof (ConvertibleTo_string _ KS) as HC.
    unfold is_scalar_kind.
    destruct (Kind_of (typ fv)); simpl; try reflexivity;
      try (rule_writes rt HC).
    destruct (CanInterface fv); simpl; [|reflexivity].
    destruct (type_eqb (typ fv) time_Time); simpl; [rule_writes rt HC|].
    destruct (is_Stringer (typ fv)); simpl; [rule_writes rt HC|reflexivity]. }
  destruct (kind_eqb (Kind_of (typ fv)) Kind.String) eqn:KF.
  { assert (HTT : Kind_of (typ tv) <> Kind.Struct ->
                  type_eqb (typ tv) time_Time = false).
    { intros HN. destruct (type_eqb (typ tv) time_Time) eqn:ET;
        [|reflexivity].
      apply type_eqb_kind in ET. contradiction. }
    destruct (Kind_of (typ tv)) eqn:K; simpl;
      try (rewrite HTT by discriminate); try reflexivity.
    - destruct (strconv.ParseBool _); simpl; [|reflexivity].
      assert (HC : ConvertibleTo TBool (typ tv) = true)
        by now apply ConvertibleTo_bool.
      rule_writes rt HC.
    - destruct (strconv.ParseInt _ _); simpl; [|reflexivity].
      assert (HC : ConvertibleTo (TInt W64) (typ tv) = true)
        by (unfold ConvertibleTo, convertOp; simpl; now rewrite K).
      rule_writes rt HC.
    - destruct (strconv.ParseInt _ _); simpl; [|reflexivity].
      assert (HC : ConvertibleTo (TInt W64) (typ tv) = true)
        by (unfold ConvertibleTo, convertOp; simpl; now rewrite K).
      rule_writes rt HC.
    - destruct (strconv.ParseInt _ _); simpl; [|reflexivity].
      assert (HC : ConvertibleTo (TInt W64) (typ tv) = true)
        by (unfold ConvertibleTo, convertOp; simpl; now rewrite K).
      rule_writes rt HC.
    - destruct (strconv.ParseInt _ _); simpl; [|reflexivity].
      assert (HC : ConvertibleTo (TInt W64) (typ tv) = true)
        by (unfold ConvertibleTo, convertOp; simpl; now rewrite K).
      rule_writes rt HC.
    - destruct (strconv.ParseInt _ _); simpl; [|reflexivity].
      assert (HC : ConvertibleTo (TInt W64) (typ tv) = true)
        by (unfold ConvertibleTo, convertOp; simpl; now rewrite K).
      rule_writes rt HC.
    - destruct (strconv.ParseUint _ _); simpl; [|reflexivity].
      assert (HC : ConvertibleTo (TUint W64) (typ tv) = true)
        by (unfold ConvertibleTo, convertOp; simpl; now rewrite K).
      rule_writes rt HC.
    - destruct (strconv.ParseUint _ _); simpl; [|reflexivity].
      assert (HC : ConvertibleTo (TUint W64) (typ tv) = true)
        by (unfold ConvertibleTo, convertOp; simpl; now rewrite K).
      rule_writes rt HC.
    - destruct (strconv.ParseUint _ _); simpl; [|reflexivity].
      assert (HC : ConvertibleTo (TUint W64) (typ tv) = true)
        by (unfold ConvertibleTo, convertOp; simpl; now rewrite K).
      rule_writes rt HC.
    - destruct (strconv.ParseUint _ _); simpl; [|reflexivity].
      assert (HC : ConvertibleTo (TUint W64) (typ tv) = true)
        by (unfold ConvertibleTo, convertOp; simpl; now rewrite K).
      rule_writes rt HC.
    - destruct (strconv.ParseUint _ _); simpl; [|reflexivity].
      assert (HC : ConvertibleTo (TUint W64) (typ tv) = true)
        by (unfold ConvertibleTo, convertOp; simpl; now rewrite K).
      rule_writes rt HC.
    - destruct (ParseFloat rt _ _); simpl; [|reflexivity].
      assert (HC : ConvertibleTo TFloat64 (typ tv) = true)
        by (unfold ConvertibleTo, convertOp; simpl; now rewrite K).
      rule_writes rt HC.
    - destruct (ParseFloat rt _ _); simpl; [|reflexivity].
      assert (HC : ConvertibleTo TFloat64 (typ tv) = true)
        by (unfold ConvertibleTo, convertOp; simpl; now rewrite K).
      rule_writes rt HC.
    - destruct (type_eqb (typ tv) time_Time) eqn:ET; [|reflexivity].
      destruct (ParseInLocation rt _ _ _); simpl; [|reflexivity].
      apply type_eqb_eq in ET.
      assert (HC : ConvertibleTo time_Time (typ tv) = true)
        by (rewrite ET; reflexivity).
      rule_writes rt HC. }
  destruct (CanConvert fv (typ tv)) eqn:HC; unfold CanConvert in HC;
    rewrite HC; [|reflexivity].
  split.
  - intros HS HRO.
    destruct (set_and_report_converted rt h tv fv HS HRO HC) as [d E].
    rewrite E. eauto.
  - intros HS. now apply set_and_report_unsettable.
Qed.

(** C7 as stated fails: on a destination that cannot be set, here the
    [reflect.ValueOf] of an [int], a convertible pair makes [CopyValue]
    panic instead of returning false. *)
Lemma CopyValue_unsettable_panics :
  DefaultService_CopyValue bare_runtime initial_globals
    (ValueOf (Some (TInt W0, DInt 1))) (ValueOf (Some (TInt W0, DInt 2)))
  = Panic "reflect: reflect.Value.Set using unaddressable value".
Proof. reflexivity. Qed.

(** ** The driver *)

(** [Copy] once both arguments are unwrapped. *)
Lemma Copy_unwrapped (svc : Service) (fromT toT : type) (fromD toD : data)
  (fromValue toValue : rvalue) :
  Kind_of toT = Kind.Pointer ->
  indirectValue (ValueOf (Some (fromT, fromD))) = Some fromValue ->
  indirectValue (ValueOf (Some (toT, toD))) = Some toValue ->
  @Copy svc (Some (fromT, fromD)) (Some (toT, toD))
  = (Some (toT, store toT toD (dat (fst (copy_shapes fromValue toValue)))),
     snd (copy_shapes fromValue toValue)).
Proof.
  intros HK HF HT. unfold Copy. cbv zeta.
  change (IsValid (ValueOf (Some (fromT, fromD)))) with true.
  change (Type_ (ValueOf (Some (toT, toD)))) with (Ok toT).
  cbv iota. simpl negb at 1. cbv iota.
  rewrite HK. simpl kind_eqb. simpl negb. cbv iota.
  rewrite HF, HT. simpl Type_. cbv iota.
  now destruct (copy_shapes fromValue toValue).
Qed.

(** What the two unwrapped arguments of [Copy] are like: the source was
    not read through an unexported field, the destination can be set. *)
Lemma Copy_handles (fromT toT : type) (fromD toD : data)
  (fromValue toValue : rvalue) :
  Kind_of toT = Kind.Pointer ->
  indirectValue (ValueOf (Some (fromT, fromD))) = Some fromValue ->
  indirectValue (ValueOf (Some (toT, toD))) = Some toValue ->
  flagRO fromValue = false /\ CanSet toValue = true
  /\ indirectType (typ fromValue) = typ fromValue
  /\ indirectType (typ toValue) = typ toValue.
Proof.
  intros HK HF HT. simpl in HF, HT.
  pose proof (indirect_spec _ _ _ _ _ HF) as (F1 & F2 & F3).
  pose proof (indirect_spec _ _ _ _ _ HT) as (T1 & T2 & T3).
  unfold CanSet. rewrite T2, T3 by auto.
  repeat split; auto using indirectType_not_pointer.
Qed.

Lemma converted_length (svc : Service) fromValue toType (l : list data) :
  (List.length (converted svc fromValue toType l) <= List.length l)%nat.
Proof.
  induction l as [|x r IH]; simpl; [lia|].
  destruct (CopyValue _ _) as [[[|] [v'|]]|]; simpl; lia.
Qed.

Section SliceToSlice.

Variable rt : runtime.
Variable g : globals.

Let svc : Service := CopyService rt g.

(** The slice-to-slice loop: it returns, and the destination has grown by
    the converted elements. *)
Lemma slice_loop (fromValue : rvalue) (toType : type) (l : list data) :
  flagRO fromValue = false ->
  forall toValue initial,
    CanSet toValue = true -> typ toValue = toType ->
    dat toValue = DSlice initial ->
    for_each (@copy_element svc fromValue toType) l toValue
    = (mkValue toType
         (DSlice (initial ++ converted svc fromValue toType l)) true false,
       Returned).
Proof.
  intros HRO. induction l as [|x r IH]; intros tv initial HS HT HD.
  - simpl. rewrite app_nil_r. unfold CanSet in HS.
    apply andb_prop in HS as [HA HR]. apply negb_true_iff in HR.
    destruct tv; simpl in *. now subst.
  - cbn [for_each converted]. unfold copy_element at 1.
    destruct (CopyValue_returns rt g (Some (Index fromValue x))
                (Some (New_Elem (Elem_of toType)))) as (b & v' & E & _).
    { intros fv H. simpl in H. apply indirect_spec in H.
      destruct H as (_ & H & _). now rewrite H. }
    { intros tv' H. simpl in H. apply indirect_spec in H.
      destruct H as (_ & H2 & H3). unfold CanSet. now rewrite H2, H3 by auto. }
    change (@CopyValue svc) with (DefaultService_CopyValue rt g).
    rewrite E.
    destruct (CopyValue_handle rt g _ _ _ _ E) as [d Ed]. subst v'.
    destruct b.
    + unfold after, Append, elements. pose proof HS as HS'.
      unfold CanSet in HS'.
      apply andb_prop in HS' as [HA HR]. apply negb_true_iff in HR.
      rewrite HR. simpl flagRO. cbv iota. unfold assignTo. simpl typ.
      rewrite HT, directlyAssignable_refl. simpl bind. rewrite HD.
      rewrite Set_same_type by (auto; simpl; congruence).
      unfold step. simpl dat.
      rewrite (IH _ (initial ++ [d])%list); simpl; auto.
      now rewrite <- app_assoc.
    + apply IH; auto.
Qed.

End SliceToSlice.

(** C3, as the code has it. A copy of a slice into another slice (source
    and destination sharing no memory) returns; it runs [CopyValue] on each
    source element in order, on a fresh zero slot of the destination's
    element type, and appends the slot to the destination exactly when the
    call reports true: an element for which it reports false is dropped,
    and a string that does not parse as a [time.Time], for which it reports
    true without a write, is appended as the zero time.  The elements are
    appended to what the destination already holds: at most as many as the
    source has, so the final length is at most the initial length plus the
    source's. *)
Theorem slice_copy_appends (rt : runtime) (g : globals)
  (fromT toT : type) (fromD toD : data) (fromValue toValue : rvalue)
  (initial : list data) :
  Kind_of toT = Kind.Pointer ->
  indirectValue (ValueOf (Some (fromT, fromD))) = Some fromValue ->
  indirectValue (ValueOf (Some (toT, toD))) = Some toValue ->
  Kind_of (typ fromValue) = Kind.Slice ->
  Kind_of (typ toValue) = Kind.Slice ->
  dat toValue = DSlice initial ->
  let appended :=
    converted (CopyService rt g) fromValue (typ toValue) (elements fromValue) in
  @Copy (CopyService rt g) (Some (fromT, fromD)) (Some (toT, toD))
  = (Some (toT, store toT toD (DSlice (initial ++ appended))), Returned)
  /\ (List.length appended <= List.length (elements fromValue))%nat
  /\ (List.length (initial ++ appended)
      <= List.length initial + List.length (elements fromValue))%nat.
Proof.
  intros HK HF HT HKF HKT HD appended.
  destruct (Copy_handles _ _ _ _ _ _ HK HF HT) as (HRO & HS & HIF & HIT).
  pose proof (converted_length (CopyService rt g) fromValue (typ toValue)
                (elements fromValue)) as HL.
  subst appended.
  split; [|split; [exact HL|rewrite length_app; lia]].
  rewrite (Copy_unwrapped _ _ _ _ _ _ _ HK HF HT).
  unfold copy_shapes. rewrite HIF, HIT, HKF, HKT. simpl kind_eqb.
  cbv iota. simpl andb. cbv iota.
  rewrite (slice_loop rt g fromValue (typ toValue) _ HRO toValue initial HS
             eq_refl HD).
  reflexivity.
Qed.

(** The example of the specification: ["1", "x", "3"] into an empty slice
    of integers gives [1, 3]. *)
Lemma slice_copy_appends_witness :
  Copy0 (Some (TSlice TString, DSlice [DString "1"; DString "x"; DString "3"]))
        (pointer_to (TSlice (TInt W0)) (DSlice []))
  = (pointer_to (TSlice (TInt W0)) (DSlice [DInt 1; DInt 3]), Returned)
  /\ (2 <= 3)%nat /\ (2 <= 0 + 3)%nat.
Proof.
  exact (slice_copy_appends bare_runtime initial_globals
           (TSlice TString) (TPtr (TSlice (TInt W0)))
           (DSlice [DString "1"; DString "x"; DString "3"])
           (DPtr (Some (DSlice [])))
           (value_of (TSlice TString)
              (DSlice [DString "1"; DString "x"; DString "3"]))
           (mkValue (TSlice (TInt W0)) (DSlice []) true false)
           [] eq_refl eq_refl eq_refl eq_refl eq_refl eq_refl).
Defined.

(** A string that is no date is not dropped: the slot goes in as it is. *)
Example slice_copy_appends_unparsed_time :
  Copy0 (Some (TSlice TString, DSlice [DString "not a date"]))
        (pointer_to (TSlice time_Time) (DSlice []))
  = (pointer_to (TSlice time_Time) (DSlice [zero time_Time]), Returned).
Proof. reflexivity. Qed.

(** C3 as stated fails: the destination keeps what it holds, so two
    converted elements appended to a slice of two make four, more than the
    three of the source. *)
Lemma slice_copy_longer_than_source :
  Copy0 (Some (TSlice TString, DSlice [DString "1"; DString "x"; DString "3"]))
        (pointer_to (TSlice (TInt W0)) (DSlice [DInt 7; DInt 8]))
  = (pointer_to (TSlice (TInt W0)) (DSlice [DInt 7; DInt 8; DInt 1; DInt 3]),
     Returned)
  /\ ~ (List.length [DInt 7; DInt 8; DInt 1; DInt 3]
        <= List.length [DString "1"; DString "x"; DString "3"])%nat.
Proof. split; [reflexivity|simpl; lia]. Qed.

(** ** Map destinations *)

Lemma for_each_invariant {A : Type} (P : rvalue -> Prop)
  (body : A -> rvalue -> rvalue * outcome) (l : list A) :
  (forall x tv tv' o, In x l -> P tv -> body x tv = (tv', o) -> P tv') ->
  forall tv tv' o, P tv -> for_each body l tv = (tv', o) -> P tv'.
Proof.
  induction l as [|x r IH]; intros Hbody tv tv' o HP H; simpl in H.
  - inversion H. now subst.
  - destruct (body x tv) as [tv1 [|m]] eqn:E.
    + apply (IH (fun y a b c Hy => Hbody y a b c (or_intror Hy)) tv1 tv' o);
        auto.
      apply (Hbody x tv tv1 Returned); simpl; auto.
    + inversion H; subst. apply (Hbody x tv tv' (Panicked m)); simpl; auto.
Qed.

Lemma map_insert_In (k v : data) (m : list (data * data)) (e : data * data) :
  In e (map_insert k v m) -> e = (k, v) \/ In e m.
Proof.
  induction m as [|[k' v'] r IH]; simpl.
  - intros [H|[]]. now left.
  - destruct (key_eqb k' k); simpl.
    + intros [H|H]; auto.
    + intros [H|H]; auto. destruct (IH H); auto.
Qed.

Lemma step_cases (tv : rvalue) (r : result rvalue) tv' o :
  step tv r = (tv', o) -> tv' = tv \/ r = Ok tv'.
Proof.
  destruct r; simpl; intros H; inversion H; auto.
Qed.

(** ** Hashing a key *)

Lemma unhashable_eq (t : type) (d : data) :
  unhashable t d
  = match Kind_of t with
    | Kind.Interface =>
        match d with
        | DIface (Some (t', d')) =>
            if comparable t' then unhashable t' d' else Some t'
        | _ => None
        end
    | Kind.Struct =>
        match d with
        | DStruct ds =>
            (fix fields (fs : list (string * type)) (l : list data)
               {struct l} : option type :=
               match fs, l with
               | (n, ft) :: fs', x :: l' =>
                   if String.eqb n "_" then fields fs' l'
                   else match unhashable ft x with
                        | Some u => Some u
                        | None => fields fs' l'
                        end
               | _, _ => None
               end) (fields_of t) ds
        | _ => None
        end
    | Kind.Slice | Kind.Map => Some t
    | _ => None
    end.
Proof. destruct d; reflexivity. Qed.

Lemma always_hashable_facts (t : type) :
  always_hashable t = true ->
  Kind_of t <> Kind.Interface /\ Kind_of t <> Kind.Slice
  /\ Kind_of t <> Kind.Map
  /\ forallb (fun f : string * type => always_hashable (snd f)) (fields_of t)
     = true.
Proof.
  induction t; simpl; intros H; try discriminate;
    try (repeat split; (discriminate || reflexivity)).
  - destruct w; repeat split; (discriminate || reflexivity).
  - destruct w; repeat split; (discriminate || reflexivity).
  - repeat split; try discriminate. exact H.
  - exact (IHt H).
Qed.

(** A key of a type without interfaces always hashes. *)
Lemma always_hashable_hashes : forall (d : data) (t : type),
  always_hashable t = true -> unhashable t d = None.
Proof.
  fix IH 1. intros d t H.
  destruct (always_hashable_facts t H) as (K1 & K2 & K3 & HF).
  rewrite unhashable_eq.
  destruct d; destruct (Kind_of t); try reflexivity; try congruence.
  revert HF. generalize (fields_of t).
  induction fs as [|x l IHl]; intros [|[n ft] fs'] HF; try reflexivity.
  simpl in HF. apply andb_prop in HF as [H1 H2].
  destruct (String.eqb n "_"); [now apply IHl|].
  rewrite (IH x ft H1). now apply IHl.
Qed.

Lemma plain_key_hashable (t : type) :
  plain_key t = true -> always_hashable t = true.
Proof.
  induction t as [| | | | | | |e IHe|e IHe|k e IHk IHe|fs IHfs|n s u IHu]
    using type_induction; simpl; intros HP;
    try discriminate; try reflexivity; auto.
  induction fs as [|f r IHr]; [reflexivity|].
  simpl in HP |- *. apply andb_prop in HP as [H1 H2].
  apply andb_prop in H1 as [_ H1].
  inversion IHfs as [|? ? Hf Hr]; subst.
  rewrite (Hf H1). simpl. now apply IHr.
Qed.

Lemma plain_key_not_pointer (t : type) :
  plain_key t = true -> Kind_of t <> Kind.Pointer.
Proof.
  induction t; simpl; intros H; try discriminate; auto.
  - destruct w; discriminate.
  - destruct w; discriminate.
Qed.

Section IntoMaps.

Variable rt : runtime.
Variable g : globals.

Let svc : Service := CopyService rt g.

(** One round of a loop into a map: the map keeps its type, and an entry
    it has afterwards was there before or is the pair just converted. *)
Lemma copy_entry_spec (fromKey fromElem : Value) (toValue toValue' : rvalue) o :
  @copy_entry svc fromKey fromElem (typ toValue) toValue = (toValue', o) ->
  typ toValue' = typ toValue
  /\ forall k v, In (k, v) (entries toValue') ->
       In (k, v) (entries toValue)
       \/ both_converted svc (typ toValue) (fromKey, fromElem) k v.
Proof.
  unfold copy_entry, both_converted.
  change (@CopyValue svc) with (DefaultService_CopyValue rt g). simpl fst.
  simpl snd.
  destruct (DefaultService_CopyValue rt g fromKey _) as [[bk k']|] eqn:EK;
    [|intros H; inversion H; subst; auto].
  destruct bk; [|intros H; inversion H; subst; auto].
  destruct (DefaultService_CopyValue rt g fromElem _) as [[bv v']|] eqn:EV;
    [|intros H; inversion H; subst; auto].
  destruct bv; [|intros H; inversion H; subst; auto].
  destruct (CopyValue_handle rt g _ _ _ _ EK) as [dk ->].
  destruct (CopyValue_handle rt g _ _ _ _ EV) as [dv ->].
  simpl typ. simpl flagAddr. simpl flagRO.
  intros H. apply step_cases in H as [->|H]; [auto|].
  unfold SetMapIndex, after, assignTo in H. simpl in H.
  destruct (flagRO toValue); simpl in H; [discriminate|].
  rewrite !directlyAssignable_refl in H. simpl in H.
  destruct (dat toValue) as [| | | | | | |  |[m|]|] eqn:D; try discriminate.
  destruct (unhashable _ _); [discriminate|].
  inversion H; subst. simpl. split; [reflexivity|].
  intros k v Hin. unfold entries in *. simpl in Hin. rewrite D.
  apply map_insert_In in Hin as [Hin|Hin]; [|auto].
  inversion Hin; subst. auto.
Qed.

(** Making the map when it is nil adds no entry. *)
Lemma make_if_nil_spec (toValue toValue' : rvalue) o :
  make_if_nil (typ toValue) toValue = (toValue', o) ->
  typ toValue' = typ toValue
  /\ forall e, In e (entries toValue') -> In e (entries toValue).
Proof.
  unfold make_if_nil. destruct (IsNil toValue).
  - intros H. apply step_cases in H as [->|H]; [auto|].
    unfold Set_, assignTo, MakeMap in H. simpl in H.
    destruct (flagRO toValue); [discriminate|].
    destruct (negb (flagAddr toValue)); [discriminate|].
    simpl in H. rewrite directlyAssignable_refl in H. simpl in H.
    inversion H; subst. simpl. split; [reflexivity|]. intros e [].
  - intros H. inversion H; subst. auto.
Qed.

(** The two loops into a map, after the map was made: the entries the map
    has in the end were there before or come from a source pair both of
    whose conversions reported true. *)
Lemma map_loop_spec {A : Type} (pair : A -> Value * Value) (l : list A)
  (toType : type) (toValue toValue' : rvalue) o :
  typ toValue = toType ->
  for_each (fun x => @copy_entry svc (fst (pair x)) (snd (pair x)) toType)
    l toValue = (toValue', o) ->
  typ toValue' = toType
  /\ forall k v, In (k, v) (entries toValue') ->
       In (k, v) (entries toValue)
       \/ exists p, In p (map pair l) /\ both_converted svc toType p k v.
Proof.
  intros HT H.
  eapply (for_each_invariant
            (fun tv => typ tv = toType
                       /\ forall k v, In (k, v) (entries tv) ->
                            In (k, v) (entries toValue)
                            \/ exists p, In p (map pair l)
                                         /\ both_converted svc toType p k v));
    [ | | exact H]; [|auto].
  intros x tv tv' o' Hx [HTy HP] Hb. rewrite <- HTy in Hb.
  apply copy_entry_spec in Hb as [HT' HE]. split; [congruence|].
  intros k v Hin. destruct (HE k v Hin) as [Hold|Hnew]; [auto|].
  right. exists (pair x). split; [now apply in_map|].
  rewrite <- HTy. now destruct (pair x).
Qed.

End IntoMaps.

(** C2, as the code has it. A copy of a map or of a struct into a map,
    however it ends: every entry the destination map has afterwards was in
    it before the call, or is the result of a source pair (an entry of the
    source map, or the name and value of a source field) for which both
    calls of [CopyValue], on the key and on the value, reported true.  A
    pair one of whose calls reported false is not written.  A call that
    reported true need not have converted anything: a string that does not
    parse as a [time.Time] is reported true without a write, and the pair is
    stored with the zero time. *)
Theorem map_entries_need_both (rt : runtime) (g : globals)
  (fromT toT : type) (fromD toD : data) (fromValue toValue : rvalue) :
  Kind_of toT = Kind.Pointer ->
  indirectValue (ValueOf (Some (fromT, fromD))) = Some fromValue ->
  indirectValue (ValueOf (Some (toT, toD))) = Some toValue ->
  Kind_of (typ toValue) = Kind.Map ->
  Kind_of (typ fromValue) = Kind.Map \/ Kind_of (typ fromValue) = Kind.Struct ->
  exists toValue',
    destination_after
      (@Copy (CopyService rt g) (Some (fromT, fromD)) (Some (toT, toD)))
    = Some toValue'
    /\ typ toValue' = typ toValue
    /\ forall k v, In (k, v) (entries toValue') ->
         In (k, v) (entries toValue)
         \/ exists pair, In pair (source_pairs fromValue)
                         /\ both_converted (CopyService rt g) (typ toValue)
                              pair k v.
Proof.
  intros HK HF HT HKT HKF.
  destruct (Copy_handles _ _ _ _ _ _ HK HF HT) as (HRO & HS & HIF & HIT).
  unfold destination_after.
  rewrite (Copy_unwrapped _ _ _ _ _ _ _ HK HF HT). simpl fst.
  simpl in HT. simpl indirectValue.
  rewrite (indirect_store _ _ _ _ _ _ HT).
  eexists. split; [reflexivity|]. simpl typ.
  assert (Hshape :
    typ (fst (@copy_shapes (CopyService rt g) fromValue toValue)) = typ toValue
    /\ forall k v,
         In (k, v)
            (entries (fst (@copy_shapes (CopyService rt g) fromValue toValue))) ->
         In (k, v) (entries toValue)
         \/ exists pair, In pair (source_pairs fromValue)
                         /\ both_converted (CopyService rt g) (typ toValue)
                              pair k v).
  { unfold copy_shapes, source_pairs. rewrite HIF, HIT, HKT.
    destruct HKF as [HKF|HKF]; rewrite HKF; simpl kind_eqb; simpl andb;
      cbv iota;
      destruct (make_if_nil (typ toValue) toValue) as [tv1 [|m]] eqn:EM;
      apply make_if_nil_spec in EM as [HT1 HE1];
      try (simpl; split; [exact HT1|intros k v Hin; left; now apply HE1]).
    - destruct (for_each _ (entries fromValue) tv1) as [tv2 o2] eqn:EL.
      apply (map_loop_spec rt g
               (fun kv : data * data =>
                  (Some (MapKey fromValue (fst kv)),
                   Some (MapValue fromValue (snd kv))))) in EL as [HT2 HE2];
        [|exact HT1].
      simpl. split; [exact HT2|]. intros k v Hin.
      destruct (HE2 k v Hin) as [Hold|Hnew]; [left; now apply HE1|now right].
    - destruct (for_each _ (fields_of (typ fromValue)) tv1) as [tv2 o2] eqn:EL.
      apply (map_loop_spec rt g
               (fun fromField : string * type =>
                  (Some (value_of TString (DString (fst fromField))),
                   FieldByName fromValue (fst fromField)))) in EL as [HT2 HE2];
        [|exact HT1].
      simpl. split; [exact HT2|]. intros k v Hin.
      destruct (HE2 k v Hin) as [Hold|Hnew]; [left; now apply HE1|now right]. }
  destruct Hshape as [_ HE]. split; [reflexivity|exact HE].
Qed.

(** A map of strings into a map of integers. *)
Lemma map_entries_need_both_witness :
  exists toValue',
    destination_after
      (Copy0 (Some (TMap TString TString,
                    DMap (Some [(DString "a", DString "1");
                                (DString "b", DString "x")])))
             (pointer_to (TMap TString (TInt W0)) (DMap None)))
    = Some toValue'
    /\ typ toValue' = TMap TString (TInt W0)
    /\ forall k v, In (k, v) (entries toValue') ->
         In (k, v) []
         \/ exists pair,
              In pair
                 (source_pairs
                    (value_of (TMap TString TString)
                       (DMap (Some [(DString "a", DString "1");
                                    (DString "b", DString "x")]))))
              /\ both_converted (CopyService bare_runtime initial_globals)
                   (TMap TString (TInt W0)) pair k v.
Proof.
  exact (map_entries_need_both bare_runtime initial_globals
           (TMap TString TString) (TPtr (TMap TString (TInt W0)))
           (DMap (Some [(DString "a", DString "1");
                        (DString "b", DString "x")]))
           (DPtr (Some (DMap None)))
           (value_of (TMap TString TString)
              (DMap (Some [(DString "a", DString "1");
                           (DString "b", DString "x")])))
           (mkValue (TMap TString (TInt W0)) (DMap None) true false)
           eq_refl eq_refl eq_refl eq_refl (or_introl eq_refl)).
Defined.

(** The entry whose value does not convert is left out, in both copies
    into a map. *)
(** C2 as stated fails: the value ["not a date"] does not convert to a
    [time.Time], yet its key is in the destination afterwards, with the
    zero time. *)
Lemma map_copy_stores_unparsed_time :
  ParseInLocation bare_runtime (DateTimeLayout initial_globals) "not a date"
    (getTimeZone bare_runtime initial_globals) = None
  /\ Copy0 (Some (TMap TString TString,
                  DMap (Some [(DString "k", DString "not a date")])))
           (pointer_to (TMap TString time_Time) (DMap None))
     = (pointer_to (TMap TString time_Time)
          (DMap (Some [(DString "k", zero time_Time)])), Returned).
Proof. split; reflexivity. Qed.

Example map_copy_drops_entry :
  Copy0 (Some (TMap TString TString,
               DMap (Some [(DString "a", DString "1");
                           (DString "b", DString "x")])))
        (pointer_to (TMap TString (TInt W0)) (DMap None))
  = (pointer_to (TMap TString (TInt W0))
       (DMap (Some [(DString "a", DInt 1)])), Returned).
Proof. reflexivity. Qed.

Example struct_copy_drops_field :
  Copy0 (Some (TStruct [("Name", TString); ("Age", TInt W0)],
               DStruct [DString "A"; DInt 7]))
        (pointer_to (TMap TString TBool) (DMap None))
  = (pointer_to (TMap TString TBool) (DMap (Some [])), Returned).
Proof. reflexivity. Qed.

(** ** The guards of [Copy] *)

(** C6, on the code. [Copy] does nothing when the source is the nil
    interface, and nothing when the destination is not a pointer; but the
    kind of the destination is read through [toValue.Type()], so a nil
    destination with a valid source makes [Copy] panic. *)
Theorem Copy_guards (svc : Service) :
  (forall to, @Copy svc None to = (to, Returned))
  /\ (forall from t d,
         Kind_of t <> Kind.Pointer ->
         @Copy svc from (Some (t, d)) = (Some (t, d), Returned))
  /\ (forall t d,
         @Copy svc (Some (t, d)) None
         = (None, Panicked "reflect: call of reflect.Value.Type on zero Value")).
Proof.
  split; [reflexivity|]. split; [|reflexivity].
  intros from t d HK. unfold Copy. cbv zeta.
  destruct (negb (IsValid (ValueOf from))); [reflexivity|].
  change (Type_ (ValueOf (Some (t, d)))) with (Ok t). cbv iota.
  now rewrite (kind_eqb_neq _ _ HK).
Qed.

(** Other ways [Copy] panics: a nil pointer as destination, a nil pointer
    as source, and an unexported source field on the way into a map. *)
Example Copy_nil_pointer_destination :
  Copy0 (Some (TInt W0, DInt 1)) (Some (TPtr (TInt W0), DPtr None))
  = (Some (TPtr (TInt W0), DPtr None),
     Panicked "reflect: call of reflect.Value.Type on zero Value").
Proof. reflexivity. Qed.

Example Copy_nil_pointer_source :
  Copy0 (Some (TPtr (TInt W0), DPtr None)) (pointer_to (TInt W0) (DInt 0))
  = (pointer_to (TInt W0) (DInt 0),
     Panicked "reflect: call of reflect.Value.Type on zero Value").
Proof. reflexivity. Qed.

Example Copy_unexported_field_into_map :
  Copy0 (Some (TStruct [("name", TString)], DStruct [DString "A"]))
        (pointer_to (TMap TString TString) (DMap None))
  = (pointer_to (TMap TString TString) (DMap (Some [])),
     Panicked "reflect: reflect.Value.Set using value obtained using unexported field").
Proof. reflexivity. Qed.

(** ** Struct to struct *)

(** C4, on the code. The nil pointer field is given
    [reflect.New(indirectType(toField.Type))], a pointer to the innermost
    type: for a field of type [**int] that is a [*int], which [Set]
    refuses, and [Copy] panics with the field still nil. *)
Theorem struct_copy_pointer_to_pointer_field :
  Copy0 (Some (TStruct [("P", TInt W0)], DStruct [DInt 1]))
        (pointer_to (TStruct [("P", TPtr (TPtr (TInt W0)))])
           (DStruct [DPtr None]))
  = (pointer_to (TStruct [("P", TPtr (TPtr (TInt W0)))]) (DStruct [DPtr None]),
     Panicked "reflect.Set: value of type *int is not assignable to type **int").
Proof. reflexivity. Qed.

(** The example of the specification: [{Name: "A", Extra: 1}] into a
    [{Name string; Other int}]; and a nil [*string] field is allocated. *)
Example struct_copy_by_name_example :
  Copy0 (Some (TStruct [("Name", TString); ("Extra", TInt W0)],
               DStruct [DString "A"; DInt 1]))
        (pointer_to (TStruct [("Name", TString); ("Other", TInt W0)])
           (DStruct [DString ""; DInt 0]))
  = (pointer_to (TStruct [("Name", TString); ("Other", TInt W0)])
       (DStruct [DString "A"; DInt 0]), Returned).
Proof. reflexivity. Qed.

Example struct_copy_allocates_pointer :
  Copy0 (Some (TStruct [("Name", TString)], DStruct [DString "A"]))
        (pointer_to (TStruct [("Other", TInt W0); ("Name", TPtr TString)])
           (DStruct [DInt 5; DPtr None]))
  = (pointer_to (TStruct [("Other", TInt W0); ("Name", TPtr TString)])
       (DStruct [DInt 5; DPtr (Some (DString "A"))]), Returned).
Proof. reflexivity. Qed.

Lemma lookup_field_nth (name : string) (fs : list (string * type)) :
  forall k i t, lookup_field name fs k = Some (i, t) ->
    (k <= i)%nat /\ nth_error fs (i - k) = Some (name, t).
Proof.
  induction fs as [|[n ft] r IH]; intros k i t H; simpl in H; [discriminate|].
  destruct (String.eqb n name) eqn:E.
  - inversion H; subst. apply String.eqb_eq in E. subst.
    rewrite Nat.sub_diag. auto.
  - apply IH in H as [H1 H2]. split; [lia|].
    replace (i - k)%nat with (S (i - S k)) by lia. exact H2.
Qed.

Lemma replace_nth_length (i : nat) (d : data) (l : list data) :
  List.length (replace_nth i d l) = List.length l.
Proof.
  revert i. induction l as [|x r IH]; intros [|i]; simpl; auto.
Qed.

Lemma replace_nth_other (i j : nat) (d : data) (l : list data) :
  i <> j -> nth_error (replace_nth i d l) j = nth_error l j.
Proof.
  revert i j. induction l as [|x r IH]; intros [|i] [|j] H; simpl; auto.
  contradiction.
Qed.

(** What a round of the struct loops may do to the destination: nothing, or
    replace the field the name designates, an exported one. *)
Lemma copy_into_field_spec (svc : Service) (name : string) (fromFieldValue : Value)
  (toValue toValue' : rvalue) o :
  @copy_into_field svc name fromFieldValue (typ toValue) toValue
  = (toValue', o) ->
  toValue' = toValue
  \/ exists i ft d,
       nth_error (fields_of (typ toValue)) i = Some (name, ft)
       /\ IsExported name = true
       /\ (toValue' = set_field toValue i d
           \/ exists d', toValue' = set_field (set_field toValue i d') i d).
Proof.
  unfold copy_into_field, Type_FieldByName.
  destruct (String.eqb name ""); [intros H; inversion H; auto|].
  destruct (lookup_field name (fields_of (typ toValue)) 0) as [[i ft]|] eqn:EL;
    [|intros H; inversion H; auto].
  apply lookup_field_nth in EL as [_ EL]. rewrite Nat.sub_0_r in EL.
  unfold FieldByName, Type_FieldByName.
  destruct (String.eqb name ""); [intros H; inversion H; auto|].
  destruct (lookup_field name (fields_of (typ toValue)) 0) as [[i' ft']|];
    [|intros H; inversion H; auto].
  destruct (dat toValue) eqn:ED; try (intros H; inversion H; now auto).
  destruct (CanSet _) eqn:ES; simpl negb; cbv iota;
    [|intros H; inversion H; auto].
  assert (HX : IsExported name = true).
  { unfold CanSet in ES. simpl in ES. apply andb_prop in ES as [_ ES].
    apply negb_true_iff, orb_false_elim in ES as [_ ES].
    now apply negb_false_iff in ES. }
  match goal with
  | |- context [match ?a with Ok _ => _ | Panic _ => _ end] => destruct a
  end; [|intros H; inversion H; auto].
  destruct (CopyValue _ _) as [[b v']|]; intros H; inversion H; subst;
    right; exists i, ft; eexists; (split; [exact EL|]); (split; [exact HX|]).
  - right. eexists. reflexivity.
  - left. reflexivity.
Qed.

(** X2. Between struct types without embedded fields, their field names
    in ASCII: a struct-to-struct copy, however it ends, leaves alone every
    destination field that is not exported or whose name no source field
    has: the fields are matched by name, and only fields that can be set
    are written.  (Through an embedded field Go's [FieldByName] reaches the
    fields of the inner struct, which this model of structs leaves out.) *)
Theorem struct_copy_frame (svc : Service)
  (fromT toT : type) (fromD toD : data) (fromValue toValue : rvalue)
  (fs : list data) :
  Kind_of toT = Kind.Pointer ->
  indirectValue (ValueOf (Some (fromT, fromD))) = Some fromValue ->
  indirectValue (ValueOf (Some (toT, toD))) = Some toValue ->
  Kind_of (typ fromValue) = Kind.Struct ->
  Kind_of (typ toValue) = Kind.Struct ->
  dat toValue = DStruct fs ->
  exists toValue' fs',
    destination_after (@Copy svc (Some (fromT, fromD)) (Some (toT, toD)))
    = Some toValue'
    /\ typ toValue' = typ toValue
    /\ dat toValue' = DStruct fs'
    /\ List.length fs' = List.length fs
    /\ forall j name ft,
         nth_error (fields_of (typ toValue)) j = Some (name, ft) ->
         ~ In name (map fst (fields_of (typ fromValue)))
         \/ IsExported name = false ->
         nth_error fs' j = nth_error fs j.
Proof.
  intros HK HF HT HKF HKT HD.
  destruct (Copy_handles _ _ _ _ _ _ HK HF HT) as (HRO & HS & HIF & HIT).
  unfold destination_after.
  rewrite (Copy_unwrapped _ _ _ _ _ _ _ HK HF HT). simpl fst.
  simpl in HT. simpl indirectValue.
  rewrite (indirect_store _ _ _ _ _ _ HT).
  unfold copy_shapes. rewrite HIF, HIT, HKF, HKT. simpl kind_eqb.
  simpl andb. cbv iota.
  set (P := fun tv : rvalue =>
    typ tv = typ toValue
    /\ exists fs', dat tv = DStruct fs'
         /\ List.length fs' = List.length fs
         /\ forall j name ft,
              nth_error (fields_of (typ toValue)) j = Some (name, ft) ->
              ~ In name (map fst (fields_of (typ fromValue)))
              \/ IsExported name = false ->
              nth_error fs' j = nth_error fs j).
  destruct (for_each _ (fields_of (typ fromValue)) toValue) as [tv' o] eqn:EL.
  assert (HP : P tv').
  { eapply (for_each_invariant P); [ | | exact EL].
    - intros x tv tv1 o1 Hx (HTy & fs1 & HD1 & HL1 & HF1) Hb.
      rewrite <- HTy in Hb. apply copy_into_field_spec in Hb.
      destruct Hb as [->|(i & ft & d & Hn & HX & Hset)].
      { split; [exact HTy|]. now exists fs1. }
      assert (Hi : forall j name ft',
                 nth_error (fields_of (typ toValue)) j = Some (name, ft') ->
                 ~ In name (map fst (fields_of (typ fromValue)))
                 \/ IsExported name = false -> i <> j).
      { intros j name ft' Hj Hc ->. rewrite HTy in Hn. rewrite Hn in Hj.
        inversion Hj; subst. destruct Hc as [Hc|Hc]; [|congruence].
        apply Hc. now apply (in_map fst) in Hx. }
      unfold set_field in Hset. rewrite HD1 in Hset. simpl in Hset.
      destruct Hset as [->|(d' & ->)]; simpl; (split; [exact HTy|]);
        eexists; (split; [reflexivity|]);
        rewrite ?replace_nth_length; (split; [exact HL1|]);
        intros j name ft' Hj Hc; rewrite ?replace_nth_other by eauto; eauto.
    - split; [reflexivity|]. now exists fs. }
  destruct HP as (HTy & fs' & HD' & HL' & HF').
  eexists _, fs'. simpl. split; [reflexivity|]. simpl. auto.
Qed.

(** The example of the specification, where [Other], which the source does
    not have, keeps its value. *)
Lemma struct_copy_frame_witness :
  exists toValue' fs',
    destination_after
      (Copy0 (Some (TStruct [("Name", TString); ("Extra", TInt W0)],
                    DStruct [DString "A"; DInt 1]))
             (pointer_to (TStruct [("Name", TString); ("Other", TInt W0)])
                (DStruct [DString ""; DInt 0])))
    = Some toValue'
    /\ typ toValue' = TStruct [("Name", TString); ("Other", TInt W0)]
    /\ dat toValue' = DStruct fs'
    /\ List.length fs' = 2%nat
    /\ forall j name ft,
         nth_error [("Name", TString); ("Other", TInt W0)] j = Some (name, ft) ->
         ~ In name ["Name"; "Extra"] \/ IsExported name = false ->
         nth_error fs' j = nth_error [DString ""; DInt 0] j.
Proof.
  exact (struct_copy_frame (CopyService bare_runtime initial_globals)
           (TStruct [("Name", TString); ("Extra", TInt W0)])
           (TPtr (TStruct [("Name", TString); ("Other", TInt W0)]))
           (DStruct [DString "A"; DInt 1])
           (DPtr (Some (DStruct [DString ""; DInt 0])))
           (value_of (TStruct [("Name", TString); ("Extra", TInt W0)])
              (DStruct [DString "A"; DInt 1]))
           (mkValue (TStruct [("Name", TString); ("Other", TInt W0)])
              (DStruct [DString ""; DInt 0]) true false)
           [DString ""; DInt 0]
           eq_refl eq_refl eq_refl eq_refl eq_refl eq_refl).
Defined.

(** ** Floats into strings *)

(** X1. A float copied into a settable string: the text is
    [strconv.FormatFloat(f, 'f', -1, bitSize)] with the bit size of the
    source's kind, 32 for a float32 and 64 for a float64. *)
Theorem float_to_string (rt : runtime) (g : globals)
  (fromValue0 : Value) (handle fromValue toValue : rvalue) :
  indirectValue fromValue0 = Some fromValue ->
  is_float_kind (Kind_of (typ fromValue)) = true ->
  indirectValue (Some handle) = Some toValue ->
  Kind_of (typ toValue) = Kind.String ->
  CanSet toValue = true ->
  DefaultService_CopyValue rt g fromValue0 (Some handle)
  = Ok (true,
        Some (stored handle
                (DString (FormatFloat rt (Float_ fromValue) "f" (-1)
                            (if kind_eqb (Kind_of (typ fromValue)) Kind.Float32
                             then 32 else 64))))).
Proof.
  intros HF HK HT HS HC.
  assert (HSc : is_scalar_kind (Kind_of (typ fromValue)) = true)
    by (unfold is_scalar_kind; rewrite HK; now rewrite !orb_true_r).
  rewrite (scalar_to_string rt g _ _ _ _ HF HSc HT HS).
  rewrite Set_same_type by auto. simpl. unfold format_scalar.
  destruct (Kind_of (typ fromValue)); try discriminate; reflexivity.
Qed.

Lemma float_to_string_witness :
  DefaultService_CopyValue bare_runtime initial_globals
    (Some (value_of TFloat32 (DFloat (S754_zero false))))
    (Some (New_Elem TString))
  = Ok (true,
        Some (mkValue TString
                (DString (FormatFloat bare_runtime (S754_zero false) "f" (-1) 32))
                true false)).
Proof.
  exact (float_to_string bare_runtime initial_globals
           (Some (value_of TFloat32 (DFloat (S754_zero false))))
           (New_Elem TString)
           (value_of TFloat32 (DFloat (S754_zero false)))
           (New_Elem TString)
           eq_refl eq_refl eq_refl eq_refl eq_refl).
Defined.

(** * Further properties of the code *)

(** ** The two unwrapping loops *)


Lemma indirect_idempotent (d : data) t addr ro r :
  indirect t d addr ro = Some r -> indirectValue (Some r) = Some r.
Proof.
  intros H. apply indirect_spec in H as (H & _).
  now apply indirectValue_not_pointer.
Qed.

(** X4. [indirectValue] ends on the zero Value (a nil pointer was met) or
    on a value that is not a pointer; applied to its own result it changes
    nothing; and the value it reaches is read-only exactly when the value it
    started from is. *)
Theorem indirectValue_reaches_base (v : Value) :
  Kind (indirectValue v) <> Kind.Pointer
  /\ indirectValue (indirectValue v) = indirectValue v
  /\ (forall r0 r, v = Some r0 -> indirectValue v = Some r ->
                   flagRO r = flagRO r0).
Proof.
  destruct v as [r0|]; simpl.
  - destruct (indirect (typ r0) (dat r0) (flagAddr r0) (flagRO r0))
      as [r|] eqn:E.
    + pose proof (indirect_spec _ _ _ _ _ E) as (H1 & H2 & _).
      split; [exact H1|]. split; [now apply (indirect_idempotent _ _ _ _ _ E)|].
      intros r1 r' H H'. inversion H; inversion H'; subst. exact H2.
    + simpl. split; [discriminate|]. split; [reflexivity|discriminate].
  - split; [discriminate|]. split; [reflexivity|discriminate].
Qed.

(** ** [CopyValue]: values that unwrap to nothing *)

(** X5. When the source or the destination unwraps to the zero Value (it is
    the zero Value, or a nil pointer is met on the way), [CopyValue] returns
    false and the destination handle is as it was. *)
Theorem CopyValue_invalid (rt : runtime) (g : globals) (fromValue toValue : Value) :
  indirectValue fromValue = None \/ indirectValue toValue = None ->
  DefaultService_CopyValue rt g fromValue toValue = Ok (false, toValue).
Proof. apply CopyValue_on_nothing. Qed.

(** A nil [*int] as source, and a nil [*int] slot as destination. *)
Lemma CopyValue_invalid_witness :
  DefaultService_CopyValue bare_runtime initial_globals
    (Some (value_of (TPtr (TInt W0)) (DPtr None))) (Some (New_Elem (TInt W0)))
  = Ok (false, Some (New_Elem (TInt W0)))
  /\ DefaultService_CopyValue bare_runtime initial_globals
       (Some (value_of (TInt W0) (DInt 1))) (Some (New_Elem (TPtr (TInt W0))))
     = Ok (false, Some (New_Elem (TPtr (TInt W0)))).
Proof.
  split.
  - apply (CopyValue_invalid bare_runtime initial_globals
             (Some (value_of (TPtr (TInt W0)) (DPtr None)))
             (Some (New_Elem (TInt W0)))).
    left. reflexivity.
  - apply (CopyValue_invalid bare_runtime initial_globals
             (Some (value_of (TInt W0) (DInt 1)))
             (Some (New_Elem (TPtr (TInt W0))))).
    right. reflexivity.
Defined.

(** The zero value of a pointer type is the nil pointer, so a fresh slot of
    a pointer type unwraps to nothing. *)
Lemma zero_pointer (t : type) :
  Kind_of t = Kind.Pointer -> zero t = DPtr None.
Proof.
  induction t; simpl; intros H; try discriminate; auto;
    destruct w; discriminate.
Qed.

Lemma New_Elem_pointer_invalid (t : type) :
  Kind_of t = Kind.Pointer -> indirectValue (Some (New_Elem t)) = None.
Proof.
  intros H. simpl. rewrite (zero_pointer _ H). simpl. now rewrite H.
Qed.

(** ** [Copy]: nil pointers *)

(** X6. With a valid source and a pointer as destination, [Copy] panics
    whenever one of the two unwraps to nothing, that is whenever the source
    or the destination is, or leads through, a nil pointer: the type of the
    unwrapped value is read without a check.  The destination is left as it
    was. *)
Theorem Copy_nil_pointer_panics (svc : Service)
  (fromT toT : type) (fromD toD : data) :
  Kind_of toT = Kind.Pointer ->
  indirectValue (ValueOf (Some (fromT, fromD))) = None
  \/ indirectValue (ValueOf (Some (toT, toD))) = None ->
  @Copy svc (Some (fromT, fromD)) (Some (toT, toD))
  = (Some (toT, toD),
     Panicked "reflect: call of reflect.Value.Type on zero Value").
Proof.
  intros HK H. unfold Copy. cbv zeta.
  change (IsValid (ValueOf (Some (fromT, fromD)))) with true.
  change (Type_ (ValueOf (Some (toT, toD)))) with (Ok toT).
  cbv iota. simpl negb at 1. cbv iota.
  rewrite HK. simpl kind_eqb. simpl negb. cbv iota.
  destruct H as [H|H]; rewrite H; [reflexivity|].
  destruct (indirectValue (ValueOf (Some (fromT, fromD)))); reflexivity.
Qed.

(** A pointer to a nil pointer as destination. *)
Lemma Copy_nil_pointer_panics_witness :
  Copy0 (Some (TInt W0, DInt 1))
        (pointer_to (TPtr (TInt W0)) (DPtr None))
  = (pointer_to (TPtr (TInt W0)) (DPtr None),
     Panicked "reflect: call of reflect.Value.Type on zero Value").
Proof.
  apply (Copy_nil_pointer_panics (CopyService bare_runtime initial_globals)
           (TInt W0) (TPtr (TPtr (TInt W0))) (DInt 1)
           (DPtr (Some (DPtr None))) eq_refl).
  right. reflexivity.
Defined.

(** ** [Copy]: destinations whose elements are pointers *)

Lemma converted_into_pointers (rt : runtime) (g : globals)
  (fromValue : rvalue) (toType : type) (l : list data) :
  Kind_of (Elem_of toType) = Kind.Pointer ->
  converted (CopyService rt g) fromValue toType l = [].
Proof.
  intros HK. induction l as [|x r IH]; [reflexivity|].
  cbn [converted].
  change (@CopyValue (CopyService rt g)) with (DefaultService_CopyValue rt g).
  rewrite CopyValue_on_nothing
    by (right; now apply New_Elem_pointer_invalid).
  exact IH.
Qed.

(** What the destination argument unwraps to after [Copy]: the unwrapped
    destination with the content the dispatch left. *)
Lemma Copy_destination_after (svc : Service) (fromT toT : type)
  (fromD toD : data) (fromValue toValue : rvalue) :
  Kind_of toT = Kind.Pointer ->
  indirectValue (ValueOf (Some (fromT, fromD))) = Some fromValue ->
  indirectValue (ValueOf (Some (toT, toD))) = Some toValue ->
  destination_after (@Copy svc (Some (fromT, fromD)) (Some (toT, toD)))
  = Some (mkValue (typ toValue)
            (dat (fst (@copy_shapes svc fromValue toValue)))
            (flagAddr toValue) (flagRO toValue)).
Proof.
  intros HK HF HT. unfold destination_after.
  rewrite (Copy_unwrapped _ _ _ _ _ _ _ HK HF HT). simpl fst.
  simpl in HT. simpl indirectValue.
  now rewrite (indirect_store _ _ _ _ _ _ HT).
Qed.

(** X7. A slice whose element type is a pointer never receives an element:
    the fresh slot is a nil pointer, which [CopyValue] cannot write through,
    so every element is skipped and [Copy] returns with the destination
    untouched. *)
Theorem slice_of_pointers_gains_nothing (rt : runtime) (g : globals)
  (fromT toT : type) (fromD toD : data) (fromValue toValue : rvalue)
  (initial : list data) :
  Kind_of toT = Kind.Pointer ->
  indirectValue (ValueOf (Some (fromT, fromD))) = Some fromValue ->
  indirectValue (ValueOf (Some (toT, toD))) = Some toValue ->
  Kind_of (typ fromValue) = Kind.Slice ->
  Kind_of (typ toValue) = Kind.Slice ->
  dat toValue = DSlice initial ->
  Kind_of (Elem_of (typ toValue)) = Kind.Pointer ->
  @Copy (CopyService rt g) (Some (fromT, fromD)) (Some (toT, toD))
  = (Some (toT, toD), Returned).
Proof.
  intros HK HF HT HKF HKT HD HP.
  destruct (Copy_handles _ _ _ _ _ _ HK HF HT) as (HRO & HS & HIF & HIT).
  rewrite (Copy_unwrapped _ _ _ _ _ _ _ HK HF HT).
  unfold copy_shapes. rewrite HIF, HIT, HKF, HKT. simpl kind_eqb.
  cbv iota. simpl andb. cbv iota.
  rewrite (slice_loop rt g fromValue (typ toValue) _ HRO toValue initial HS
             eq_refl HD).
  rewrite converted_into_pointers by exact HP. rewrite app_nil_r.
  simpl. rewrite <- HD. simpl in HT. now rewrite (store_same _ _ _ _ _ HT).
Qed.

(** A slice of [int] into a slice of [*int]. *)
Lemma slice_of_pointers_gains_nothing_witness :
  Copy0 (Some (TSlice (TInt W0), DSlice [DInt 1; DInt 2]))
        (pointer_to (TSlice (TPtr (TInt W0))) (DSlice []))
  = (pointer_to (TSlice (TPtr (TInt W0))) (DSlice []), Returned).
Proof.
  exact (slice_of_pointers_gains_nothing bare_runtime initial_globals
           (TSlice (TInt W0)) (TPtr (TSlice (TPtr (TInt W0))))
           (DSlice [DInt 1; DInt 2]) (DPtr (Some (DSlice [])))
           (value_of (TSlice (TInt W0)) (DSlice [DInt 1; DInt 2]))
           (mkValue (TSlice (TPtr (TInt W0))) (DSlice []) true false)
           [] eq_refl eq_refl eq_refl eq_refl eq_refl eq_refl eq_refl).
Defined.

(** ** [Copy]: more on map destinations *)

Lemma for_each_returns {A : Type} (P : rvalue -> Prop)
  (body : A -> rvalue -> rvalue * outcome) (l : list A) :
  (forall x tv, In x l -> P tv ->
                exists tv', body x tv = (tv', Returned) /\ P tv') ->
  forall tv, P tv -> exists tv', for_each body l tv = (tv', Returned) /\ P tv'.
Proof.
  induction l as [|x r IH]; intros Hbody tv HP; simpl.
  - eauto.
  - destruct (Hbody x tv (or_introl eq_refl) HP) as (tv1 & E & HP1).
    rewrite E. apply IH; auto. intros y tv2 Hy. apply Hbody. now right.
Qed.

Section MoreIntoMaps.

Variable rt : runtime.
Variable g : globals.

Let svc : Service := CopyService rt g.

(** One round of a loop into a map leaves the map as it is or stores the
    pair just converted. *)
Lemma copy_entry_cases (fromKey fromElem : Value) (toValue toValue' : rvalue) o :
  @copy_entry svc fromKey fromElem (typ toValue) toValue = (toValue', o) ->
  toValue' = toValue
  \/ exists k v m,
       both_converted svc (typ toValue) (fromKey, fromElem) k v
       /\ dat toValue = DMap (Some m)
       /\ toValue' = mkValue (typ toValue) (DMap (Some (map_insert k v m)))
                       (flagAddr toValue) (flagRO toValue).
Proof.
  unfold copy_entry, both_converted.
  change (@CopyValue svc) with (DefaultService_CopyValue rt g). simpl fst.
  simpl snd.
  destruct (DefaultService_CopyValue rt g fromKey _) as [[bk k']|] eqn:EK;
    [|intros H; inversion H; subst; auto].
  destruct bk; [|intros H; inversion H; subst; auto].
  destruct (DefaultService_CopyValue rt g fromElem _) as [[bv v']|] eqn:EV;
    [|intros H; inversion H; subst; auto].
  destruct bv; [|intros H; inversion H; subst; auto].
  destruct (CopyValue_handle rt g _ _ _ _ EK) as [dk ->].
  destruct (CopyValue_handle rt g _ _ _ _ EV) as [dv ->].
  simpl typ. simpl flagAddr. simpl flagRO.
  intros H. apply step_cases in H as [->|H]; [auto|].
  unfold SetMapIndex, after, assignTo in H. simpl in H.
  destruct (flagRO toValue) eqn:ER; simpl in H; [discriminate|].
  rewrite !directlyAssignable_refl in H. simpl in H.
  destruct (dat toValue) as [| | | | | | |  |[m|]|] eqn:D; try discriminate.
  destruct (unhashable _ _); [discriminate|].
  inversion H; subst. right. exists dk, dv, m. auto.
Qed.

(** One round returns when neither the pair nor the map was read through
    an unexported field and the map is made. *)
Lemma copy_entry_returns (fromKey fromElem : Value) (toValue : rvalue) m :
  (forall r, indirectValue fromKey = Some r -> flagRO r = false) ->
  (forall r, indirectValue fromElem = Some r -> flagRO r = false) ->
  always_hashable (Key_of (typ toValue)) = true ->
  flagRO toValue = false -> dat toValue = DMap (Some m) ->
  exists toValue',
    @copy_entry svc fromKey fromElem (typ toValue) toValue
    = (toValue', Returned)
    /\ typ toValue' = typ toValue /\ flagRO toValue' = false
    /\ exists m', dat toValue' = DMap (Some m').
Proof.
  intros HK HE HH HR HD. unfold copy_entry.
  change (@CopyValue svc) with (DefaultService_CopyValue rt g).
  assert (fresh : forall t tv, indirectValue (Some (New_Elem t)) = Some tv ->
                               CanSet tv = true).
  { intros t tv H. simpl in H. apply indirect_spec in H.
    destruct H as (_ & H2 & H3). unfold CanSet. now rewrite H2, H3 by auto. }
  destruct (CopyValue_returns rt g fromKey
              (Some (New_Elem (Key_of (typ toValue)))) HK (fresh _))
    as (bk & k' & EK & _).
  rewrite EK. destruct bk; [|eauto 8].
  destruct (CopyValue_returns rt g fromElem
              (Some (New_Elem (Elem_of (typ toValue)))) HE (fresh _))
    as (bv & v' & EV & _).
  rewrite EV. destruct bv; [|eauto 8].
  destruct (CopyValue_handle rt g _ _ _ _ EK) as [dk ->].
  destruct (CopyValue_handle rt g _ _ _ _ EV) as [dv ->].
  unfold SetMapIndex, after, assignTo. simpl. rewrite HR. simpl.
  rewrite !directlyAssignable_refl. simpl. rewrite HD.
  rewrite (always_hashable_hashes _ _ HH). simpl.
  eexists. split; [reflexivity|]. simpl. eauto.
Qed.

Lemma make_if_nil_cases (toValue toValue' : rvalue) o :
  make_if_nil (typ toValue) toValue = (toValue', o) ->
  toValue' = toValue
  \/ (IsNil toValue = true
      /\ toValue' = mkValue (typ toValue) (DMap (Some []))
                      (flagAddr toValue) (flagRO toValue)).
Proof.
  unfold make_if_nil. destruct (IsNil toValue) eqn:EN.
  - intros H. apply step_cases in H as [->|H]; [auto|].
    unfold Set_, assignTo, MakeMap in H. simpl in H.
    destruct (flagRO toValue); [discriminate|].
    destruct (negb (flagAddr toValue)); [discriminate|].
    simpl in H. rewrite directlyAssignable_refl in H. simpl in H.
    inversion H; subst. auto.
  - intros H. inversion H; subst. auto.
Qed.

Lemma make_if_nil_returns (toValue : rvalue) mo :
  CanSet toValue = true -> dat toValue = DMap mo ->
  exists toValue' m,
    make_if_nil (typ toValue) toValue = (toValue', Returned)
    /\ typ toValue' = typ toValue /\ flagRO toValue' = false
    /\ dat toValue' = DMap (Some m).
Proof.
  intros HS HD. pose proof HS as HS'. unfold CanSet in HS'.
  apply andb_prop in HS' as [HA HR]. apply negb_true_iff in HR.
  unfold make_if_nil, IsNil. rewrite HD. destruct mo as [m|].
  - exists toValue, m. auto.
  - rewrite Set_same_type by auto. simpl. eexists _, []. simpl.
    rewrite HR. auto.
Qed.

(** The pairs of a struct or map source, as the loops take them. *)
Lemma copy_shapes_into_map_unfold (fromValue toValue : rvalue) :
  indirectType (typ fromValue) = typ fromValue ->
  indirectType (typ toValue) = typ toValue ->
  Kind_of (typ toValue) = Kind.Map ->
  Kind_of (typ fromValue) = Kind.Map \/ Kind_of (typ fromValue) = Kind.Struct ->
  @copy_shapes svc fromValue toValue
  = match make_if_nil (typ toValue) toValue with
    | (tv, Panicked m) => (tv, Panicked m)
    | (tv, Returned) =>
        for_each (fun p : Value * Value =>
                    @copy_entry svc (fst p) (snd p) (typ toValue))
                 (source_pairs fromValue) tv
    end.
Proof.
  intros HIF HIT HKT HKF. unfold copy_shapes, source_pairs.
  rewrite HIF, HIT, HKT.
  assert (map_for_each : forall (A : Type) (f : A -> Value * Value) l tv,
             for_each (fun x : A =>
                         @copy_entry svc (fst (f x)) (snd (f x)) (typ toValue))
                      l tv
             = for_each (fun p : Value * Value =>
                           @copy_entry svc (fst p) (snd p) (typ toValue))
                        (map f l) tv).
  { intros A f l. induction l as [|x r IH]; intros tv; simpl; [reflexivity|].
    destruct (copy_entry _ _ _ tv) as [tv1 [|m]]; [apply IH|reflexivity]. }
  destruct HKF as [HKF|HKF]; rewrite HKF; simpl kind_eqb; simpl andb;
    cbv iota; destruct (make_if_nil _ _) as [tv [|m]]; try reflexivity;
    rewrite <- map_for_each; reflexivity.
Qed.

End MoreIntoMaps.

Lemma map_insert_keeps (k v k0 v0 : data) (m : list (data * data)) :
  key_eqb k0 k = false -> In (k0, v0) m -> In (k0, v0) (map_insert k v m).
Proof.
  intros HE. induction m as [|[k' v'] r IH]; simpl; [contradiction|].
  intros [H|H].
  - inversion H; subst. rewrite HE. now left.
  - destruct (key_eqb k' k); simpl; auto.
Qed.

Lemma indirectValue_keeps_RO (r0 r : rvalue) :
  indirectValue (Some r0) = Some r -> flagRO r = flagRO r0.
Proof. simpl. intros H. now apply indirect_spec in H. Qed.

(** The handles of the source pairs: of a map, never read-only when the map
    is not; of a struct, when in addition every field is exported. *)
Lemma source_pairs_readable (fromValue : rvalue) (p : Value * Value) :
  flagRO fromValue = false ->
  Kind_of (typ fromValue) = Kind.Map
  \/ (Kind_of (typ fromValue) = Kind.Struct
      /\ forallb IsExported (map fst (fields_of (typ fromValue))) = true) ->
  In p (source_pairs fromValue) ->
  (forall r, indirectValue (fst p) = Some r -> flagRO r = false)
  /\ (forall r, indirectValue (snd p) = Some r -> flagRO r = false).
Proof.
  intros HRO HK. unfold source_pairs.
  destruct HK as [HK|[HK HX]]; rewrite HK; intros Hin;
    apply in_map_iff in Hin as (x & <- & Hx); simpl fst; simpl snd.
  - split; intros r H; apply indirectValue_keeps_RO in H;
      simpl in H; congruence.
  - split; intros r H.
    + apply indirectValue_keeps_RO in H. exact H.
    + unfold FieldByName in H.
      destruct (Type_FieldByName _ _) as [[i ft]|]; [|discriminate].
      destruct (dat fromValue); try discriminate.
      apply indirectValue_keeps_RO in H. simpl in H. rewrite H, HRO. simpl.
      apply negb_false_iff.
      rewrite forallb_forall in HX. apply HX. now apply in_map.
Qed.

(** X8. A map whose key type or element type is a pointer never receives
    an entry, from a map or from a struct: one of the two fresh slots is a
    nil pointer, for which [CopyValue] reports false.  However the call
    ends, the entries the map has afterwards are entries it had. *)
Theorem map_of_pointers_gains_nothing (rt : runtime) (g : globals)
  (fromT toT : type) (fromD toD : data) (fromValue toValue : rvalue) :
  Kind_of toT = Kind.Pointer ->
  indirectValue (ValueOf (Some (fromT, fromD))) = Some fromValue ->
  indirectValue (ValueOf (Some (toT, toD))) = Some toValue ->
  Kind_of (typ toValue) = Kind.Map ->
  Kind_of (typ fromValue) = Kind.Map \/ Kind_of (typ fromValue) = Kind.Struct ->
  Kind_of (Key_of (typ toValue)) = Kind.Pointer
  \/ Kind_of (Elem_of (typ toValue)) = Kind.Pointer ->
  exists toValue',
    destination_after
      (@Copy (CopyService rt g) (Some (fromT, fromD)) (Some (toT, toD)))
    = Some toValue'
    /\ forall e, In e (entries toValue') -> In e (entries toValue).
Proof.
  intros HK HF HT HKT HKF HP.
  destruct (Copy_handles _ _ _ _ _ _ HK HF HT) as (HRO & HS & HIF & HIT).
  rewrite (Copy_destination_after _ _ _ _ _ _ _ HK HF HT).
  eexists. split; [reflexivity|].
  rewrite (copy_shapes_into_map_unfold rt g _ _ HIF HIT HKT HKF).
  change (entries
            {| typ := typ toValue;
               dat := dat (fst ?x);
               flagAddr := flagAddr toValue;
               flagRO := flagRO toValue |})
    with (entries (fst x)).
  destruct (make_if_nil (typ toValue) toValue) as [tv1 o1] eqn:EM.
  assert (H1 : typ tv1 = typ toValue
               /\ forall e, In e (entries tv1) -> In e (entries toValue)).
  { apply make_if_nil_cases in EM as [->|[_ ->]]; [auto|].
    split; [reflexivity|]. intros e []. }
  destruct o1; [|exact (proj2 H1)].
  destruct (for_each _ (source_pairs fromValue) tv1) as [tv2 o2] eqn:EL.
  simpl fst.
  eapply (for_each_invariant
            (fun tv => typ tv = typ toValue
                       /\ forall e, In e (entries tv) -> In e (entries toValue)));
    [ | exact H1 | exact EL].
  intros p tv tv' o Hp [HTy HE] Hb. rewrite <- HTy in Hb.
  apply copy_entry_cases in Hb as [->|(k & v & m & [BK BV] & _)]; [auto|].
  exfalso. simpl in BK, BV.
  change (@CopyValue (CopyService rt g))
    with (DefaultService_CopyValue rt g) in BK, BV.
  rewrite HTy in BK, BV.
  destruct HP as [HP|HP].
  - rewrite CopyValue_on_nothing in BK
      by (right; now apply New_Elem_pointer_invalid). discriminate.
  - rewrite CopyValue_on_nothing in BV
      by (right; now apply New_Elem_pointer_invalid). discriminate.
Qed.

(** A map of strings into a map of [*string]. *)
Lemma map_of_pointers_gains_nothing_witness :
  exists toValue',
    destination_after
      (Copy0 (Some (TMap TString TString,
                    DMap (Some [(DString "a", DString "b")])))
             (pointer_to (TMap TString (TPtr TString)) (DMap None)))
    = Some toValue'
    /\ forall e, In e (entries toValue') -> In e [].
Proof.
  apply (map_of_pointers_gains_nothing bare_runtime initial_globals
           (TMap TString TString) (TPtr (TMap TString (TPtr TString)))
           (DMap (Some [(DString "a", DString "b")]))
           (DPtr (Some (DMap None)))
           (value_of (TMap TString TString)
              (DMap (Some [(DString "a", DString "b")])))
           (mkValue (TMap TString (TPtr TString)) (DMap None) true false)
           eq_refl eq_refl eq_refl eq_refl (or_introl eq_refl)).
  right. reflexivity.
Defined.

(** X9. A copy into a map, however it ends, keeps every entry the map had
    under a key that differs (by [==]) from all the keys the source pairs
    convert to: entries are only added, or replaced under an equal key. *)
Theorem map_copy_keeps_other_entries (rt : runtime) (g : globals)
  (fromT toT : type) (fromD toD : data) (fromValue toValue : rvalue)
  (k0 v0 : data) :
  Kind_of toT = Kind.Pointer ->
  indirectValue (ValueOf (Some (fromT, fromD))) = Some fromValue ->
  indirectValue (ValueOf (Some (toT, toD))) = Some toValue ->
  Kind_of (typ toValue) = Kind.Map ->
  Kind_of (typ fromValue) = Kind.Map \/ Kind_of (typ fromValue) = Kind.Struct ->
  In (k0, v0) (entries toValue) ->
  (forall pair k v,
      In pair (source_pairs fromValue) ->
      both_converted (CopyService rt g) (typ toValue) pair k v ->
      key_eqb k0 k = false) ->
  exists toValue',
    destination_after
      (@Copy (CopyService rt g) (Some (fromT, fromD)) (Some (toT, toD)))
    = Some toValue'
    /\ In (k0, v0) (entries toValue').
Proof.
  intros HK HF HT HKT HKF Hin Hother.
  destruct (Copy_handles _ _ _ _ _ _ HK HF HT) as (HRO & HS & HIF & HIT).
  rewrite (Copy_destination_after _ _ _ _ _ _ _ HK HF HT).
  eexists. split; [reflexivity|].
  rewrite (copy_shapes_into_map_unfold rt g _ _ HIF HIT HKT HKF).
  change (entries
            {| typ := typ toValue;
               dat := dat (fst ?x);
               flagAddr := flagAddr toValue;
               flagRO := flagRO toValue |})
    with (entries (fst x)).
  destruct (make_if_nil (typ toValue) toValue) as [tv1 o1] eqn:EM.
  assert (H1 : typ tv1 = typ toValue /\ In (k0, v0) (entries tv1)).
  { apply make_if_nil_cases in EM as [->|[HN ->]]; [auto|].
    exfalso. unfold IsNil in HN. unfold entries in Hin.
    destruct (dat toValue) as [| | | | |[?|]|[?|]| |[?|]|]; try discriminate;
      contradiction. }
  destruct o1; [|exact (proj2 H1)].
  destruct (for_each _ (source_pairs fromValue) tv1) as [tv2 o2] eqn:EL.
  simpl fst.
  eapply (for_each_invariant
            (fun tv => typ tv = typ toValue /\ In (k0, v0) (entries tv)));
    [ | exact H1 | exact EL].
  intros p tv tv' o Hp [HTy HE] Hb. rewrite <- HTy in Hb.
  apply copy_entry_cases in Hb as [->|(k & v & m & HB & HD & ->)]; [auto|].
  split; [exact HTy|]. unfold entries in *. simpl. rewrite HD in HE.
  apply map_insert_keeps; [|exact HE].
  apply (Hother p k v Hp). rewrite <- HTy. now destruct p.
Qed.

(** The entry under ["z"] stays when ["a"] is copied in. *)
Lemma map_copy_keeps_other_entries_witness :
  exists toValue',
    destination_after
      (Copy0 (Some (TMap TString TString,
                    DMap (Some [(DString "a", DString "1")])))
             (pointer_to (TMap TString (TInt W0))
                (DMap (Some [(DString "z", DInt 9)]))))
    = Some toValue'
    /\ In (DString "z", DInt 9) (entries toValue').
Proof.
  apply (map_copy_keeps_other_entries bare_runtime initial_globals
           (TMap TString TString) (TPtr (TMap TString (TInt W0)))
           (DMap (Some [(DString "a", DString "1")]))
           (DPtr (Some (DMap (Some [(DString "z", DInt 9)]))))
           (value_of (TMap TString TString)
              (DMap (Some [(DString "a", DString "1")])))
           (mkValue (TMap TString (TInt W0))
              (DMap (Some [(DString "z", DInt 9)])) true false)
           (DString "z") (DInt 9)
           eq_refl eq_refl eq_refl eq_refl (or_introl eq_refl)).
  - simpl. auto.
  - intros pair k v [<-|[]] [HKy _]. simpl in HKy.
    vm_compute in HKy. injection HKy as <-. reflexivity.
Defined.

(** X10. A copy of a map into a map whose key type holds no interface
    returns; so does a copy of a struct into such a map when every field of
    the struct is exported.  (An unexported field is read as a read-only
    value, which [Set] refuses; a key of interface type may hold a slice or
    a map, which the runtime refuses to hash.) *)
Theorem map_copy_returns (rt : runtime) (g : globals)
  (fromT toT : type) (fromD toD : data) (fromValue toValue : rvalue)
  (mo : option (list (data * data))) :
  Kind_of toT = Kind.Pointer ->
  indirectValue (ValueOf (Some (fromT, fromD))) = Some fromValue ->
  indirectValue (ValueOf (Some (toT, toD))) = Some toValue ->
  Kind_of (typ toValue) = Kind.Map ->
  always_hashable (Key_of (typ toValue)) = true ->
  dat toValue = DMap mo ->
  Kind_of (typ fromValue) = Kind.Map
  \/ (Kind_of (typ fromValue) = Kind.Struct
      /\ forallb IsExported (map fst (fields_of (typ fromValue))) = true) ->
  snd (@Copy (CopyService rt g) (Some (fromT, fromD)) (Some (toT, toD)))
  = Returned.
Proof.
  intros HK HF HT HKT HH HD HKF.
  destruct (Copy_handles _ _ _ _ _ _ HK HF HT) as (HRO & HS & HIF & HIT).
  rewrite (Copy_unwrapped _ _ _ _ _ _ _ HK HF HT). simpl snd.
  rewrite (copy_shapes_into_map_unfold rt g _ _ HIF HIT HKT)
    by (destruct HKF as [?|[? _]]; auto).
  destruct (make_if_nil_returns _ _ HS HD) as (tv1 & m1 & EM & HT1 & HR1 & HD1).
  rewrite EM.
  destruct (for_each_returns
              (fun tv => typ tv = typ toValue /\ flagRO tv = false
                         /\ exists m, dat tv = DMap (Some m))
              (fun p : Value * Value =>
                 @copy_entry (CopyService rt g) (fst p) (snd p) (typ toValue))
              (source_pairs fromValue)) with (tv := tv1)
    as (tv2 & EL & _); [ |eauto|now rewrite EL].
  intros p tv Hp (HTy & HR & m & HDm).
  destruct (source_pairs_readable _ _ HRO HKF Hp) as [HPk HPe].
  rewrite <- HTy in HH.
  destruct (copy_entry_returns rt g _ _ tv m HPk HPe HH HR HDm)
    as (tv' & E & HT' & HR' & HD').
  rewrite HTy in E. exists tv'. split; [exact E|].
  split; [congruence|auto].
Qed.

(** A struct of exported fields into a nil map. *)
Lemma map_copy_returns_witness :
  snd (Copy0 (Some (TStruct [("Name", TString); ("Age", TInt W0)],
                    DStruct [DString "A"; DInt 7]))
             (pointer_to (TMap TString TString) (DMap None)))
  = Returned.
Proof.
  apply (map_copy_returns bare_runtime initial_globals
           (TStruct [("Name", TString); ("Age", TInt W0)])
           (TPtr (TMap TString TString))
           (DStruct [DString "A"; DInt 7]) (DPtr (Some (DMap None)))
           (value_of (TStruct [("Name", TString); ("Age", TInt W0)])
              (DStruct [DString "A"; DInt 7]))
           (mkValue (TMap TString TString) (DMap None) true false)
           None eq_refl eq_refl eq_refl eq_refl eq_refl eq_refl).
  right. split; reflexivity.
Defined.

(** ** [CopyValue]: the assignable step and the final conversion step *)

Ltac open_CopyValue HF HT :=
  unfold DefaultService_CopyValue;
  rewrite HF, HT;
  match type of HF with
  | indirectValue ?f = _ =>
      destruct f; [|discriminate]
  end;
  simpl in HF, HT;
  rewrite (indirect_type _ _ _ _ _ HF), (indirect_type _ _ _ _ _ HT);
  cbv zeta.

Lemma CopyValue_identical (rt : runtime) (g : globals)
  (fromValue0 : Value) (handle fromValue toValue : rvalue) :
  indirectValue fromValue0 = Some fromValue ->
  indirectValue (Some handle) = Some toValue ->
  typ fromValue = typ toValue ->
  flagRO fromValue = false ->
  CanSet toValue = true ->
  DefaultService_CopyValue rt g fromValue0 (Some handle)
  = Ok (true, Some (stored handle (dat fromValue))).
Proof.
  intros HF HT HTy HRO HS. open_CopyValue HF HT.
  rewrite HTy, AssignableTo_refl. unfold set_and_report. simpl bind.
  now rewrite Set_same_type.
Qed.

(** X11. Between identical types the value is copied as it is: when the
    unwrapped source and destination have the same type, the destination can
    be set and the source was not read through an unexported field,
    [CopyValue] reports true and the destination holds the source's
    content. *)
Theorem CopyValue_same_type (rt : runtime) (g : globals)
  (fromValue0 : Value) (handle fromValue toValue : rvalue) :
  indirectValue fromValue0 = Some fromValue ->
  indirectValue (Some handle) = Some toValue ->
  typ fromValue = typ toValue ->
  flagRO fromValue = false ->
  CanSet toValue = true ->
  DefaultService_CopyValue rt g fromValue0 (Some handle)
  = Ok (true, Some (stored handle (dat fromValue))).
Proof. apply CopyValue_identical. Qed.

(** A struct copied through a pointer into a struct of the same type. *)
Lemma CopyValue_same_type_witness :
  DefaultService_CopyValue bare_runtime initial_globals
    (Some (value_of (TPtr (TStruct [("A", TInt W0)]))
             (DPtr (Some (DStruct [DInt 5])))))
    (Some (New_Elem (TStruct [("A", TInt W0)])))
  = Ok (true, Some (mkValue (TStruct [("A", TInt W0)]) (DStruct [DInt 5])
                      true false)).
Proof.
  exact (CopyValue_same_type bare_runtime initial_globals
           (Some (value_of (TPtr (TStruct [("A", TInt W0)]))
                    (DPtr (Some (DStruct [DInt 5])))))
           (New_Elem (TStruct [("A", TInt W0)]))
           (mkValue (TStruct [("A", TInt W0)]) (DStruct [DInt 5]) true false)
           (New_Elem (TStruct [("A", TInt W0)]))
           eq_refl eq_refl eq_refl eq_refl eq_refl).
Defined.

(** X12. Every valid source goes into a destination of type
    [interface {}]: [CopyValue] reports true and the destination holds the
    unwrapped source with its own type as dynamic type (pointers are
    followed first, so a [*T] is stored as a [T]); a source that is itself
    an interface value is copied as it is. *)
Theorem CopyValue_into_interface (rt : runtime) (g : globals)
  (fromValue0 : Value) (handle fromValue toValue : rvalue) :
  indirectValue fromValue0 = Some fromValue ->
  indirectValue (Some handle) = Some toValue ->
  Kind_of (typ toValue) = Kind.Interface ->
  flagRO fromValue = false ->
  CanSet toValue = true ->
  DefaultService_CopyValue rt g fromValue0 (Some handle)
  = Ok (true,
        Some (stored handle
                (if kind_eqb (Kind_of (typ fromValue)) Kind.Interface
                 then dat fromValue
                 else DIface (Some (typ fromValue, dat fromValue))))).
Proof.
  intros HF HT HK HRO HS. open_CopyValue HF HT.
  unfold AssignableTo, implements. rewrite HK. simpl kind_eqb.
  rewrite orb_true_r. unfold set_and_report. simpl bind.
  unfold Set_, assignTo, implements. unfold CanSet in HS.
  apply andb_prop in HS as [HA HR]. apply negb_true_iff in HR.
  rewrite HR, HA, HRO, HK. simpl.
  destruct (directlyAssignable (typ toValue) (typ fromValue)) eqn:ED.
  - apply directlyAssignable_kind in ED. rewrite <- ED, HK. reflexivity.
  - destruct (kind_eqb (Kind_of (typ fromValue)) Kind.Interface); reflexivity.
Qed.

(** A pointer to an [int] into an [interface {}] slot. *)
Lemma CopyValue_into_interface_witness :
  DefaultService_CopyValue bare_runtime initial_globals
    (Some (value_of (TPtr (TInt W0)) (DPtr (Some (DInt 3)))))
    (Some (New_Elem TInterface))
  = Ok (true, Some (mkValue TInterface (DIface (Some (TInt W0, DInt 3)))
                      true false)).
Proof.
  exact (CopyValue_into_interface bare_runtime initial_globals
           (Some (value_of (TPtr (TInt W0)) (DPtr (Some (DInt 3)))))
           (New_Elem TInterface)
           (mkValue (TInt W0) (DInt 3) true false)
           (New_Elem TInterface)
           eq_refl eq_refl eq_refl eq_refl eq_refl).
Defined.

Lemma integer_kind_HasName (t : type) :
  is_int_kind (Kind_of t) || is_uint_kind (Kind_of t) = true ->
  HasName t = true.
Proof. destruct t; simpl; auto; discriminate. Qed.

Lemma type_eqb_neq (a b : type) : a <> b -> type_eqb a b = false.
Proof.
  intros H. destruct (type_eqb a b) eqn:E; [|reflexivity].
  apply type_eqb_eq in E. contradiction.
Qed.

(** X13. Between two different integer types the final conversion step
    applies: [CopyValue] reports true and the destination holds the source
    number reduced modulo [2^w] into the range of the [w]-bit destination
    type, signed or unsigned.  A number that does not fit is not skipped. *)
Theorem CopyValue_between_integers (rt : runtime) (g : globals)
  (fromValue0 : Value) (handle fromValue toValue : rvalue) :
  indirectValue fromValue0 = Some fromValue ->
  indirectValue (Some handle) = Some toValue ->
  is_int_kind (Kind_of (typ fromValue))
  || is_uint_kind (Kind_of (typ fromValue)) = true ->
  is_int_kind (Kind_of (typ toValue))
  || is_uint_kind (Kind_of (typ toValue)) = true ->
  typ fromValue <> typ toValue ->
  flagRO fromValue = false ->
  CanSet toValue = true ->
  let z := if is_int_kind (Kind_of (typ fromValue))
           then Int_ fromValue else Uint_ fromValue in
  let w := bits_of (Kind_of (typ toValue)) in
  DefaultService_CopyValue rt g fromValue0 (Some handle)
  = Ok (true,
        Some (stored handle
                (if is_int_kind (Kind_of (typ toValue))
                 then DInt (wrap_signed w z) else DUint (z mod 2 ^ w))))
  /\ wrap_signed w z mod 2 ^ w = z mod 2 ^ w
  /\ - 2 ^ (w - 1) <= wrap_signed w z < 2 ^ (w - 1)
  /\ 0 <= z mod 2 ^ w < 2 ^ w.
Proof.
  intros HF HT HKF HKT HNE HRO HS z w.
  split; [|split; [apply wrap_signed_spec|split; [apply wrap_signed_spec|]]].
  - open_CopyValue HF HT.
    assert (HA : AssignableTo (typ fromValue) (typ toValue) = false).
    { unfold AssignableTo, implements, directlyAssignable.
      rewrite type_eqb_neq by congruence.
      rewrite (integer_kind_HasName _ HKF), (integer_kind_HasName _ HKT).
      simpl. destruct (Kind_of (typ toValue)); try discriminate; reflexivity. }
    rewrite HA.
    replace (kind_eqb (Kind_of (typ toValue)) Kind.String) with false
      by (destruct (Kind_of (typ toValue)); try discriminate; reflexivity).
    replace (kind_eqb (Kind_of (typ fromValue)) Kind.String) with false
      by (destruct (Kind_of (typ fromValue)); try discriminate; reflexivity).
    unfold CanConvert, ConvertibleTo, Convert, convertOp. subst z.
    destruct (is_int_kind (Kind_of (typ fromValue))) eqn:EI.
    + rewrite HKT. unfold set_and_report. simpl bind.
      rewrite Set_same_type by auto. simpl. unfold makeInt, wrap_unsigned.
      reflexivity.
    + simpl in HKF. rewrite HKF, HKT. unfold set_and_report. simpl bind.
      rewrite Set_same_type by auto. simpl. unfold makeInt, wrap_unsigned.
      reflexivity.
  - apply Z.mod_pos_bound. unfold w.
    destruct (bits_of_cases (Kind_of (typ toValue))) as [E|[E|[E|E]]];
      rewrite E; reflexivity.
Qed.

(** An [int64] 300 into an [int8]: 44. *)
Lemma CopyValue_between_integers_witness :
  DefaultService_CopyValue bare_runtime initial_globals
    (Some (value_of (TInt W64) (DInt 300))) (Some (New_Elem (TInt W8)))
  = Ok (true, Some (mkValue (TInt W8) (DInt 44) true false))
  /\ 44 mod 2 ^ 8 = 300 mod 2 ^ 8
  /\ - 2 ^ (8 - 1) <= 44 < 2 ^ (8 - 1)
  /\ 0 <= 300 mod 2 ^ 8 < 2 ^ 8.
Proof.
  apply (CopyValue_between_integers bare_runtime initial_globals
           (Some (value_of (TInt W64) (DInt 300)))
           (New_Elem (TInt W8))
           (value_of (TInt W64) (DInt 300))
           (New_Elem (TInt W8))
           eq_refl eq_refl eq_refl eq_refl).
  - discriminate.
  - reflexivity.
  - reflexivity.
Defined.

(** ** [CopyValue]: pairs that are not converted *)

(** The part of [convertOp] after the switch finds nothing between types of
    different kinds, unless the destination is an interface. *)
Lemma convertOp_tail_kind_neq (dst src : type) :
  Kind_of dst <> Kind_of src -> Kind_of dst <> Kind.Interface ->
  convertOp_tail dst src = None.
Proof.
  intros HK HI. unfold convertOp_tail, haveIdenticalUnderlyingType, implements.
  destruct (type_eqb (underlying dst) (underlying src)) eqn:E.
  { apply type_eqb_kind in E. rewrite !Kind_of_underlying in E. contradiction. }
  rewrite (kind_eqb_neq _ _ HI).
  destruct (kind_eqb (Kind_of dst) Kind.Pointer) eqn:E1;
    destruct (kind_eqb (Kind_of src) Kind.Pointer) eqn:E2; simpl;
    rewrite ?andb_false_r; try reflexivity.
  apply kind_eqb_eq in E1, E2. congruence.
Qed.

(** X14. A boolean is never turned into a number, nor a number into a
    boolean: for such a pair no step applies and [CopyValue] returns false
    with the destination as it was, whether or not it can be set. *)
Theorem CopyValue_bool_and_number (rt : runtime) (g : globals)
  (fromValue0 : Value) (handle fromValue toValue : rvalue) :
  indirectValue fromValue0 = Some fromValue ->
  indirectValue (Some handle) = Some toValue ->
  (Kind_of (typ fromValue) = Kind.Bool
   /\ is_number_kind (Kind_of (typ toValue)) = true)
  \/ (is_number_kind (Kind_of (typ fromValue)) = true
      /\ Kind_of (typ toValue) = Kind.Bool) ->
  DefaultService_CopyValue rt g fromValue0 (Some handle)
  = Ok (false, Some handle).
Proof.
  intros HF HT HK. open_CopyValue HF HT.
  assert (HN : Kind_of (typ toValue) <> Kind_of (typ fromValue)
               /\ Kind_of (typ toValue) <> Kind.Interface).
  { destruct HK as [[H1 H2]|[H1 H2]]; rewrite ?H1, ?H2;
      [destruct (Kind_of (typ toValue))|destruct (Kind_of (typ fromValue))];
      try discriminate; split; discriminate. }
  destruct HN as [HN HI].
  rewrite AssignableTo_kind_neq by congruence.
  unfold CanConvert, ConvertibleTo, convertOp.
  rewrite (convertOp_tail_kind_neq _ _ HN HI).
  destruct HK as [[H1 H2]|[H1 H2]].
  - rewrite H1. simpl.
    destruct (Kind_of (typ toValue)); try discriminate; reflexivity.
  - rewrite H2. simpl.
    destruct (Kind_of (typ fromValue)); try discriminate; reflexivity.
Qed.

(** [true] into an [int], and 1 into a [bool]. *)
Lemma CopyValue_bool_and_number_witness :
  DefaultService_CopyValue bare_runtime initial_globals
    (Some (value_of TBool (DBool true))) (Some (New_Elem (TInt W0)))
  = Ok (false, Some (New_Elem (TInt W0)))
  /\ DefaultService_CopyValue bare_runtime initial_globals
       (Some (value_of (TInt W0) (DInt 1))) (Some (New_Elem TBool))
     = Ok (false, Some (New_Elem TBool)).
Proof.
  split.
  - apply (CopyValue_bool_and_number bare_runtime initial_globals
             (Some (value_of TBool (DBool true))) (New_Elem (TInt W0))
             (value_of TBool (DBool true)) (New_Elem (TInt W0))
             eq_refl eq_refl).
    left. split; reflexivity.
  - apply (CopyValue_bool_and_number bare_runtime initial_globals
             (Some (value_of (TInt W0) (DInt 1))) (New_Elem TBool)
             (value_of (TInt W0) (DInt 1)) (New_Elem TBool)
             eq_refl eq_refl).
    right. split; reflexivity.
Defined.

(** X15. A string is never converted into a slice or a map, and a slice or
    a map never into a string: the string branches return false before the
    final conversion step is reached, so not even the conversions Go has
    between a string and a slice of bytes or of runes are made. *)
Theorem CopyValue_string_and_container (rt : runtime) (g : globals)
  (fromValue0 : Value) (handle fromValue toValue : rvalue) :
  indirectValue fromValue0 = Some fromValue ->
  indirectValue (Some handle) = Some toValue ->
  (Kind_of (typ fromValue) = Kind.String
   /\ (Kind_of (typ toValue) = Kind.Slice \/ Kind_of (typ toValue) = Kind.Map))
  \/ ((Kind_of (typ fromValue) = Kind.Slice
       \/ Kind_of (typ fromValue) = Kind.Map)
      /\ Kind_of (typ toValue) = Kind.String) ->
  DefaultService_CopyValue rt g fromValue0 (Some handle)
  = Ok (false, Some handle).
Proof.
  intros HF HT HK. open_CopyValue HF HT.
  destruct HK as [[H1 [H2|H2]]|[[H1|H1] H2]];
    rewrite AssignableTo_kind_neq by (rewrite ?H1, ?H2; discriminate);
    rewrite H1, H2; reflexivity.
Qed.

(** A string into a slice of bytes, and back. *)
Lemma CopyValue_string_and_container_witness :
  DefaultService_CopyValue bare_runtime initial_globals
    (Some (value_of TString (DString "ab")))
    (Some (New_Elem (TSlice (TUint W8))))
  = Ok (false, Some (New_Elem (TSlice (TUint W8))))
  /\ DefaultService_CopyValue bare_runtime initial_globals
       (Some (value_of (TSlice (TUint W8)) (DSlice [DUint 97])))
       (Some (New_Elem TString))
     = Ok (false, Some (New_Elem TString)).
Proof.
  split.
  - apply (CopyValue_string_and_container bare_runtime initial_globals
             (Some (value_of TString (DString "ab")))
             (New_Elem (TSlice (TUint W8)))
             (value_of TString (DString "ab"))
             (New_Elem (TSlice (TUint W8))) eq_refl eq_refl).
    left. split; [reflexivity|left; reflexivity].
  - apply (CopyValue_string_and_container bare_runtime initial_globals
             (Some (value_of (TSlice (TUint W8)) (DSlice [DUint 97])))
             (New_Elem TString)
             (value_of (TSlice (TUint W8)) (DSlice [DUint 97]))
             (New_Elem TString) eq_refl eq_refl).
    right. split; [left; reflexivity|reflexivity].
Defined.

(** X16. A struct that is not a [time.Time], copied into a settable string:
    when its type has a [String] method and the value was not read through
    an unexported field, the string is what [String] returns and the call
    reports true; otherwise the call returns false and writes nothing. *)
Theorem CopyValue_struct_to_string (rt : runtime) (g : globals)
  (fromValue0 : Value) (handle fromValue toValue : rvalue) :
  indirectValue fromValue0 = Some fromValue ->
  indirectValue (Some handle) = Some toValue ->
  Kind_of (typ fromValue) = Kind.Struct ->
  typ fromValue <> time_Time ->
  Kind_of (typ toValue) = Kind.String ->
  CanSet toValue = true ->
  DefaultService_CopyValue rt g fromValue0 (Some handle)
  = if negb (flagRO fromValue) && is_Stringer (typ fromValue)
    then Ok (true,
             Some (stored handle
                     (DString (Stringer_String rt (typ fromValue)
                                 (dat fromValue)))))
    else Ok (false, Some handle).
Proof.
  intros HF HT HKF HNT HKT HS. open_CopyValue HF HT.
  rewrite AssignableTo_kind_neq by (rewrite ?HKF, ?HKT; discriminate).
  rewrite HKF, HKT. simpl kind_eqb. cbv iota.
  unfold CanInterface. rewrite (type_eqb_neq _ _ HNT).
  destruct (negb (flagRO fromValue)); [|reflexivity].
  destruct (is_Stringer (typ fromValue)); [|reflexivity].
  simpl andb. cbv iota. rewrite (convert_to_string _ _ _ HKT).
  unfold set_and_report. simpl bind. now rewrite Set_same_type.
Qed.

(** A struct without a [String] method. *)
Lemma CopyValue_struct_to_string_witness :
  DefaultService_CopyValue bare_runtime initial_globals
    (Some (value_of (TStruct [("A", TInt W0)]) (DStruct [DInt 1])))
    (Some (New_Elem TString))
  = Ok (false, Some (New_Elem TString)).
Proof.
  apply (CopyValue_struct_to_string bare_runtime initial_globals
           (Some (value_of (TStruct [("A", TInt W0)]) (DStruct [DInt 1])))
           (New_Elem TString)
           (value_of (TStruct [("A", TInt W0)]) (DStruct [DInt 1]))
           (New_Elem TString) eq_refl eq_refl eq_refl).
  - discriminate.
  - reflexivity.
  - reflexivity.
Defined.

(** ** [Copy]: the struct loops and the delegation *)

(** A loop of [copy_into_field] rounds, whatever the names and the source
    values: the struct keeps its shape, and a field that is unexported or
    whose name is not among the names stays as it was. *)
Lemma field_loop_frame (svc : Service) {A : Type} (name : A -> string)
  (from : A -> Value) (l : list A) (toValue toValue' : rvalue) o
  (fs : list data) :
  dat toValue = DStruct fs ->
  for_each (fun x => @copy_into_field svc (name x) (from x) (typ toValue))
    l toValue = (toValue', o) ->
  typ toValue' = typ toValue
  /\ flagAddr toValue' = flagAddr toValue
  /\ flagRO toValue' = flagRO toValue
  /\ exists fs',
       dat toValue' = DStruct fs'
       /\ List.length fs' = List.length fs
       /\ forall j n ft,
            nth_error (fields_of (typ toValue)) j = Some (n, ft) ->
            ~ In n (map name l) \/ IsExported n = false ->
            nth_error fs' j = nth_error fs j.
Proof.
  intros HD EL.
  eapply (for_each_invariant
            (fun tv => typ tv = typ toValue
               /\ flagAddr tv = flagAddr toValue
               /\ flagRO tv = flagRO toValue
               /\ exists fs',
                    dat tv = DStruct fs'
                    /\ List.length fs' = List.length fs
                    /\ forall j n ft,
                         nth_error (fields_of (typ toValue)) j = Some (n, ft) ->
                         ~ In n (map name l) \/ IsExported n = false ->
                         nth_error fs' j = nth_error fs j));
    [ | | exact EL].
  - intros x tv tv1 o1 Hx (HTy & HFA & HFR & fs1 & HD1 & HL1 & HF1) Hb.
    rewrite <- HTy in Hb. apply copy_into_field_spec in Hb.
    destruct Hb as [->|(i & ft & d & Hn & HX & Hset)].
    { split; [exact HTy|]. split; [exact HFA|]. split; [exact HFR|].
      now exists fs1. }
    assert (Hi : forall j n ft',
               nth_error (fields_of (typ toValue)) j = Some (n, ft') ->
               ~ In n (map name l) \/ IsExported n = false -> i <> j).
    { intros j n ft' Hj Hc ->. rewrite HTy in Hn. rewrite Hn in Hj.
      inversion Hj; subst. destruct Hc as [Hc|Hc]; [|congruence].
      apply Hc. now apply in_map. }
    unfold set_field in Hset. rewrite HD1 in Hset. simpl in Hset.
    destruct Hset as [->|(d' & ->)]; simpl; (split; [exact HTy|]);
      (split; [exact HFA|]); (split; [exact HFR|]);
      eexists; (split; [reflexivity|]);
      rewrite ?replace_nth_length; (split; [exact HL1|]);
      intros j n ft' Hj Hc; rewrite ?replace_nth_other by eauto; eauto.
  - split; [reflexivity|]. split; [reflexivity|]. split; [reflexivity|].
    now exists fs.
Qed.

(** X17. Into a struct type without embedded fields, its field names in
    ASCII: a map-to-struct copy, however it ends, keeps the destination's
    type and number of fields, and leaves alone every field that is
    unexported or whose name is the text of no key of the source map. *)
Theorem map_to_struct_frame (svc : Service)
  (fromT toT : type) (fromD toD : data) (fromValue toValue : rvalue)
  (fs : list data) :
  Kind_of toT = Kind.Pointer ->
  indirectValue (ValueOf (Some (fromT, fromD))) = Some fromValue ->
  indirectValue (ValueOf (Some (toT, toD))) = Some toValue ->
  Kind_of (typ fromValue) = Kind.Map ->
  Kind_of (typ toValue) = Kind.Struct ->
  dat toValue = DStruct fs ->
  exists toValue' fs',
    destination_after (@Copy svc (Some (fromT, fromD)) (Some (toT, toD)))
    = Some toValue'
    /\ typ toValue' = typ toValue
    /\ dat toValue' = DStruct fs'
    /\ List.length fs' = List.length fs
    /\ forall j name ft,
         nth_error (fields_of (typ toValue)) j = Some (name, ft) ->
         ~ In name (key_names fromValue) \/ IsExported name = false ->
         nth_error fs' j = nth_error fs j.
Proof.
  intros HK HF HT HKF HKT HD.
  destruct (Copy_handles _ _ _ _ _ _ HK HF HT) as (HRO & HS & HIF & HIT).
  rewrite (Copy_destination_after _ _ _ _ _ _ _ HK HF HT).
  unfold copy_shapes. rewrite HIF, HIT, HKF, HKT. simpl kind_eqb.
  simpl andb. cbv iota.
  destruct (for_each _ (entries fromValue) toValue) as [tv' o] eqn:EL.
  apply (field_loop_frame svc
           (fun kv : data * data => String_ (MapKey fromValue (fst kv)))
           (fun kv : data * data => Some (MapValue fromValue (snd kv)))
           _ _ _ _ fs HD) in EL.
  destruct EL as (HTy & _ & _ & fs' & HD' & HL' & HF').
  eexists _, fs'. simpl. split; [reflexivity|]. simpl. auto.
Qed.

(** [{"Name": "A"}] into a [{Name string; Other int}]. *)
Lemma map_to_struct_frame_witness :
  exists toValue' fs',
    destination_after
      (Copy0 (Some (TMap TString TString,
                    DMap (Some [(DString "Name", DString "A")])))
             (pointer_to (TStruct [("Name", TString); ("Other", TInt W0)])
                (DStruct [DString ""; DInt 4])))
    = Some toValue'
    /\ typ toValue' = TStruct [("Name", TString); ("Other", TInt W0)]
    /\ dat toValue' = DStruct fs'
    /\ List.length fs' = 2%nat
    /\ forall j name ft,
         nth_error [("Name", TString); ("Other", TInt W0)] j = Some (name, ft) ->
         ~ In name ["Name"] \/ IsExported name = false ->
         nth_error fs' j = nth_error [DString ""; DInt 4] j.
Proof.
  exact (map_to_struct_frame (CopyService bare_runtime initial_globals)
           (TMap TString TString)
           (TPtr (TStruct [("Name", TString); ("Other", TInt W0)]))
           (DMap (Some [(DString "Name", DString "A")]))
           (DPtr (Some (DStruct [DString ""; DInt 4])))
           (value_of (TMap TString TString)
              (DMap (Some [(DString "Name", DString "A")])))
           (mkValue (TStruct [("Name", TString); ("Other", TInt W0)])
              (DStruct [DString ""; DInt 4]) true false)
           [DString ""; DInt 4]
           eq_refl eq_refl eq_refl eq_refl eq_refl eq_refl).
Defined.

(** X18. For every other pair of shapes [Copy] is one call of [CopyValue]
    on the two unwrapped values: it always returns, and the destination is
    what that call left. *)
Theorem Copy_value_to_value (rt : runtime) (g : globals)
  (fromT toT : type) (fromD toD : data) (fromValue toValue : rvalue) :
  Kind_of toT = Kind.Pointer ->
  indirectValue (ValueOf (Some (fromT, fromD))) = Some fromValue ->
  indirectValue (ValueOf (Some (toT, toD))) = Some toValue ->
  structural_pair (Kind_of (typ fromValue)) (Kind_of (typ toValue)) = false ->
  exists b v',
    DefaultService_CopyValue rt g (Some fromValue) (Some toValue)
    = Ok (b, v')
    /\ @Copy (CopyService rt g) (Some (fromT, fromD)) (Some (toT, toD))
       = (Some (toT, store toT toD (dat (after toValue v'))), Returned).
Proof.
  intros HK HF HT HSP.
  destruct (Copy_handles _ _ _ _ _ _ HK HF HT) as (HRO & HS & HIF & HIT).
  destruct (CopyValue_returns rt g (Some fromValue) (Some toValue))
    as (b & v' & E & _).
  { intros r H. simpl in HF. rewrite (indirect_idempotent _ _ _ _ _ HF) in H.
    now inversion H; subst. }
  { intros r H. simpl in HT. rewrite (indirect_idempotent _ _ _ _ _ HT) in H.
    now inversion H; subst. }
  exists b, v'. split; [exact E|].
  rewrite (Copy_unwrapped _ _ _ _ _ _ _ HK HF HT).
  unfold copy_shapes. rewrite HIF, HIT.
  unfold structural_pair in HSP.
  apply orb_false_elim in HSP as [HSP H5].
  apply orb_false_elim in HSP as [HSP H4].
  apply orb_false_elim in HSP as [HSP H3].
  apply orb_false_elim in HSP as [H1 H2].
  rewrite H1, H2, H3, H4, H5.
  change (@CopyValue (CopyService rt g)) with (DefaultService_CopyValue rt g).
  rewrite E. reflexivity.
Qed.

(** An [int] into a [*string]. *)
Lemma Copy_value_to_value_witness :
  exists b v',
    DefaultService_CopyValue bare_runtime initial_globals
      (Some (value_of (TInt W0) (DInt 42)))
      (Some (mkValue TString (DString "") true false))
    = Ok (b, v')
    /\ Copy0 (Some (TInt W0, DInt 42)) (pointer_to TString (DString ""))
       = (Some (TPtr TString,
                store (TPtr TString) (DPtr (Some (DString "")))
                  (dat (after (mkValue TString (DString "") true false) v'))),
          Returned).
Proof.
  exact (Copy_value_to_value bare_runtime initial_globals
           (TInt W0) (TPtr TString) (DInt 42) (DPtr (Some (DString "")))
           (value_of (TInt W0) (DInt 42))
           (mkValue TString (DString "") true false)
           eq_refl eq_refl eq_refl eq_refl).
Defined.

(** A pointer type is, underneath, a pointer to its element type, and
    [indirectType] goes on from there. *)
Lemma pointer_underlying (t : type) :
  Kind_of t = Kind.Pointer ->
  underlying t = TPtr (Elem_of t) /\ indirectType t = indirectType (Elem_of t).
Proof.
  induction t; simpl; intros H; try discriminate;
    try (destruct w; discriminate).
  - auto.
  - destruct (IHt H) as [H1 H2]. unfold Elem_of in *. simpl.
    rewrite H. rewrite H1 in *. auto.
Qed.

(** The allocation of a nil pointer field is accepted when the field points
    to a type that is not a pointer. *)
Lemma allocation_assignable (t : type) :
  Kind_of t = Kind.Pointer -> Kind_of (Elem_of t) <> Kind.Pointer ->
  directlyAssignable t (TPtr (indirectType t)) = true.
Proof.
  intros HK HE. destruct (pointer_underlying t HK) as [HU HI].
  rewrite HI, (indirectType_not_pointer _ HE).
  unfold directlyAssignable. destruct (type_eqb t (TPtr (Elem_of t))); auto.
  simpl HasName. rewrite andb_false_r. simpl Kind_of. rewrite HK. simpl.
  unfold haveIdenticalUnderlyingType. rewrite HU. simpl underlying.
  apply type_eqb_refl.
Qed.

Lemma set_field_shape (tv : rvalue) (i : nat) (d : data) fs :
  dat tv = DStruct fs ->
  typ (set_field tv i d) = typ tv
  /\ flagAddr (set_field tv i d) = flagAddr tv
  /\ flagRO (set_field tv i d) = flagRO tv
  /\ dat (set_field tv i d) = DStruct (replace_nth i d fs).
Proof. intros H. unfold set_field. rewrite H. simpl. auto. Qed.

(** X19. Between struct types without embedded fields: a struct-to-struct
    copy returns when every pointer field of the destination points to a
    type that is not itself a pointer (whatever the source fields: an
    unexported source field only meets an unexported destination field,
    which is skipped).  (With an embedded pointer that is nil, Go's
    [Value.FieldByName] panics on a promoted field.) *)
Theorem struct_copy_returns (rt : runtime) (g : globals)
  (fromT toT : type) (fromD toD : data) (fromValue toValue : rvalue)
  (fs : list data) :
  Kind_of toT = Kind.Pointer ->
  indirectValue (ValueOf (Some (fromT, fromD))) = Some fromValue ->
  indirectValue (ValueOf (Some (toT, toD))) = Some toValue ->
  Kind_of (typ fromValue) = Kind.Struct ->
  Kind_of (typ toValue) = Kind.Struct ->
  dat toValue = DStruct fs ->
  (forall name ft, In (name, ft) (fields_of (typ toValue)) ->
                   Kind_of ft = Kind.Pointer ->
                   Kind_of (Elem_of ft) <> Kind.Pointer) ->
  snd (@Copy (CopyService rt g) (Some (fromT, fromD)) (Some (toT, toD)))
  = Returned.
Proof.
  intros HK HF HT HKF HKT HD HPF.
  destruct (Copy_handles _ _ _ _ _ _ HK HF HT) as (HRO & HS & HIF & HIT).
  rewrite (Copy_unwrapped _ _ _ _ _ _ _ HK HF HT). simpl snd.
  unfold copy_shapes. rewrite HIF, HIT, HKF, HKT. simpl kind_eqb.
  simpl andb. cbv iota.
  pose proof HS as HS'. unfold CanSet in HS'.
  apply andb_prop in HS' as [HA HR]. apply negb_true_iff in HR.
  destruct (for_each_returns
              (fun tv => typ tv = typ toValue /\ flagAddr tv = true
                         /\ flagRO tv = false
                         /\ exists fs', dat tv = DStruct fs')
              (fun fromField : string * type =>
                 @copy_into_field (CopyService rt g) (fst fromField)
                   (FieldByName fromValue (fst fromField)) (typ toValue))
              (fields_of (typ fromValue))) with (tv := toValue)
    as (tv' & EL & _); [ |eauto 6|now rewrite EL].
  intros [name sft] tv Hx (HTy & HAd & HRd & fs1 & HD1). simpl fst.
  unfold copy_into_field.
  destruct (Type_FieldByName (typ toValue) name) as [[i ft]|] eqn:ETF;
    [|eauto 8].
  unfold FieldByName at 1. rewrite HTy, ETF, HD1. cbv beta iota.
  destruct (CanSet (mkValue _ _ _ _)) eqn:ECS; simpl negb; cbv iota;
    [|eauto 8].
  assert (HX : IsExported name = true).
  { unfold CanSet in ECS. simpl in ECS. apply andb_prop in ECS as [_ ECS].
    apply negb_true_iff, orb_false_elim in ECS as [_ ECS].
    now apply negb_false_iff in ECS. }
  assert (Hin : In (name, ft) (fields_of (typ toValue))).
  { unfold Type_FieldByName in ETF.
    destruct (String.eqb name ""); [discriminate|].
    apply lookup_field_nth in ETF as [_ ETF]. now apply nth_error_In in ETF. }
  set (tf := mkValue ft (nth i fs1 (zero ft)) (flagAddr tv)
               (flagRO tv || negb (IsExported name))) in *.
  assert (Halloc : exists d,
    (if kind_eqb (Kind_of ft) Kind.Pointer && IsNil tf
     then Set_ tf (New (indirectType ft)) else Ok tf)
    = Ok (mkValue ft d true false)).
  { destruct (kind_eqb (Kind_of ft) Kind.Pointer && IsNil tf) eqn:EA.
    - apply andb_prop in EA as [EA _]. apply kind_eqb_eq in EA.
      unfold Set_, assignTo, tf. simpl. rewrite HRd, HAd, HX. simpl.
      rewrite (allocation_assignable ft EA (HPF name ft Hin EA)). simpl.
      eauto.
    - unfold tf. rewrite HAd, HRd, HX. simpl. eauto. }
  destruct Halloc as [d ->].
  destruct (CopyValue_returns rt g (FieldByName fromValue name)
              (Some (mkValue ft d true false))) as (b & v' & E & _).
  { intros r H. unfold FieldByName in H.
    destruct (Type_FieldByName (typ fromValue) name) as [[i' ft']|];
      [|discriminate].
    destruct (dat fromValue); try discriminate.
    apply indirectValue_keeps_RO in H. simpl in H.
    now rewrite H, HRO, HX. }
  { intros r H. simpl in H. apply indirect_spec in H.
    destruct H as (_ & H2 & H3). unfold CanSet. now rewrite H2, H3 by auto. }
  change (@CopyValue (CopyService rt g)) with (DefaultService_CopyValue rt g).
  rewrite E. eexists. split; [reflexivity|].
  change (dat (mkValue ft d true false)) with d.
  destruct (set_field_shape tv i d fs1 HD1) as (S1 & S2 & S3 & S4).
  destruct (set_field_shape (set_field tv i d) i
              (dat (after (mkValue ft d true false) v')) _ S4)
    as (T1 & T2 & T3 & T4).
  rewrite T1, T2, T3, S1, S2, S3. eauto 6.
Qed.

(** The example of the specification, with a [*string] field to allocate. *)
Lemma struct_copy_returns_witness :
  snd (Copy0 (Some (TStruct [("Name", TString); ("Extra", TInt W0)],
                    DStruct [DString "A"; DInt 1]))
             (pointer_to (TStruct [("Name", TPtr TString); ("Other", TInt W0)])
                (DStruct [DPtr None; DInt 0])))
  = Returned.
Proof.
  apply (struct_copy_returns bare_runtime initial_globals
           (TStruct [("Name", TString); ("Extra", TInt W0)])
           (TPtr (TStruct [("Name", TPtr TString); ("Other", TInt W0)]))
           (DStruct [DString "A"; DInt 1])
           (DPtr (Some (DStruct [DPtr None; DInt 0])))
           (value_of (TStruct [("Name", TString); ("Extra", TInt W0)])
              (DStruct [DString "A"; DInt 1]))
           (mkValue (TStruct [("Name", TPtr TString); ("Other", TInt W0)])
              (DStruct [DPtr None; DInt 0]) true false)
           [DPtr None; DInt 0]
           eq_refl eq_refl eq_refl eq_refl eq_refl eq_refl).
  intros name ft [H|[H|[]]] HKp; inversion H; subst; discriminate.
Defined.

Lemma for_each_app {A : Type} (body : A -> rvalue -> rvalue * outcome)
  (l1 l2 : list A) (tv : rvalue) :
  for_each body (l1 ++ l2) tv
  = match for_each body l1 tv with
    | (tv1, Returned) => for_each body l2 tv1
    | (tv1, Panicked m) => (tv1, Panicked m)
    end.
Proof.
  revert tv. induction l1 as [|x r IH]; intros tv; simpl; [reflexivity|].
  destruct (body x tv) as [tv1 [|m]]; [apply IH|reflexivity].
Qed.

Lemma replace_nth_same (i : nat) (d : data) (l : list data) :
  (i < List.length l)%nat -> nth_error (replace_nth i d l) i = Some d.
Proof.
  revert i. induction l as [|x r IH]; intros [|i] H; simpl in *;
    try lia; [reflexivity|]. apply IH. lia.
Qed.

(** X20. Between struct types without embedded fields: in a
    struct-to-struct copy that returns, a destination field that is
    exported, is not a pointer and bears the name of a source field holds
    afterwards what [CopyValue] made of it: the call on the source field of
    that name and on the destination field as it was before the copy (the
    names of the source fields being distinct, as they are in Go). *)
Theorem struct_copy_converts_field (rt : runtime) (g : globals)
  (fromT toT : type) (fromD toD : data) (fromValue toValue : rvalue)
  (fs : list data) (name : string) (j : nat) (ft : type) (d0 : data) :
  Kind_of toT = Kind.Pointer ->
  indirectValue (ValueOf (Some (fromT, fromD))) = Some fromValue ->
  indirectValue (ValueOf (Some (toT, toD))) = Some toValue ->
  Kind_of (typ fromValue) = Kind.Struct ->
  Kind_of (typ toValue) = Kind.Struct ->
  dat toValue = DStruct fs ->
  NoDup (map fst (fields_of (typ fromValue))) ->
  In name (map fst (fields_of (typ fromValue))) ->
  Type_FieldByName (typ toValue) name = Some (j, ft) ->
  IsExported name = true ->
  Kind_of ft <> Kind.Pointer ->
  nth_error fs j = Some d0 ->
  snd (@Copy (CopyService rt g) (Some (fromT, fromD)) (Some (toT, toD)))
  = Returned ->
  exists toValue' fs' b d',
    destination_after
      (@Copy (CopyService rt g) (Some (fromT, fromD)) (Some (toT, toD)))
    = Some toValue'
    /\ dat toValue' = DStruct fs'
    /\ DefaultService_CopyValue rt g (FieldByName fromValue name)
         (Some (mkValue ft d0 true false))
       = Ok (b, Some (mkValue ft d' true false))
    /\ nth_error fs' j = Some d'.
Proof.
  intros HK HF HT HKF HKT HD HND Hin HTF HX HNP Hd0 HRet.
  destruct (Copy_handles _ _ _ _ _ _ HK HF HT) as (HRO & HS & HIF & HIT).
  pose proof HS as HS'. unfold CanSet in HS'.
  apply andb_prop in HS' as [HA HR]. apply negb_true_iff in HR.
  rewrite (Copy_destination_after _ _ _ _ _ _ _ HK HF HT).
  rewrite (Copy_unwrapped _ _ _ _ _ _ _ HK HF HT) in HRet. simpl snd in HRet.
  unfold copy_shapes in *. rewrite HIF, HIT, HKF, HKT in *.
  simpl kind_eqb in *. simpl andb in *. cbv iota in *.
  apply in_map_iff in Hin as ([n sft] & Hn & Hin). simpl in Hn. subst n.
  apply in_split in Hin as (l1 & l2 & Hl). rewrite Hl in *.
  rewrite map_app in HND. simpl in HND.
  pose proof (NoDup_remove_2 _ _ _ HND) as Hnot.
  rewrite for_each_app in *.
  set (body := fun fromField : string * type =>
         @copy_into_field (CopyService rt g) (fst fromField)
           (FieldByName fromValue (fst fromField)) (typ toValue)) in *.
  destruct (for_each body l1 toValue) as [tv1 o1] eqn:E1.
  destruct o1; [|discriminate HRet].
  apply (field_loop_frame (CopyService rt g) fst
           (fun fromField : string * type =>
              FieldByName fromValue (fst fromField)) _ _ _ _ fs HD) in E1.
  destruct E1 as (HT1 & HA1 & HR1 & fs1 & HD1 & HL1 & HF1).
  assert (Hj : nth_error (fields_of (typ toValue)) j = Some (name, ft)).
  { unfold Type_FieldByName in HTF. destruct (String.eqb name "");
      [discriminate|].
    apply lookup_field_nth in HTF as [_ HTF]. now rewrite Nat.sub_0_r in HTF. }
  assert (Hd1 : nth_error fs1 j = Some d0).
  { rewrite (HF1 j name ft Hj); [exact Hd0|].
    left. intros C. apply Hnot. apply in_or_app. now left. }
  cbn [for_each] in *.
  destruct (body (name, sft) tv1) as [tv2 o2] eqn:E2.
  destruct o2; [|discriminate HRet].
  unfold body in E2. simpl fst in E2. unfold copy_into_field in E2.
  rewrite HTF in E2. unfold FieldByName at 1 in E2.
  rewrite HT1, HTF, HD1 in E2. cbv beta iota in E2.
  rewrite (nth_error_nth _ _ _ Hd1) in E2.
  unfold CanSet in E2. simpl flagAddr in E2. simpl flagRO in E2.
  rewrite HA1, HR1, HA, HR, HX in E2. simpl in E2.
  rewrite (kind_eqb_neq _ _ HNP) in E2. simpl in E2.
  change (@CopyValue (CopyService rt g)) with (DefaultService_CopyValue rt g)
    in E2.
  destruct (DefaultService_CopyValue rt g (FieldByName fromValue name)
              (Some (mkValue ft d0 true false))) as [[b v']|] eqn:EC;
    [|discriminate E2].
  destruct (CopyValue_handle rt g _ _ _ _ EC) as [d' ->]. simpl in E2.
  inversion E2; subst tv2. clear E2.
  destruct (set_field_shape tv1 j d0 fs1 HD1) as (S1 & S2 & S3 & S4).
  destruct (set_field_shape (set_field tv1 j d0) j d' _ S4)
    as (T1 & T2 & T3 & T4).
  destruct (for_each body l2 _) as [tv3 o3] eqn:E3.
  assert (HTy2 : typ (set_field (set_field tv1 j d0) j d') = typ toValue)
    by congruence.
  unfold body in E3. rewrite <- HTy2 in E3.
  apply (field_loop_frame (CopyService rt g) fst
           (fun fromField : string * type =>
              FieldByName fromValue (fst fromField)) _ _ _ _ _ T4) in E3.
  destruct E3 as (HT3 & _ & _ & fs3 & HD3 & HL3 & HF3).
  exists (mkValue (typ toValue) (dat tv3) (flagAddr toValue) (flagRO toValue)).
  exists fs3, b, d'. simpl fst. split; [reflexivity|].
  split; [exact HD3|]. split; [reflexivity|].
  rewrite HTy2 in HF3. rewrite (HF3 j name ft Hj).
  - apply replace_nth_same. rewrite replace_nth_length.
    apply nth_error_Some. congruence.
  - left. intros C. apply Hnot. apply in_or_app. now right.
Qed.

(** The example of the specification: [Name] holds what [CopyValue] made of
    ["A"]. *)
Lemma struct_copy_converts_field_witness :
  exists toValue' fs' b d',
    destination_after
      (Copy0 (Some (TStruct [("Name", TString); ("Extra", TInt W0)],
                    DStruct [DString "A"; DInt 1]))
             (pointer_to (TStruct [("Name", TString); ("Other", TInt W0)])
                (DStruct [DString ""; DInt 0])))
    = Some toValue'
    /\ dat toValue' = DStruct fs'
    /\ DefaultService_CopyValue bare_runtime initial_globals
         (FieldByName
            (value_of (TStruct [("Name", TString); ("Extra", TInt W0)])
               (DStruct [DString "A"; DInt 1])) "Name")
         (Some (mkValue TString (DString "") true false))
       = Ok (b, Some (mkValue TString d' true false))
    /\ nth_error fs' 0 = Some d'.
Proof.
  apply (struct_copy_converts_field bare_runtime initial_globals
           (TStruct [("Name", TString); ("Extra", TInt W0)])
           (TPtr (TStruct [("Name", TString); ("Other", TInt W0)]))
           (DStruct [DString "A"; DInt 1])
           (DPtr (Some (DStruct [DString ""; DInt 0])))
           (value_of (TStruct [("Name", TString); ("Extra", TInt W0)])
              (DStruct [DString "A"; DInt 1]))
           (mkValue (TStruct [("Name", TString); ("Other", TInt W0)])
              (DStruct [DString ""; DInt 0]) true false)
           [DString ""; DInt 0] "Name" 0%nat TString (DString "")
           eq_refl eq_refl eq_refl eq_refl eq_refl eq_refl).
  - simpl. repeat constructor; simpl; intuition discriminate.
  - simpl. auto.
  - reflexivity.
  - reflexivity.
  - discriminate.
  - reflexivity.
  - reflexivity.
Defined.

(** ** [Copy]: containers of identical types *)

Section IdenticalContainers.

Variable rt : runtime.
Variable g : globals.

Let svc : Service := CopyService rt g.

(** Into a fresh slot of its own type, which is not a pointer, a readable
    value is copied as it is. *)
Lemma CopyValue_fresh_identical (v : rvalue) :
  Kind_of (typ v) <> Kind.Pointer -> flagRO v = false ->
  DefaultService_CopyValue rt g (Some v) (Some (New_Elem (typ v)))
  = Ok (true, Some (mkValue (typ v) (dat v) true false)).
Proof.
  intros HK HRO.
  rewrite (CopyValue_identical rt g (Some v) (New_Elem (typ v)) v
             (New_Elem (typ v)));
    auto using indirectValue_not_pointer.
  now rewrite stored_not_pointer.
Qed.

Lemma converted_identical (fromValue : rvalue) (toType : type) (l : list data) :
  Elem_of toType = Elem_of (typ fromValue) ->
  Kind_of (Elem_of toType) <> Kind.Pointer ->
  flagRO fromValue = false ->
  converted svc fromValue toType l = l.
Proof.
  intros HE HK HRO. induction l as [|x r IH]; [reflexivity|].
  cbn [converted].
  change (@CopyValue svc) with (DefaultService_CopyValue rt g).
  rewrite HE in *.
  change (New_Elem (Elem_of (typ fromValue)))
    with (New_Elem (typ (Index fromValue x))).
  rewrite (CopyValue_fresh_identical (Index fromValue x)) by (simpl; auto).
  simpl. now rewrite IH.
Qed.

End IdenticalContainers.

(** X21. A slice copied into another slice (source and destination
    sharing no memory) of the same element type, which is not a pointer:
    [Copy] returns and the destination is what it was followed by all the
    elements of the source, in order and unchanged.  (Copied onto itself a
    slice grows for ever: X29.) *)
Theorem slice_copy_same_elements (rt : runtime) (g : globals)
  (fromT toT : type) (fromD toD : data) (fromValue toValue : rvalue)
  (initial : list data) :
  Kind_of toT = Kind.Pointer ->
  indirectValue (ValueOf (Some (fromT, fromD))) = Some fromValue ->
  indirectValue (ValueOf (Some (toT, toD))) = Some toValue ->
  Kind_of (typ fromValue) = Kind.Slice ->
  Kind_of (typ toValue) = Kind.Slice ->
  dat toValue = DSlice initial ->
  Elem_of (typ toValue) = Elem_of (typ fromValue) ->
  Kind_of (Elem_of (typ toValue)) <> Kind.Pointer ->
  @Copy (CopyService rt g) (Some (fromT, fromD)) (Some (toT, toD))
  = (Some (toT, store toT toD (DSlice (initial ++ elements fromValue))),
     Returned).
Proof.
  intros HK HF HT HKF HKT HD HE HP.
  destruct (Copy_handles _ _ _ _ _ _ HK HF HT) as (HRO & HS & HIF & HIT).
  rewrite (Copy_unwrapped _ _ _ _ _ _ _ HK HF HT).
  unfold copy_shapes. rewrite HIF, HIT, HKF, HKT. simpl kind_eqb.
  cbv iota. simpl andb. cbv iota.
  rewrite (slice_loop rt g fromValue (typ toValue) _ HRO toValue initial HS
             eq_refl HD).
  now rewrite converted_identical.
Qed.

(** [[3, 4]] appended to [[1, 2]]. *)
Lemma slice_copy_same_elements_witness :
  Copy0 (Some (TSlice (TInt W0), DSlice [DInt 3; DInt 4]))
        (pointer_to (TSlice (TInt W0)) (DSlice [DInt 1; DInt 2]))
  = (pointer_to (TSlice (TInt W0)) (DSlice [DInt 1; DInt 2; DInt 3; DInt 4]),
     Returned).
Proof.
  exact (slice_copy_same_elements bare_runtime initial_globals
           (TSlice (TInt W0)) (TPtr (TSlice (TInt W0)))
           (DSlice [DInt 3; DInt 4]) (DPtr (Some (DSlice [DInt 1; DInt 2])))
           (value_of (TSlice (TInt W0)) (DSlice [DInt 3; DInt 4]))
           (mkValue (TSlice (TInt W0)) (DSlice [DInt 1; DInt 2]) true false)
           [DInt 1; DInt 2]
           eq_refl eq_refl eq_refl eq_refl eq_refl eq_refl eq_refl
           ltac:(discriminate)).
Defined.

Lemma map_loop_identical (rt : runtime) (g : globals)
  (fromValue : rvalue) (toType : type) (l : list (data * data)) :
  Key_of toType = Key_of (typ fromValue) ->
  Elem_of toType = Elem_of (typ fromValue) ->
  plain_key (Key_of toType) = true ->
  Kind_of (Elem_of toType) <> Kind.Pointer ->
  flagRO fromValue = false ->
  forall m addr,
    for_each (fun p : Value * Value =>
                @copy_entry (CopyService rt g) (fst p) (snd p) toType)
      (map (fun kv : data * data =>
              (Some (MapKey fromValue (fst kv)),
               Some (MapValue fromValue (snd kv)))) l)
      (mkValue toType (DMap (Some m)) addr false)
    = (mkValue toType (DMap (Some (merged l m))) addr false, Returned).
Proof.
  intros HKe HEe HPK HEp HRO.
  pose proof (plain_key_not_pointer _ HPK) as HKp.
  pose proof (plain_key_hashable _ HPK) as HH.
  induction l as [|[k v] r IH]; intros m addr; [reflexivity|].
  cbn [map for_each merged fold_left fst snd]. unfold copy_entry at 1.
  change (@CopyValue (CopyService rt g)) with (DefaultService_CopyValue rt g).
  rewrite HKe, HEe in *.
  change (New_Elem (Key_of (typ fromValue)))
    with (New_Elem (typ (MapKey fromValue k))).
  rewrite (CopyValue_fresh_identical rt g (MapKey fromValue k))
    by (simpl; auto).
  change (New_Elem (Elem_of (typ fromValue)))
    with (New_Elem (typ (MapValue fromValue v))).
  rewrite (CopyValue_fresh_identical rt g (MapValue fromValue v))
    by (simpl; auto).
  unfold SetMapIndex, after, assignTo. simpl.
  rewrite HKe, HEe, !directlyAssignable_refl. simpl.
  rewrite (always_hashable_hashes _ _ HH). simpl.
  apply IH.
Qed.

(** X22. A map copied into another map of the same key and element
    types, the keys plain (no pointer, interface or blank field in them, so
    that [==] on keys is equality of contents) and the elements not
    pointers: [Copy] returns and the destination, made if it was nil, is
    what it was with every entry of the source stored into it, in the order
    the source is gone through; an entry of the source replaces the one the
    destination had under an equal key. *)
Theorem map_copy_same_types (rt : runtime) (g : globals)
  (fromT toT : type) (fromD toD : data) (fromValue toValue : rvalue)
  (mo : option (list (data * data))) :
  Kind_of toT = Kind.Pointer ->
  indirectValue (ValueOf (Some (fromT, fromD))) = Some fromValue ->
  indirectValue (ValueOf (Some (toT, toD))) = Some toValue ->
  Kind_of (typ fromValue) = Kind.Map ->
  Kind_of (typ toValue) = Kind.Map ->
  dat toValue = DMap mo ->
  Key_of (typ toValue) = Key_of (typ fromValue) ->
  Elem_of (typ toValue) = Elem_of (typ fromValue) ->
  plain_key (Key_of (typ toValue)) = true ->
  Kind_of (Elem_of (typ toValue)) <> Kind.Pointer ->
  @Copy (CopyService rt g) (Some (fromT, fromD)) (Some (toT, toD))
  = (Some (toT,
           store toT toD
             (DMap (Some (merged (entries fromValue)
                            (match mo with Some m => m | None => [] end))))),
     Returned).
Proof.
  intros HK HF HT HKF HKT HD HKe HEe HKp HEp.
  destruct (Copy_handles _ _ _ _ _ _ HK HF HT) as (HRO & HS & HIF & HIT).
  pose proof HS as HS'. unfold CanSet in HS'.
  apply andb_prop in HS' as [HA HR]. apply negb_true_iff in HR.
  rewrite (Copy_unwrapped _ _ _ _ _ _ _ HK HF HT).
  rewrite (copy_shapes_into_map_unfold rt g _ _ HIF HIT HKT)
    by (left; exact HKF).
  unfold source_pairs. rewrite HKF.
  assert (EM : make_if_nil (typ toValue) toValue
               = (mkValue (typ toValue)
                    (DMap (Some (match mo with Some m => m | None => [] end)))
                    (flagAddr toValue) false, Returned)).
  { unfold make_if_nil, IsNil. rewrite HD. destruct mo as [m|].
    - destruct toValue; simpl in *. now subst.
    - rewrite Set_same_type by auto. simpl. now rewrite HR. }
  rewrite EM.
  rewrite (map_loop_identical rt g fromValue (typ toValue) _ HKe HEe HKp HEp
             HRO).
  reflexivity.
Qed.

(** [{"a": 1, "b": 2}] into [{"b": 0, "z": 9}]. *)
Lemma map_copy_same_types_witness :
  Copy0 (Some (TMap TString (TInt W0),
               DMap (Some [(DString "a", DInt 1); (DString "b", DInt 2)])))
        (pointer_to (TMap TString (TInt W0))
           (DMap (Some [(DString "b", DInt 0); (DString "z", DInt 9)])))
  = (pointer_to (TMap TString (TInt W0))
       (DMap (Some [(DString "b", DInt 2); (DString "z", DInt 9);
                    (DString "a", DInt 1)])),
     Returned).
Proof.
  exact (map_copy_same_types bare_runtime initial_globals
           (TMap TString (TInt W0)) (TPtr (TMap TString (TInt W0)))
           (DMap (Some [(DString "a", DInt 1); (DString "b", DInt 2)]))
           (DPtr (Some (DMap (Some [(DString "b", DInt 0);
                                    (DString "z", DInt 9)]))))
           (value_of (TMap TString (TInt W0))
              (DMap (Some [(DString "a", DInt 1); (DString "b", DInt 2)])))
           (mkValue (TMap TString (TInt W0))
              (DMap (Some [(DString "b", DInt 0); (DString "z", DInt 9)]))
              true false)
           (Some [(DString "b", DInt 0); (DString "z", DInt 9)])
           eq_refl eq_refl eq_refl eq_refl eq_refl eq_refl eq_refl eq_refl
           eq_refl ltac:(discriminate)).
Defined.

(** ** [Copy]: the source by value or through pointers *)










(** ** [CopyValue]: strings that are not copied *)

Lemma string_kind_HasName (t : type) :
  Kind_of t = Kind.String -> HasName t = true.
Proof. destruct t; simpl; auto; discriminate. Qed.

(** X24. Between two different types of kind string (a defined string type
    and [string], or two defined string types) nothing is copied: the
    types are not assignable, and the branch for a string destination has
    no case for a string source, so [CopyValue] returns false before the
    final conversion step, the destination as it was. *)
Theorem CopyValue_between_string_types (rt : runtime) (g : globals)
  (fromValue0 : Value) (handle fromValue toValue : rvalue) :
  indirectValue fromValue0 = Some fromValue ->
  indirectValue (Some handle) = Some toValue ->
  Kind_of (typ fromValue) = Kind.String ->
  Kind_of (typ toValue) = Kind.String ->
  typ fromValue <> typ toValue ->
  DefaultService_CopyValue rt g fromValue0 (Some handle)
  = Ok (false, Some handle).
Proof.
  intros HF HT HKF HKT HN. open_CopyValue HF HT.
  assert (HA : AssignableTo (typ fromValue) (typ toValue) = false).
  { unfold AssignableTo, implements, directlyAssignable.
    rewrite type_eqb_neq by congruence.
    rewrite (string_kind_HasName _ HKF), (string_kind_HasName _ HKT).
    simpl. now rewrite HKT. }
  rewrite HA, HKT, HKF. reflexivity.
Qed.

(** A [type Name string] into a [string]. *)
Lemma CopyValue_between_string_types_witness :
  DefaultService_CopyValue bare_runtime initial_globals
    (Some (value_of (TNamed "Name" false TString) (DString "a")))
    (Some (New_Elem TString))
  = Ok (false, Some (New_Elem TString)).
Proof.
  apply (CopyValue_between_string_types bare_runtime initial_globals
           (Some (value_of (TNamed "Name" false TString) (DString "a")))
           (New_Elem TString)
           (value_of (TNamed "Name" false TString) (DString "a"))
           (New_Elem TString) eq_refl eq_refl eq_refl eq_refl).
  discriminate.
Defined.

(** X25. A string that does not parse is not an error: into a boolean, an
    integer or a float for which the [strconv] routine fails, and into any
    struct that is not a [time.Time], [CopyValue] returns false and leaves
    the destination as it was, whether or not it can be set. *)
Theorem CopyValue_unparsable_string (rt : runtime) (g : globals)
  (fromValue0 : Value) (handle fromValue toValue : rvalue) :
  indirectValue fromValue0 = Some fromValue ->
  indirectValue (Some handle) = Some toValue ->
  Kind_of (typ fromValue) = Kind.String ->
  (Kind_of (typ toValue) = Kind.Bool
   /\ strconv.ParseBool (String_ fromValue) = None)
  \/ (is_int_kind (Kind_of (typ toValue)) = true
      /\ strconv.ParseInt (String_ fromValue) 0 = None)
  \/ (is_uint_kind (Kind_of (typ toValue)) = true
      /\ strconv.ParseUint (String_ fromValue) 0 = None)
  \/ (is_float_kind (Kind_of (typ toValue)) = true
      /\ ParseFloat rt (String_ fromValue) 64 = None)
  \/ (Kind_of (typ toValue) = Kind.Struct /\ typ toValue <> time_Time) ->
  DefaultService_CopyValue rt g fromValue0 (Some handle)
  = Ok (false, Some handle).
Proof.
  intros HF HT HKF HC.
  destruct HC as [[HK HP]|[[HK HP]|[[HK HP]|[[HK HP]|[HK HN]]]]].
  - rewrite (string_to_bool rt g _ _ _ _ HF HKF HT HK). now rewrite HP.
  - rewrite (string_to_int rt g _ _ _ _ HF HKF HT HK). now rewrite HP.
  - rewrite (string_to_uint rt g _ _ _ _ HF HKF HT HK). now rewrite HP.
  - rewrite (string_to_float rt g _ _ _ _ HF HKF HT HK). now rewrite HP.
  - open_CopyValue HF HT.
    rewrite AssignableTo_kind_neq by (rewrite ?HKF, ?HK; discriminate).
    rewrite HK, HKF. simpl.
    now rewrite type_eqb_neq.
Qed.

(** ["12x"] into an [int], and ["yes"] into a [bool]. *)
Lemma CopyValue_unparsable_string_witness :
  DefaultService_CopyValue bare_runtime initial_globals
    (Some (value_of TString (DString "12x"))) (Some (New_Elem (TInt W0)))
  = Ok (false, Some (New_Elem (TInt W0)))
  /\ DefaultService_CopyValue bare_runtime initial_globals
       (Some (value_of TString (DString "yes"))) (Some (New_Elem TBool))
     = Ok (false, Some (New_Elem TBool)).
Proof.
  split.
  - apply (CopyValue_unparsable_string bare_runtime initial_globals
             (Some (value_of TString (DString "12x"))) (New_Elem (TInt W0))
             (value_of TString (DString "12x")) (New_Elem (TInt W0))
             eq_refl eq_refl eq_refl).
    right. left. split; reflexivity.
  - apply (CopyValue_unparsable_string bare_runtime initial_globals
             (Some (value_of TString (DString "yes"))) (New_Elem TBool)
             (value_of TString (DString "yes")) (New_Elem TBool)
             eq_refl eq_refl eq_refl).
    left. split; reflexivity.
Defined.

(** ** The panics of [Copy] *)

Lemma Set_read_only (v x : rvalue) :
  CanSet v = true -> flagRO x = true ->
  Set_ v x = Panic unexported_field_message.
Proof.
  unfold CanSet, Set_. intros HS HX.
  apply andb_prop in HS as [HA HR]. apply negb_true_iff in HR.
  now rewrite HR, HA, HX.
Qed.

(** Into a destination that can be set, [CopyValue] returns or panics on
    the one [Set] of a value read through an unexported field. *)
Lemma CopyValue_outcome (rt : runtime) (g : globals) (fromValue0 toValue0 : Value) :
  (forall toValue, indirectValue toValue0 = Some toValue ->
                   CanSet toValue = true) ->
  (exists b v',
      DefaultService_CopyValue rt g fromValue0 toValue0 = Ok (b, v')
      /\ (b = false -> v' = toValue0))
  \/ DefaultService_CopyValue rt g fromValue0 toValue0
     = Panic unexported_field_message.
Proof.
  intros HSET. unfold DefaultService_CopyValue.
  destruct (indirectValue fromValue0) as [fv|] eqn:HF; [|left; no_write].
  destruct toValue0 as [h|];
    [|destruct (indirectValue None); left; no_write].
  destruct (indirectValue (Some h)) as [tv|] eqn:HT; [|left; no_write].
  specialize (HSET tv eq_refl).
  destruct fromValue0 as [f0|]; [|discriminate]. simpl in HF, HT.
  rewrite (indirect_type _ _ _ _ _ HF), (indirect_type _ _ _ _ _ HT).
  cbv zeta.
  destruct (AssignableTo (typ fv) (typ tv)) eqn:HA.
  { destruct (flagRO fv) eqn:HRO.
    - right. unfold set_and_report. simpl.
      now rewrite (Set_read_only _ _ HSET HRO).
    - left. destruct (set_and_report_ok h tv fv HSET HRO HA) as [d E].
      rewrite E. eexists _, _. split; [reflexivity|intros; discriminate]. }
  destruct (kind_eqb (Kind_of (typ tv)) Kind.String) eqn:KS.
  { left. apply kind_eqb_eq in KS.
    pose proof (ConvertibleTo_string _ KS) as HC.
    destruct (Kind_of (typ fv)); try no_write; try (written rt HSET; exact HC).
    destruct (CanInterface fv); [|no_write].
    destruct (type_eqb (typ fv) time_Time); [written rt HSET; exact HC|].
    destruct (is_Stringer (typ fv)); [written rt HSET; exact HC|no_write]. }
  destruct (kind_eqb (Kind_of (typ fv)) Kind.String) eqn:KF.
  { left. destruct (Kind_of (typ tv)) eqn:K; try no_write;
      try (destruct (strconv.ParseInt _ _); [|no_write];
           written rt HSET; unfold ConvertibleTo, convertOp; simpl;
           now rewrite K);
      try (destruct (strconv.ParseUint _ _); [|no_write];
           written rt HSET; unfold ConvertibleTo, convertOp; simpl;
           now rewrite K);
      try (destruct (ParseFloat rt _ _); [|no_write];
           written rt HSET; unfold ConvertibleTo, convertOp; simpl;
           now rewrite K).
    - destruct (strconv.ParseBool _); [|no_write].
      written rt HSET. now apply ConvertibleTo_bool.
    - destruct (CanInterface (New_Elem (typ tv))); [|no_write].
      destruct (type_eqb (typ (New_Elem (typ tv))) time_Time) eqn:ET;
        [|no_write].
      destruct (ParseInLocation rt _ _ _);
        [|eexists _, _; split; [reflexivity|intros; discriminate]].
      apply type_eqb_eq in ET. simpl in ET.
      written rt HSET. rewrite ET. reflexivity. }
  destruct (CanConvert fv (typ tv)) eqn:HC; [|left; no_write].
  destruct (flagRO fv) eqn:HRO.
  - right. destruct (Convert_ok rt fv _ HC) as [d E]. rewrite E.
    unfold set_and_report. simpl.
    rewrite (Set_read_only tv (mkValue (typ tv) d false (flagRO fv)) HSET)
      by exact HRO.
    reflexivity.
  - left. destruct (set_and_report_converted rt h tv fv HSET HRO HC) as [d E].
    rewrite E. eexists _, _. split; [reflexivity|intros; discriminate].
Qed.

Lemma for_each_outcome {A : Type} (P : rvalue -> Prop) (Q : string -> Prop)
  (body : A -> rvalue -> rvalue * outcome) (l : list A) :
  (forall x tv, In x l -> P tv ->
     (exists tv', body x tv = (tv', Returned) /\ P tv')
     \/ (exists tv' m, body x tv = (tv', Panicked m) /\ Q m)) ->
  forall tv, P tv ->
    (exists tv', for_each body l tv = (tv', Returned) /\ P tv')
    \/ (exists tv' m, for_each body l tv = (tv', Panicked m) /\ Q m).
Proof.
  induction l as [|x r IH]; intros Hbody tv HP; simpl.
  - eauto.
  - destruct (Hbody x tv (or_introl eq_refl) HP)
      as [(tv1 & E & HP1)|(tv1 & m & E & HQ)]; rewrite E.
    + apply IH; auto. intros y tv2 Hy. apply Hbody. now right.
    + eauto.
Qed.

Lemma fresh_slot_settable (t : type) (tv : rvalue) :
  indirectValue (Some (New_Elem t)) = Some tv -> CanSet tv = true.
Proof.
  intros H. simpl in H. apply indirect_spec in H.
  destruct H as (_ & H2 & H3). unfold CanSet. now rewrite H2, H3 by auto.
Qed.

(** One round of a loop into a map returns, or panics on the [Set] of a
    value read through an unexported field, or on a key that does not
    hash. *)
Lemma copy_entry_outcome (rt : runtime) (g : globals)
  (fromKey fromElem : Value) (toValue : rvalue) m :
  (forall r, indirectValue fromKey = Some r -> flagRO r = false) ->
  flagRO toValue = false -> dat toValue = DMap (Some m) ->
  (exists toValue',
      @copy_entry (CopyService rt g) fromKey fromElem (typ toValue) toValue
      = (toValue', Returned)
      /\ typ toValue' = typ toValue /\ flagRO toValue' = false
      /\ exists m', dat toValue' = DMap (Some m'))
  \/ @copy_entry (CopyService rt g) fromKey fromElem (typ toValue) toValue
     = (toValue, Panicked unexported_field_message)
  \/ (always_hashable (Key_of (typ toValue)) = false
      /\ exists u,
           @copy_entry (CopyService rt g) fromKey fromElem (typ toValue)
             toValue
           = (toValue, Panicked (unhashable_message u))).
Proof.
  intros HK HR HD. unfold copy_entry.
  change (@CopyValue (CopyService rt g)) with (DefaultService_CopyValue rt g).
  destruct (CopyValue_returns rt g fromKey
              (Some (New_Elem (Key_of (typ toValue)))) HK
              (fresh_slot_settable _))
    as (bk & k' & EK & _).
  rewrite EK. destruct bk; [|left; eauto 8].
  destruct (CopyValue_outcome rt g fromElem
              (Some (New_Elem (Elem_of (typ toValue))))
              (fresh_slot_settable _))
    as [(bv & v' & EV & _)|EV]; rewrite EV; [|now right; left].
  destruct bv; [|left; eauto 8].
  destruct (CopyValue_handle rt g _ _ _ _ EK) as [dk ->].
  destruct (CopyValue_handle rt g _ _ _ _ EV) as [dv ->].
  unfold SetMapIndex, after, assignTo. simpl. rewrite HR. simpl.
  rewrite !directlyAssignable_refl. simpl. rewrite HD.
  destruct (unhashable (Key_of (typ toValue)) dk) as [u|] eqn:EU.
  - right. right. split; [|exists u; reflexivity].
    destruct (always_hashable (Key_of (typ toValue))) eqn:HH;
      [|reflexivity].
    rewrite (always_hashable_hashes _ _ HH) in EU. discriminate.
  - left. simpl. eexists. split; [reflexivity|]. simpl. eauto.
Qed.

(** The loop of a struct into a made map: it returns, or panics on the
    [Set] of an unexported field, or on a key that does not hash. *)
Lemma struct_into_map_loop (rt : runtime) (g : globals)
  (fromValue : rvalue) (toType : type) (l : list (string * type)) :
  forall toValue m,
    typ toValue = toType -> flagRO toValue = false ->
    dat toValue = DMap (Some m) ->
    (exists toValue' m',
        for_each (fun fromField : string * type =>
                    @copy_entry (CopyService rt g)
                      (Some (value_of TString (DString (fst fromField))))
                      (FieldByName fromValue (fst fromField)) toType)
          l toValue = (toValue', Returned)
        /\ typ toValue' = toType /\ flagRO toValue' = false
        /\ dat toValue' = DMap (Some m'))
    \/ (exists toValue' msg,
          for_each (fun fromField : string * type =>
                      @copy_entry (CopyService rt g)
                        (Some (value_of TString (DString (fst fromField))))
                        (FieldByName fromValue (fst fromField)) toType)
            l toValue = (toValue', Panicked msg)
          /\ (msg = unexported_field_message
              \/ (always_hashable (Key_of toType) = false
                  /\ exists u, msg = unhashable_message u))).
Proof.
  intros toValue m HTy HR HD.
  destruct (for_each_outcome
              (fun tv => typ tv = toType /\ flagRO tv = false
                         /\ exists m', dat tv = DMap (Some m'))
              (fun msg => msg = unexported_field_message
                          \/ (always_hashable (Key_of toType) = false
                              /\ exists u, msg = unhashable_message u))
              (fun fromField : string * type =>
                 @copy_entry (CopyService rt g)
                   (Some (value_of TString (DString (fst fromField))))
                   (FieldByName fromValue (fst fromField)) toType)
              l) with (tv := toValue)
    as [(tv' & E & H1 & H2 & m' & H3)|(tv' & msg & E & HQ)]; eauto 8.
  intros x tv _ (H1 & H2 & m1 & H3). subst toType.
  destruct (copy_entry_outcome rt g
              (Some (value_of TString (DString (fst x))))
              (FieldByName fromValue (fst x)) tv m1)
    as [(tv' & E & K)|[E|(HH & u & E)]]; auto.
  - intros r H. simpl in H. now injection H as <-.
  - left. exists tv'. rewrite <- H1. split; [exact E|].
    destruct K as (K1 & K2 & K3). auto.
  - right. rewrite <- H1. eauto.
  - right. rewrite <- H1. exists tv, (unhashable_message u).
    split; [exact E|]. right. eauto.
Qed.

(** The round of the struct-to-map loop at an unexported field whose value
    would be stored as it is. *)
Lemma copy_entry_unexported (rt : runtime) (g : globals)
  (fromValue toValue : rvalue) (name : string) (i : nat) (ft : type)
  (fs : list data) :
  dat fromValue = DStruct fs ->
  Key_of (typ toValue) = TString ->
  Type_FieldByName (typ fromValue) name = Some (i, ft) ->
  IsExported name = false ->
  Kind_of ft <> Kind.Pointer ->
  Kind_of (Elem_of (typ toValue)) <> Kind.Pointer ->
  AssignableTo ft (Elem_of (typ toValue)) = true ->
  @copy_entry (CopyService rt g)
    (Some (value_of TString (DString name)))
    (FieldByName fromValue name) (typ toValue) toValue
  = (toValue, Panicked unexported_field_message).
Proof.
  intros HD HKy ETF HX HKP HEP HA. unfold copy_entry.
  change (@CopyValue (CopyService rt g)) with (DefaultService_CopyValue rt g).
  rewrite HKy.
  change (New_Elem TString)
    with (New_Elem (typ (value_of TString (DString name)))).
  rewrite (CopyValue_fresh_identical rt g (value_of TString (DString name)))
    by (simpl; auto; discriminate).
  unfold FieldByName. rewrite ETF, HD, HX.
  unfold DefaultService_CopyValue. simpl indirectValue.
  rewrite !indirect_not_pointer by assumption.
  simpl typ. rewrite !indirectType_not_pointer by assumption.
  cbv zeta. rewrite HA. unfold set_and_report. simpl bind.
  rewrite Set_read_only; [reflexivity|reflexivity|].
  simpl. apply orb_true_r.
Qed.

Lemma for_each_map {A B : Type} (f : A -> B)
  (body : B -> rvalue -> rvalue * outcome) (l : list A) :
  forall tv, for_each body (map f l) tv = for_each (fun x => body (f x)) l tv.
Proof.
  induction l as [|x r IH]; intros tv; [reflexivity|]. simpl.
  destruct (body (f x) tv) as [tv' [|m]]; [apply IH|reflexivity].
Qed.

(** X26. A struct with an unexported field cannot be copied into a map
    that would take the field as it is: when the map has [string] keys
    and the type of an unexported field, not a pointer, is assignable to
    the element type of the map (it is that type, or the map holds
    [interface {}]), [Copy] panics on the [Set] of the field. *)
Theorem struct_unexported_field_into_map_panics (rt : runtime) (g : globals)
  (fromT toT : type) (fromD toD : data) (fromValue toValue : rvalue)
  (fs : list data) (mo : option (list (data * data)))
  (name : string) (i : nat) (ft : type) :
  Kind_of toT = Kind.Pointer ->
  indirectValue (ValueOf (Some (fromT, fromD))) = Some fromValue ->
  indirectValue (ValueOf (Some (toT, toD))) = Some toValue ->
  Kind_of (typ fromValue) = Kind.Struct ->
  dat fromValue = DStruct fs ->
  Kind_of (typ toValue) = Kind.Map ->
  dat toValue = DMap mo ->
  Key_of (typ toValue) = TString ->
  Type_FieldByName (typ fromValue) name = Some (i, ft) ->
  IsExported name = false ->
  Kind_of ft <> Kind.Pointer ->
  Kind_of (Elem_of (typ toValue)) <> Kind.Pointer ->
  AssignableTo ft (Elem_of (typ toValue)) = true ->
  snd (@Copy (CopyService rt g) (Some (fromT, fromD)) (Some (toT, toD)))
  = Panicked unexported_field_message.
Proof.
  intros HK HF HT HKF HDF HKT HDT HKy ETF HX HKP HEP HA.
  destruct (Copy_handles _ _ _ _ _ _ HK HF HT) as (HRO & HS & HIF & HIT).
  rewrite (Copy_unwrapped _ _ _ _ _ _ _ HK HF HT). simpl snd.
  rewrite (copy_shapes_into_map_unfold rt g _ _ HIF HIT HKT) by now right.
  destruct (make_if_nil_returns _ _ HS HDT) as (tv1 & m1 & EM & HT1 & HR1 & HD1).
  rewrite EM. unfold source_pairs. rewrite HKF, for_each_map. cbn [fst snd].
  pose proof ETF as ETF'. unfold Type_FieldByName in ETF'.
  destruct (String.eqb name ""); [discriminate|].
  apply lookup_field_nth in ETF' as [_ ETF']. rewrite Nat.sub_0_r in ETF'.
  apply nth_error_split in ETF' as (l1 & l2 & EL & _). rewrite EL.
  rewrite for_each_app.
  destruct (struct_into_map_loop rt g fromValue (typ toValue) l1 tv1 m1
              HT1 HR1 HD1)
    as [(tv2 & m2 & E & HT2 & HR2 & HD2)
       |(tv2 & msg & E & [->|(HH & _)])];
    rewrite E; [|reflexivity|rewrite HKy in HH; discriminate HH].
  cbn [for_each fst]. rewrite <- HT2 in HKy, HEP, HA |- *.
  now rewrite (copy_entry_unexported rt g fromValue tv2 name i ft fs).
Qed.

(** A struct with a field [name string] into a [map[string]string]. *)
Lemma struct_unexported_field_into_map_panics_witness :
  snd (Copy0 (Some (TStruct [("Id", TInt W0); ("name", TString)],
                    DStruct [DInt 7; DString "a"]))
             (pointer_to (TMap TString TString) (DMap None)))
  = Panicked unexported_field_message.
Proof.
  apply (struct_unexported_field_into_map_panics bare_runtime initial_globals
           (TStruct [("Id", TInt W0); ("name", TString)])
           (TPtr (TMap TString TString))
           (DStruct [DInt 7; DString "a"]) (DPtr (Some (DMap None)))
           (value_of (TStruct [("Id", TInt W0); ("name", TString)])
              (DStruct [DInt 7; DString "a"]))
           (mkValue (TMap TString TString) (DMap None) true false)
           [DInt 7; DString "a"] None "name" 1%nat TString
           eq_refl eq_refl eq_refl eq_refl eq_refl eq_refl eq_refl eq_refl
           eq_refl eq_refl).
  - discriminate.
  - discriminate.
  - reflexivity.
Defined.

(** One round of the struct loops, on a settable struct and with a source
    value that is readable when the name is exported: it returns, or it
    panics on the allocation of a nil field that points to a pointer. *)
Lemma copy_into_field_outcome (rt : runtime) (g : globals)
  (name : string) (fromFieldValue : Value) (toValue : rvalue)
  (fs : list data) :
  (IsExported name = true ->
   forall r, indirectValue fromFieldValue = Some r -> flagRO r = false) ->
  flagAddr toValue = true -> flagRO toValue = false ->
  dat toValue = DStruct fs ->
  (exists toValue' fs',
      @copy_into_field (CopyService rt g) name fromFieldValue (typ toValue)
        toValue = (toValue', Returned)
      /\ typ toValue' = typ toValue /\ flagAddr toValue' = true
      /\ flagRO toValue' = false /\ dat toValue' = DStruct fs')
  \/ (exists i ft,
        Type_FieldByName (typ toValue) name = Some (i, ft)
        /\ Kind_of ft = Kind.Pointer
        /\ Kind_of (Elem_of ft) = Kind.Pointer
        /\ @copy_into_field (CopyService rt g) name fromFieldValue
             (typ toValue) toValue
           = (toValue, Panicked (allocation_message ft))).
Proof.
  intros HRF HAd HRd HD1. unfold copy_into_field.
  destruct (Type_FieldByName (typ toValue) name) as [[i ft]|] eqn:ETF;
    [|left; eauto 8].
  unfold FieldByName at 1. rewrite ETF, HD1. cbv beta iota.
  destruct (CanSet (mkValue _ _ _ _)) eqn:ECS; simpl negb; cbv iota;
    [|left; eauto 8].
  assert (HX : IsExported name = true).
  { unfold CanSet in ECS. simpl in ECS. apply andb_prop in ECS as [_ ECS].
    apply negb_true_iff, orb_false_elim in ECS as [_ ECS].
    now apply negb_false_iff in ECS. }
  set (tf := mkValue ft (nth i fs (zero ft)) (flagAddr toValue)
               (flagRO toValue || negb (IsExported name))) in *.
  assert (Halloc :
    (exists d,
        (if kind_eqb (Kind_of ft) Kind.Pointer && IsNil tf
         then Set_ tf (New (indirectType ft)) else Ok tf)
        = Ok (mkValue ft d true false))
    \/ (Kind_of ft = Kind.Pointer /\ Kind_of (Elem_of ft) = Kind.Pointer
        /\ (if kind_eqb (Kind_of ft) Kind.Pointer && IsNil tf
            then Set_ tf (New (indirectType ft)) else Ok tf)
           = Panic (allocation_message ft))).
  { destruct (kind_eqb (Kind_of ft) Kind.Pointer && IsNil tf) eqn:EA.
    - apply andb_prop in EA as [EA _]. apply kind_eqb_eq in EA.
      unfold Set_, assignTo, tf. simpl. rewrite HRd, HAd, HX. simpl.
      destruct (kind_eqb (Kind_of (Elem_of ft)) Kind.Pointer) eqn:EE.
      + apply kind_eqb_eq in EE.
        destruct (directlyAssignable ft (TPtr (indirectType ft)));
          [left; simpl; eauto|].
        unfold implements. rewrite EA. simpl. right. auto.
      + assert (EE' : Kind_of (Elem_of ft) <> Kind.Pointer)
          by (intros H; apply kind_eqb_eq in H; congruence).
        rewrite (allocation_assignable ft EA EE'). simpl. eauto.
    - left. unfold tf. rewrite HAd, HRd, HX. simpl. eauto. }
  destruct Halloc as [[d ->]|(K1 & K2 & K3)].
  2:{ right. exists i, ft. repeat (split; [assumption || reflexivity|]).
      unfold FieldByName. rewrite ETF, HD1. cbv beta iota.
      fold tf. rewrite ECS, K3. reflexivity. }
  left.
  destruct (CopyValue_returns rt g fromFieldValue
              (Some (mkValue ft d true false))) as (b & v' & E & _).
  { exact (HRF HX). }
  { intros r H. simpl in H. apply indirect_spec in H.
    destruct H as (_ & H2 & H3). unfold CanSet. now rewrite H2, H3 by auto. }
  change (@CopyValue (CopyService rt g)) with (DefaultService_CopyValue rt g).
  rewrite E. eexists _, _. split; [reflexivity|].
  change (dat (mkValue ft d true false)) with d.
  destruct (set_field_shape toValue i d fs HD1) as (S1 & S2 & S3 & S4).
  destruct (set_field_shape (set_field toValue i d) i
              (dat (after (mkValue ft d true false) v')) _ S4)
    as (T1 & T2 & T3 & T4).
  rewrite T1, T2, T3, S1, S2, S3. eauto 6.
Qed.

Lemma FieldByName_readable (fromValue : rvalue) (name : string) (r : rvalue) :
  flagRO fromValue = false -> IsExported name = true ->
  indirectValue (FieldByName fromValue name) = Some r -> flagRO r = false.
Proof.
  intros HRO HX H. unfold FieldByName in H.
  destruct (Type_FieldByName (typ fromValue) name) as [[i ft]|];
    [|discriminate].
  destruct (dat fromValue); try discriminate.
  apply indirectValue_keeps_RO in H. simpl in H.
  now rewrite H, HRO, HX.
Qed.

(** A loop of [copy_into_field] rounds on a settable struct, the source
    values readable under exported names: it returns, or panics on the
    allocation of a field that points to a pointer. *)
Lemma field_loop_outcome (rt : runtime) (g : globals) {A : Type}
  (name : A -> string) (from : A -> Value) (l : list A)
  (toValue : rvalue) (fs : list data) :
  (forall x r, In x l -> IsExported (name x) = true ->
               indirectValue (from x) = Some r -> flagRO r = false) ->
  flagAddr toValue = true -> flagRO toValue = false ->
  dat toValue = DStruct fs ->
  (exists toValue',
      for_each (fun x => @copy_into_field (CopyService rt g) (name x)
                           (from x) (typ toValue)) l toValue
      = (toValue', Returned))
  \/ (exists toValue' ft,
        pointer_to_pointer_field (typ toValue) ft
        /\ for_each (fun x => @copy_into_field (CopyService rt g) (name x)
                                (from x) (typ toValue)) l toValue
           = (toValue', Panicked (allocation_message ft))).
Proof.
  intros HRF HAd HRd HD.
  destruct (for_each_outcome
              (fun tv => typ tv = typ toValue /\ flagAddr tv = true
                         /\ flagRO tv = false
                         /\ exists fs', dat tv = DStruct fs')
              (fun msg => exists ft,
                 pointer_to_pointer_field (typ toValue) ft
                 /\ msg = allocation_message ft)
              (fun x => @copy_into_field (CopyService rt g) (name x)
                          (from x) (typ toValue)) l) with (tv := toValue)
    as [(tv' & E & _)|(tv' & msg & E & ft & HP & ->)]; eauto 8.
  intros x tv Hx (H1 & H2 & H3 & fs1 & H4). rewrite <- H1.
  destruct (copy_into_field_outcome rt g (name x) (from x) tv fs1)
    as [(tv' & fs' & E & K1 & K2 & K3 & K4)
       |(i & ft & K1 & K2 & K3 & E)]; auto.
  - intros HX r. now apply HRF.
  - left. exists tv'. split; [exact E|]. rewrite K1. eauto 6.
  - right. exists tv, (allocation_message ft). split; [exact E|].
    exists ft. split; [|reflexivity]. now exists (name x), i.
Qed.

(** X27. Into a struct type without embedded fields: a map-to-struct copy
    returns when every pointer field of the destination points to a type
    that is not itself a pointer. *)
Theorem map_to_struct_returns (rt : runtime) (g : globals)
  (fromT toT : type) (fromD toD : data) (fromValue toValue : rvalue)
  (fs : list data) :
  Kind_of toT = Kind.Pointer ->
  indirectValue (ValueOf (Some (fromT, fromD))) = Some fromValue ->
  indirectValue (ValueOf (Some (toT, toD))) = Some toValue ->
  Kind_of (typ fromValue) = Kind.Map ->
  Kind_of (typ toValue) = Kind.Struct ->
  dat toValue = DStruct fs ->
  (forall name ft, In (name, ft) (fields_of (typ toValue)) ->
                   Kind_of ft = Kind.Pointer ->
                   Kind_of (Elem_of ft) <> Kind.Pointer) ->
  snd (@Copy (CopyService rt g) (Some (fromT, fromD)) (Some (toT, toD)))
  = Returned.
Proof.
  intros HK HF HT HKF HKT HD HPF.
  destruct (Copy_handles _ _ _ _ _ _ HK HF HT) as (HRO & HS & HIF & HIT).
  rewrite (Copy_unwrapped _ _ _ _ _ _ _ HK HF HT). simpl snd.
  unfold copy_shapes. rewrite HIF, HIT, HKF, HKT. simpl kind_eqb.
  simpl andb. cbv iota.
  pose proof HS as HS'. unfold CanSet in HS'.
  apply andb_prop in HS' as [HA HR]. apply negb_true_iff in HR.
  destruct (field_loop_outcome rt g
              (fun kv : data * data => String_ (MapKey fromValue (fst kv)))
              (fun kv : data * data => Some (MapValue fromValue (snd kv)))
              (entries fromValue) toValue fs)
    as [(tv' & E)|(tv' & ft & (name & i & K1 & K2 & K3) & E)]; auto.
  - intros x r _ _ H. apply indirectValue_keeps_RO in H. now rewrite H.
  - now rewrite E.
  - exfalso. apply (HPF name ft); auto.
    unfold Type_FieldByName in K1.
    destruct (String.eqb name ""); [discriminate|].
    apply lookup_field_nth in K1 as [_ K1]. now apply nth_error_In in K1.
Qed.

(** [{"Name": "A", "Nick": "a"}] into a struct with a [*string] field. *)
Lemma map_to_struct_returns_witness :
  snd (Copy0 (Some (TMap TString TString,
                    DMap (Some [(DString "Name", DString "A");
                                (DString "Nick", DString "a")])))
             (pointer_to (TStruct [("Name", TString); ("Nick", TPtr TString)])
                (DStruct [DString ""; DPtr None])))
  = Returned.
Proof.
  apply (map_to_struct_returns bare_runtime initial_globals
           (TMap TString TString)
           (TPtr (TStruct [("Name", TString); ("Nick", TPtr TString)]))
           (DMap (Some [(DString "Name", DString "A");
                        (DString "Nick", DString "a")]))
           (DPtr (Some (DStruct [DString ""; DPtr None])))
           (value_of (TMap TString TString)
              (DMap (Some [(DString "Name", DString "A");
                           (DString "Nick", DString "a")])))
           (mkValue (TStruct [("Name", TString); ("Nick", TPtr TString)])
              (DStruct [DString ""; DPtr None]) true false)
           [DString ""; DPtr None]
           eq_refl eq_refl eq_refl eq_refl eq_refl eq_refl).
  intros name ft [H|[H|[]]] HK; injection H as <- <-;
    [discriminate HK|discriminate].
Defined.

Lemma and_kinds (a b ka kb : kind) :
  kind_eqb a ka && kind_eqb b kb = true -> a = ka /\ b = kb.
Proof.
  intros H. apply andb_prop in H as [H1 H2].
  now apply kind_eqb_eq in H1, H2.
Qed.

(** One round of a loop into a map on a readable pair: it returns, or
    panics on a key that does not hash. *)
Lemma copy_entry_readable_outcome (rt : runtime) (g : globals)
  (fromKey fromElem : Value) (toValue : rvalue) m :
  (forall r, indirectValue fromKey = Some r -> flagRO r = false) ->
  (forall r, indirectValue fromElem = Some r -> flagRO r = false) ->
  flagRO toValue = false -> dat toValue = DMap (Some m) ->
  (exists toValue',
      @copy_entry (CopyService rt g) fromKey fromElem (typ toValue) toValue
      = (toValue', Returned)
      /\ typ toValue' = typ toValue /\ flagRO toValue' = false
      /\ exists m', dat toValue' = DMap (Some m'))
  \/ (always_hashable (Key_of (typ toValue)) = false
      /\ exists u,
           @copy_entry (CopyService rt g) fromKey fromElem (typ toValue)
             toValue
           = (toValue, Panicked (unhashable_message u))).
Proof.
  intros HK HE HR HD. unfold copy_entry.
  change (@CopyValue (CopyService rt g)) with (DefaultService_CopyValue rt g).
  destruct (CopyValue_returns rt g fromKey
              (Some (New_Elem (Key_of (typ toValue)))) HK
              (fresh_slot_settable _))
    as (bk & k' & EK & _).
  rewrite EK. destruct bk; [|left; eauto 8].
  destruct (CopyValue_returns rt g fromElem
              (Some (New_Elem (Elem_of (typ toValue)))) HE
              (fresh_slot_settable _))
    as (bv & v' & EV & _).
  rewrite EV. destruct bv; [|left; eauto 8].
  destruct (CopyValue_handle rt g _ _ _ _ EK) as [dk ->].
  destruct (CopyValue_handle rt g _ _ _ _ EV) as [dv ->].
  unfold SetMapIndex, after, assignTo. simpl. rewrite HR. simpl.
  rewrite !directlyAssignable_refl. simpl. rewrite HD.
  destruct (unhashable (Key_of (typ toValue)) dk) as [u|] eqn:EU.
  - right. split; [|exists u; reflexivity].
    destruct (always_hashable (Key_of (typ toValue))) eqn:HH;
      [|reflexivity].
    rewrite (always_hashable_hashes _ _ HH) in EU. discriminate.
  - left. simpl. eexists. split; [reflexivity|]. simpl. eauto.
Qed.

(** A loop into a made map over readable pairs. *)
Lemma readable_into_map_loop (rt : runtime) (g : globals) {A : Type}
  (key elem : A -> Value) (toType : type) (l : list A) :
  (forall x r, In x l -> indirectValue (key x) = Some r -> flagRO r = false) ->
  (forall x r, In x l -> indirectValue (elem x) = Some r -> flagRO r = false) ->
  forall toValue m,
    typ toValue = toType -> flagRO toValue = false ->
    dat toValue = DMap (Some m) ->
    (exists toValue',
        for_each (fun x => @copy_entry (CopyService rt g) (key x) (elem x)
                             toType) l toValue
        = (toValue', Returned))
    \/ (always_hashable (Key_of toType) = false
        /\ exists toValue' u,
             for_each (fun x => @copy_entry (CopyService rt g) (key x)
                                  (elem x) toType) l toValue
             = (toValue', Panicked (unhashable_message u))).
Proof.
  intros HKr HEr toValue m HTy HR HD.
  destruct (for_each_outcome
              (fun tv => typ tv = toType /\ flagRO tv = false
                         /\ exists m', dat tv = DMap (Some m'))
              (fun msg => always_hashable (Key_of toType) = false
                          /\ exists u, msg = unhashable_message u)
              (fun x => @copy_entry (CopyService rt g) (key x) (elem x)
                          toType) l) with (tv := toValue)
    as [(tv' & E & _)|(tv' & msg & E & HH & u & ->)]; eauto 8.
  intros x tv Hx (H1 & H2 & m1 & H3). subst toType.
  destruct (copy_entry_readable_outcome rt g (key x) (elem x) tv m1)
    as [(tv' & E & K1 & K2 & K3)|(HH & u & E)]; auto.
  - intros r. now apply HKr.
  - intros r. now apply HEr.
  - left. exists tv'. rewrite <- H1. split; [exact E|]. auto.
  - right. rewrite <- H1. exists tv, (unhashable_message u).
    split; [exact E|]. eauto.
Qed.

(** The ways the dispatch of [Copy] panics. *)
Lemma copy_shapes_panics (rt : runtime) (g : globals)
  (fromValue toValue : rvalue) (msg : string) :
  flagRO fromValue = false -> CanSet toValue = true ->
  indirectType (typ fromValue) = typ fromValue ->
  indirectType (typ toValue) = typ toValue ->
  shaped toValue = true ->
  snd (@copy_shapes (CopyService rt g) fromValue toValue) = Panicked msg ->
  (msg = unexported_field_message
   /\ Kind_of (typ fromValue) = Kind.Struct
   /\ Kind_of (typ toValue) = Kind.Map
   /\ forallb IsExported (map fst (fields_of (typ fromValue))) = false)
  \/ (exists ft,
        Kind_of (typ toValue) = Kind.Struct
        /\ pointer_to_pointer_field (typ toValue) ft
        /\ msg = allocation_message ft)
  \/ (exists u,
        Kind_of (typ toValue) = Kind.Map
        /\ always_hashable (Key_of (typ toValue)) = false
        /\ msg = unhashable_message u).
Proof.
  intros HRO HS HIF HIT HSh.
  pose proof HS as HS'. unfold CanSet in HS'.
  apply andb_prop in HS' as [HA HR]. apply negb_true_iff in HR.
  unfold copy_shapes. rewrite HIF, HIT. cbv zeta. unfold shaped in HSh.
  destruct (kind_eqb (Kind_of (typ fromValue)) Kind.Slice
            && kind_eqb (Kind_of (typ toValue)) Kind.Slice) eqn:E1.
  { apply and_kinds in E1 as [HKF HKT]. rewrite HKT in HSh.
    destruct (dat toValue) as [| | | | | | |initial| |] eqn:HD;
      try discriminate.
    rewrite (slice_loop rt g fromValue (typ toValue) _ HRO toValue initial)
      by auto.
    discriminate. }
  destruct (kind_eqb (Kind_of (typ fromValue)) Kind.Struct
            && kind_eqb (Kind_of (typ toValue)) Kind.Struct) eqn:E2.
  { apply and_kinds in E2 as [HKF HKT]. rewrite HKT in HSh.
    destruct (dat toValue) as [| | | | | | | | |fs] eqn:HD; try discriminate.
    destruct (field_loop_outcome rt g
                (fun x : string * type => fst x)
                (fun x : string * type => FieldByName fromValue (fst x))
                (fields_of (typ fromValue)) toValue fs)
      as [(tv' & E)|(tv' & ft & HP & E)]; auto.
    - intros x r _ HX H. now apply (FieldByName_readable fromValue (fst x)).
    - rewrite E. discriminate.
    - rewrite E. simpl. intros H. injection H as <-. right. left. eauto. }
  destruct (kind_eqb (Kind_of (typ fromValue)) Kind.Map
            && kind_eqb (Kind_of (typ toValue)) Kind.Map) eqn:E3.
  { apply and_kinds in E3 as [HKF HKT]. rewrite HKT in HSh.
    destruct (dat toValue) as [| | | | | | | |mo|] eqn:HD; try discriminate.
    destruct (make_if_nil_returns _ _ HS HD)
      as (tv1 & m1 & EM & HT1 & HR1 & HD1).
    rewrite EM.
    destruct (readable_into_map_loop rt g
                (fun kv : data * data => Some (MapKey fromValue (fst kv)))
                (fun kv : data * data => Some (MapValue fromValue (snd kv)))
                (typ toValue) (entries fromValue))
      with (toValue := tv1) (m := m1)
      as [(tv2 & E)|(HH & tv2 & u & E)]; auto.
    - intros x r _ H. apply indirectValue_keeps_RO in H. now rewrite H.
    - intros x r _ H. apply indirectValue_keeps_RO in H. now rewrite H.
    - rewrite E. discriminate.
    - rewrite E. simpl. intros H. injection H as <-. right. right. eauto. }
  destruct (kind_eqb (Kind_of (typ fromValue)) Kind.Map
            && kind_eqb (Kind_of (typ toValue)) Kind.Struct) eqn:E4.
  { apply and_kinds in E4 as [HKF HKT]. rewrite HKT in HSh.
    destruct (dat toValue) as [| | | | | | | | |fs] eqn:HD; try discriminate.
    destruct (field_loop_outcome rt g
                (fun kv : data * data => String_ (MapKey fromValue (fst kv)))
                (fun kv : data * data => Some (MapValue fromValue (snd kv)))
                (entries fromValue) toValue fs)
      as [(tv' & E)|(tv' & ft & HP & E)]; auto.
    - intros x r _ _ H. apply indirectValue_keeps_RO in H. now rewrite H.
    - rewrite E. discriminate.
    - rewrite E. simpl. intros H. injection H as <-. right. left. eauto. }
  destruct (kind_eqb (Kind_of (typ fromValue)) Kind.Struct
            && kind_eqb (Kind_of (typ toValue)) Kind.Map) eqn:E5.
  { apply and_kinds in E5 as [HKF HKT]. rewrite HKT in HSh.
    destruct (dat toValue) as [| | | | | | | |mo|] eqn:HD; try discriminate.
    destruct (make_if_nil_returns _ _ HS HD)
      as (tv1 & m1 & EM & HT1 & HR1 & HD1).
    rewrite EM.
    destruct (forallb IsExported (map fst (fields_of (typ fromValue))))
      eqn:EX.
    - destruct (readable_into_map_loop rt g
                  (fun x : string * type =>
                     Some (value_of TString (DString (fst x))))
                  (fun x : string * type => FieldByName fromValue (fst x))
                  (typ toValue) (fields_of (typ fromValue)))
        with (toValue := tv1) (m := m1)
        as [(tv2 & E)|(HH & tv2 & u & E)]; auto.
      + intros x r _ H. simpl in H. now injection H as <-.
      + intros x r Hx H. apply (FieldByName_readable fromValue (fst x)); auto.
        rewrite forallb_forall in EX. apply EX. now apply in_map.
      + rewrite E. discriminate.
      + rewrite E. simpl. intros H. injection H as <-. right. right. eauto.
    - destruct (struct_into_map_loop rt g fromValue (typ toValue)
                  (fields_of (typ fromValue)) tv1 m1 HT1 HR1 HD1)
        as [(tv2 & m2 & E & _)|(tv2 & msg' & E & [->|(HH & u & ->)])];
        rewrite E; [discriminate| |].
      + simpl. intros H. injection H as <-. left. auto.
      + simpl. intros H. injection H as <-. right. right. eauto. }
  change (@CopyValue (CopyService rt g)) with (DefaultService_CopyValue rt g).
  destruct (CopyValue_returns rt g (Some fromValue) (Some toValue))
    as (b & v' & E & _).
  { intros r H. simpl in H. destruct fromValue as [t d a r0]. simpl in *.
    rewrite indirect_not_pointer in H.
    - now injection H as <-.
    - rewrite <- HIF. apply indirectType_kind. }
  { intros r H. simpl in H. destruct toValue as [t d a r0]. simpl in *.
    rewrite indirect_not_pointer in H.
    - now injection H as <-.
    - rewrite <- HIT. apply indirectType_kind. }
  rewrite E. discriminate.
Qed.

(** X28. The four ways [Copy] panics, over struct types without embedded
    fields and whatever the arguments otherwise (the destination holding,
    where it is a slice, a map or a struct, content of that shape, and
    sharing no memory with the source): on a nil pointer met while
    unwrapping the source or the destination; on an unexported field of a
    struct copied into a map; on the allocation of a nil field of the
    destination struct that points to a pointer; on a key that does not
    hash, in a map whose key type holds an interface.  [Copy] raises no
    other panic. *)
Theorem Copy_panics_only (rt : runtime) (g : globals)
  (from to to' : any) (msg : string) :
  (forall toValue, indirectValue (ValueOf to) = Some toValue ->
                   shaped toValue = true) ->
  @Copy (CopyService rt g) from to = (to', Panicked msg) ->
  (msg = zero_Value_message
   /\ (indirectValue (ValueOf from) = None
       \/ indirectValue (ValueOf to) = None))
  \/ (msg = unexported_field_message
      /\ exists fromValue toValue,
           indirectValue (ValueOf from) = Some fromValue
           /\ indirectValue (ValueOf to) = Some toValue
           /\ Kind_of (typ fromValue) = Kind.Struct
           /\ Kind_of (typ toValue) = Kind.Map
           /\ forallb IsExported (map fst (fields_of (typ fromValue)))
              = false)
  \/ (exists toValue ft,
        indirectValue (ValueOf to) = Some toValue
        /\ Kind_of (typ toValue) = Kind.Struct
        /\ pointer_to_pointer_field (typ toValue) ft
        /\ msg = allocation_message ft)
  \/ (exists toValue u,
        indirectValue (ValueOf to) = Some toValue
        /\ Kind_of (typ toValue) = Kind.Map
        /\ always_hashable (Key_of (typ toValue)) = false
        /\ msg = unhashable_message u).
Proof.
  intros HSh H.
  destruct from as [[fromT fromD]|]; [|discriminate H].
  destruct to as [[toT toD]|].
  2:{ injection H as _ <-. left. split; [reflexivity|now right]. }
  destruct (kind_eqb (Kind_of toT) Kind.Pointer) eqn:HK.
  2:{ unfold Copy in H. cbv zeta in H.
      change (IsValid (ValueOf (Some (fromT, fromD)))) with true in H.
      change (Type_ (ValueOf (Some (toT, toD)))) with (Ok toT) in H.
      cbv iota in H. simpl negb at 1 in H. cbv iota in H.
      rewrite HK in H. discriminate H. }
  apply kind_eqb_eq in HK.
  destruct (indirectValue (ValueOf (Some (fromT, fromD))))
    as [fromValue|] eqn:HF.
  2:{ left. split; [|now left].
      unfold Copy in H. cbv zeta in H.
      change (IsValid (ValueOf (Some (fromT, fromD)))) with true in H.
      change (Type_ (ValueOf (Some (toT, toD)))) with (Ok toT) in H.
      cbv iota in H. simpl negb at 1 in H. cbv iota in H.
      rewrite HK in H. simpl kind_eqb in H. simpl negb in H. cbv iota in H.
      rewrite HF in H. now injection H as _ <-. }
  destruct (indirectValue (ValueOf (Some (toT, toD))))
    as [toValue|] eqn:HT.
  2:{ left. split; [|now right].
      unfold Copy in H. cbv zeta in H.
      change (IsValid (ValueOf (Some (fromT, fromD)))) with true in H.
      change (Type_ (ValueOf (Some (toT, toD)))) with (Ok toT) in H.
      cbv iota in H. simpl negb at 1 in H. cbv iota in H.
      rewrite HK in H. simpl kind_eqb in H. simpl negb in H. cbv iota in H.
      rewrite HF, HT in H. now injection H as _ <-. }
  destruct (Copy_handles _ _ _ _ _ _ HK HF HT) as (HRO & HS & HIF & HIT).
  rewrite (Copy_unwrapped _ _ _ _ _ _ _ HK HF HT) in H.
  injection H as _ H.
  destruct (copy_shapes_panics rt g fromValue toValue msg HRO HS HIF HIT
              (HSh toValue eq_refl) H)
    as [(-> & K1 & K2 & K3)|[(ft & K1 & K2 & ->)|(u & K1 & K2 & ->)]].
  - right. left. split; [reflexivity|]. exists fromValue, toValue. auto.
  - right. right. left. exists toValue, ft. auto.
  - right. right. right. exists toValue, u. auto.
Qed.

(** The panic of a [**int] field, found among the four. *)
Lemma Copy_panics_only_witness :
  let from := Some (TStruct [("P", TInt W0)], DStruct [DInt 1]) in
  let to := pointer_to (TStruct [("P", TPtr (TPtr (TInt W0)))])
              (DStruct [DPtr None]) in
  let msg :=
    "reflect.Set: value of type *int is not assignable to type **int" in
  (msg = zero_Value_message
   /\ (indirectValue (ValueOf from) = None
       \/ indirectValue (ValueOf to) = None))
  \/ (msg = unexported_field_message
      /\ exists fromValue toValue,
           indirectValue (ValueOf from) = Some fromValue
           /\ indirectValue (ValueOf to) = Some toValue
           /\ Kind_of (typ fromValue) = Kind.Struct
           /\ Kind_of (typ toValue) = Kind.Map
           /\ forallb IsExported (map fst (fields_of (typ fromValue)))
              = false)
  \/ (exists toValue ft,
        indirectValue (ValueOf to) = Some toValue
        /\ Kind_of (typ toValue) = Kind.Struct
        /\ pointer_to_pointer_field (typ toValue) ft
        /\ msg = allocation_message ft)
  \/ (exists toValue u,
        indirectValue (ValueOf to) = Some toValue
        /\ Kind_of (typ toValue) = Kind.Map
        /\ always_hashable (Key_of (typ toValue)) = false
        /\ msg = unhashable_message u).
Proof.
  apply (Copy_panics_only bare_runtime initial_globals
           (Some (TStruct [("P", TInt W0)], DStruct [DInt 1]))
           (pointer_to (TStruct [("P", TPtr (TPtr (TInt W0)))])
              (DStruct [DPtr None]))
           (pointer_to (TStruct [("P", TPtr (TPtr (TInt W0)))])
              (DStruct [DPtr None]))
           "reflect.Set: value of type *int is not assignable to type **int").
  - intros toValue H. vm_compute in H. injection H as <-. reflexivity.
  - reflexivity.
Defined.

(** A key that does not hash: a [map[*[]int]int] into a [map[interface {}]int].
    The pointer key is unwrapped and the slice goes into the interface. *)
Example Copy_unhashable_key :
  snd (Copy0 (Some (TMap (TPtr (TSlice (TInt W0))) (TInt W0),
                    DMap (Some [(DPtr (Some (DSlice [DInt 1])), DInt 1)])))
             (pointer_to (TMap TInterface (TInt W0)) (DMap None)))
  = Panicked "runtime error: hash of unhashable type []int".
Proof. reflexivity. Qed.

(** ** A slice copied onto itself *)

Lemma shared_slice_round (rt : runtime) (g : globals) (s : rvalue)
  (l : list data) (x : data) :
  CanSet s = true -> dat s = DSlice l ->
  Kind_of (Elem_of (typ s)) <> Kind.Pointer ->
  @copy_element (CopyService rt g) s (typ s) x s
  = (mkValue (typ s) (DSlice (l ++ [x])%list) (flagAddr s) false, Returned).
Proof.
  intros HS HD HE. pose proof HS as HS'. unfold CanSet in HS'.
  apply andb_prop in HS' as [HA HR]. apply negb_true_iff in HR.
  unfold copy_element.
  change (@CopyValue (CopyService rt g)) with (DefaultService_CopyValue rt g).
  change (New_Elem (Elem_of (typ s))) with (New_Elem (typ (Index s x))).
  rewrite (CopyValue_fresh_identical rt g (Index s x)) by (simpl; auto).
  unfold after, Append, assignTo, elements. simpl. rewrite HR, HD. simpl.
  rewrite directlyAssignable_refl. simpl.
  rewrite Set_same_type by auto. simpl. now rewrite HR.
Qed.

Lemma shared_slice_loop_goes_on (rt : runtime) (g : globals) (toType : type) :
  Kind_of (Elem_of toType) <> Kind.Pointer ->
  forall fuel i s l,
    typ s = toType -> CanSet s = true -> dat s = DSlice l ->
    (i < List.length l)%nat ->
    shared_slice_loop (CopyService rt g) fuel toType i s = None.
Proof.
  intros HE. induction fuel as [|fuel IH]; intros i s l HT HS HD Hi;
    [reflexivity|].
  simpl. unfold elements at 1. rewrite HD.
  destruct (nth_error l i) as [x|] eqn:EN;
    [|apply nth_error_None in EN; lia].
  subst toType. rewrite (shared_slice_round rt g s l x HS HD HE).
  apply (IH (S i) _ (l ++ [x])%list); try reflexivity.
  - unfold CanSet in *. simpl.
    apply andb_prop in HS as [HA _]. now rewrite HA.
  - rewrite length_app. simpl. lia.
Qed.

(** X29. A slice copied onto itself ([Copy(&s, &s)]), its elements not
    pointers: the loop never ends when the slice is not empty.  Every
    round appends the element it read, so the length, which the loop
    condition reads again each round, stays ahead of the index. *)
Theorem slice_copy_onto_itself_never_ends (rt : runtime) (g : globals)
  (s : rvalue) (l : list data) :
  Kind_of (typ s) = Kind.Slice ->
  Kind_of (Elem_of (typ s)) <> Kind.Pointer ->
  CanSet s = true ->
  dat s = DSlice l ->
  l <> [] ->
  forall fuel,
    shared_slice_loop (CopyService rt g) fuel (typ s) 0 s = None.
Proof.
  intros _ HE HS HD HL fuel.
  apply (shared_slice_loop_goes_on rt g (typ s) HE fuel 0%nat s l);
    auto.
  destruct l; [contradiction|simpl; lia].
Qed.

(** The slice [[1]] after a thousand rounds. *)
Lemma slice_copy_onto_itself_never_ends_witness :
  shared_slice_loop (CopyService bare_runtime initial_globals) 1000
    (TSlice (TInt W0)) 0
    (mkValue (TSlice (TInt W0)) (DSlice [DInt 1]) true false)
  = None.
Proof.
  apply (slice_copy_onto_itself_never_ends bare_runtime initial_globals
           (mkValue (TSlice (TInt W0)) (DSlice [DInt 1]) true false)
           [DInt 1] eq_refl ltac:(discriminate) eq_refl eq_refl
           ltac:(discriminate) 1000%nat).
Defined.

(** An empty slice copied onto itself: the loop ends at once. *)
Example slice_copy_onto_itself_empty :
  shared_slice_loop (CopyService bare_runtime initial_globals) 1
    (TSlice (TInt W0)) 0
    (mkValue (TSlice (TInt W0)) (DSlice []) true false)
  = Some (mkValue (TSlice (TInt W0)) (DSlice []) true false, Returned).
Proof. reflexivity. Qed.
